(** * GophKeeper: a shallow embedding of the server-side data plane

    The development follows the layout of the Go repository:

    - [models]   : internal/models (DataEntry, User, DataType)
    - [pg]       : the relational schema of the goose migration
                   (users, data_entries, deleted_entries, the
                   updated_at trigger) as executable statements
    - [storage]  : internal/storage/postgres.go
    - [auth]     : internal/auth/auth.go (with the claim validation
                   of golang-jwt/jwt/v5 it calls)
    - [otp]      : internal/otp/otp.go (with encoding/base32)
    - [crypto]   : internal/crypto (EncryptLargeData)
    - [grpc]     : internal/grpc/server.go and http_handlers.go

    Conventions.  A Go [time.Time] is a [Z], nanoseconds since the Unix
    epoch; a [time.Duration] is a [Z] of nanoseconds.  A [uuid.UUID] is
    the [N] whose big-endian bytes are the 16 bytes of the identifier.
    A Go [string] is a [string]; a [[]byte] is a [list byte].  Calls to
    the logger are dropped: they never influence a result.

    A timestamp column of the schema is a TIMESTAMP WITH TIME ZONE and
    holds whole microseconds: an INSERT stores the microsecond of the Go
    time bound to it ([pg.timestamptz]).

    Every database round trip takes a [fault] argument: [Some e] makes
    that round trip fail with [e] and without effect (lost connection,
    cancelled context, a rejection that the schema constraints below do
    not describe); [None] lets the statement run against the tables. *)

From Stdlib Require Import ZArith NArith List String Ascii Bool Lia.
From Stdlib.Strings Require Import Byte.
From Stdlib Require Import DecimalString.
From Stdlib Require Import Permutation Sorted.
Import ListNotations.

Local Open Scope string_scope.
Local Open Scope Z_scope.

(* ================================================================= *)
(** ** Go values shared by all packages *)

Module golang.

(** [time.Time] and [time.Duration], in nanoseconds. *)
Definition Time := Z.
Definition Duration := Z.

Definition Microsecond : Duration := 1000.
Definition Second : Duration := 1000000000.
Definition Hour : Duration := 3600 * Second.

Definition minDuration : Duration := - 2 ^ 63.
Definition maxDuration : Duration := 2 ^ 63 - 1.

(** [t.Add(d)]. *)
Definition Time_Add (t : Time) (d : Duration) : Time := t + d.

(** [t.Sub(u)]: the difference, saturated to the range of a Duration. *)
Definition Time_Sub (t u : Time) : Duration :=
  let d := t - u in
  if d <? minDuration then minDuration
  else if maxDuration <? d then maxDuration
  else d.

(** [t.Before(u)] and [t.After(u)]. *)
Definition Time_Before (t u : Time) : bool := t <? u.
Definition Time_After (t u : Time) : bool := u <? t.

(** [t.Truncate(d)] for a positive [d] that divides the distance between
    the zero Time and the Unix epoch (true of [Second] and [Microsecond]):
    the multiple of [d] at or below [t]. *)
Definition Time_Truncate (t : Time) (d : Duration) : Time := t - t mod d.

(** [int64] arithmetic wraps around. *)
Definition int64_min : Z := - 2 ^ 63.
Definition int64_max : Z := 2 ^ 63 - 1.
Definition wrap64 (z : Z) : Z := (z + 2 ^ 63) mod 2 ^ 64 - 2 ^ 63.

(** The Go [error] values the server builds: a PostgreSQL error, the
    [pgx.ErrNoRows] sentinel, [errors.New], and [fmt.Errorf("%s: %w")]. *)
Record PgError := mkPgError { pg_Code : string; pg_Message : string }.

Inductive error :=
| ErrPg (e : PgError)
| ErrNoRows
| ErrNew (msg : string)
| ErrWrap (prefix : string) (inner : error).

(** [err.Error()]. *)
Fixpoint Error (e : error) : string :=
  match e with
  | ErrPg p => pg_Message p
  | ErrNoRows => "no rows in result set"
  | ErrNew m => m
  | ErrWrap p i => p ++ ": " ++ Error i
  end.

(** [errors.As(err, &pgErr)]: the first PostgreSQL error on the chain. *)
Fixpoint As_PgError (e : error) : option PgError :=
  match e with
  | ErrPg p => Some p
  | ErrWrap _ i => As_PgError i
  | _ => None
  end.

End golang.
Export golang.

(* ================================================================= *)
(** ** github.com/google/uuid *)

Module uuid.

Definition UUID := N.

Definition eqb (a b : UUID) : bool := N.eqb a b.

Definition Nil : UUID := 0%N.

Definition hexdigit (n : N) : ascii :=
  match n with
  | 0 => "0" | 1 => "1" | 2 => "2" | 3 => "3" | 4 => "4" | 5 => "5"
  | 6 => "6" | 7 => "7" | 8 => "8" | 9 => "9" | 10 => "a" | 11 => "b"
  | 12 => "c" | 13 => "d" | 14 => "e" | _ => "f"
  end%N%char.

(** The two lower-case hex digits of byte number [i] (0 is the most
    significant of the 16). *)
Definition byte_at (u : UUID) (i : N) : N :=
  (N.shiftr u (8 * (15 - i)) mod 256)%N.

Definition hexbyte (b : N) (k : string) : string :=
  String (hexdigit (b / 16)) (String (hexdigit (b mod 16)) k).

Fixpoint hexbytes (u : UUID) (idx : list N) (k : string) : string :=
  match idx with
  | [] => k
  | i :: idx' => hexbyte (byte_at u i) (hexbytes u idx' k)
  end.

(** [id.String()]: xxxxxxxx-xxxx-xxxx-xxxx-xxxxxxxxxxxx. *)
Definition String_ (u : UUID) : string :=
  hexbytes u [0;1;2;3]%N (String "-"
  (hexbytes u [4;5]%N (String "-"
  (hexbytes u [6;7]%N (String "-"
  (hexbytes u [8;9]%N (String "-"
  (hexbytes u [10;11;12;13;14;15]%N ""))))))))%char.

(** [xvalues]: the value of a hex digit, either case. *)
Definition xvalue (c : ascii) : option N :=
  let n := N_of_ascii c in
  if ((48 <=? n) && (n <=? 57))%N then Some (n - 48)%N
  else if ((97 <=? n) && (n <=? 102))%N then Some (n - 87)%N
  else if ((65 <=? n) && (n <=? 70))%N then Some (n - 55)%N
  else None.

(** [xtob]: two hex digits to a byte. *)
Definition xtob (c1 c2 : ascii) : option N :=
  match xvalue c1, xvalue c2 with
  | Some a, Some b => Some (16 * a + b)%N
  | _, _ => None
  end.

Definition char_at (s : string) (i : nat) : ascii :=
  match String.get i s with Some c => c | None => "000"%char end.

Fixpoint parse_bytes (s : string) (xs : list nat) (acc : N) : option UUID :=
  match xs with
  | [] => Some acc
  | x :: xs' =>
      match xtob (char_at s x) (char_at s (S x)) with
      | Some v => parse_bytes s xs' (256 * acc + v)%N
      | None => None
      end
  end.

Definition lower (c : ascii) : ascii :=
  let n := N_of_ascii c in
  if ((65 <=? n) && (n <=? 90))%N then ascii_of_N (n + 32) else c.

Fixpoint map_string (f : ascii -> ascii) (s : string) : string :=
  match s with
  | EmptyString => EmptyString
  | String c r => String (f c) (map_string f r)
  end.

(** The 36-byte form, after the prefix of the longer forms is gone. *)
Definition parse36 (s : string) : option UUID :=
  if (Ascii.eqb (char_at s 8) "-" && Ascii.eqb (char_at s 13) "-" &&
      Ascii.eqb (char_at s 18) "-" && Ascii.eqb (char_at s 23) "-")%char
  then parse_bytes s [0;2;4;6;9;11;14;16;19;21;24;26;28;30;32;34]%nat 0%N
  else None.

(** [uuid.Parse]: the canonical form, the urn form, the braced form and
    the form of 32 bare hex digits; [None] stands for its error. *)
Definition Parse (s : string) : option UUID :=
  match String.length s with
  | 36%nat => parse36 s
  | 45%nat =>
      if String.eqb (map_string lower (substring 0 9 s)) "urn:uuid:"
      then parse36 (substring 9 36 s) else None
  | 38%nat => parse36 (substring 1 37 s)
  | 32%nat =>
      parse_bytes s [0;2;4;6;8;10;12;14;16;18;20;22;24;26;28;30]%nat 0%N
  | _ => None
  end.

End uuid.

Definition UUID := uuid.UUID.

(* ================================================================= *)
(** ** internal/models *)

Module models.

(** [type DataType string]. *)
Definition DataType := string.

Definition DataTypeCredentials : DataType := "credentials".
Definition DataTypeText : DataType := "text".
Definition DataTypeBinary : DataType := "binary".
Definition DataTypeCard : DataType := "card".

Record User := mkUser {
  u_ID : UUID;
  Username : string;
  PasswordHash : string;
  u_CreatedAt : Time;
  u_UpdatedAt : Time
}.

Record DataEntry := mkDataEntry {
  ID : UUID;
  UserID : UUID;
  Type_ : DataType;
  Name : string;
  Description : string;
  EncryptedData : list byte;
  Metadata : string;
  CreatedAt : Time;
  UpdatedAt : Time;
  Version : Z
}.

(** A decoded JSON value bound to a field of type [interface{}]. *)
Inductive JSONValue :=
| JNull
| JString (s : string)
| JOther.                    (* a number, a boolean, an array or an object *)

(** [models.AuthRequest], the body of POST /auth/login. *)
Record AuthRequest := mkAuthRequest {
  a_Username : string;
  a_Password : string
}.

(** [models.CreateDataRequest], the body of POST /data. *)
Record CreateDataRequest := mkCreateDataRequest {
  cr_Type : DataType;
  cr_Name : string;
  cr_Description : string;
  cr_Data : JSONValue;
  cr_Metadata : string
}.

(** [models.UpdateDataRequest], the body of PUT /data/{id}. *)
Record UpdateDataRequest := mkUpdateDataRequest {
  ur_ID : UUID;
  ur_Name : string;
  ur_Description : string;
  ur_Data : JSONValue;
  ur_Metadata : string;
  ur_Version : Z
}.

End models.
Export models.

(* ================================================================= *)
(** ** The relational schema (the goose migration of the repository) *)

Module pg.

(** A row of [deleted_entries (id PRIMARY KEY, user_id, deleted_at)]. *)
Record DeletedEntry := mkDeletedEntry {
  d_ID : UUID;
  d_UserID : UUID;
  DeletedAt : Time
}.

(** The three tables; a table is the list of its rows. *)
Record DB := mkDB {
  users : list User;
  data_entries : list DataEntry;
  deleted_entries : list DeletedEntry
}.

Definition with_data_entries (db : DB) (t : list DataEntry) : DB :=
  mkDB (users db) t (deleted_entries db).

Definition with_deleted_entries (db : DB) (t : list DeletedEntry) : DB :=
  mkDB (users db) (data_entries db) t.

Definition with_users (db : DB) (t : list User) : DB :=
  mkDB t (data_entries db) (deleted_entries db).

(** pgerrcode: the SQLSTATE classes the constraints raise. *)
Definition UniqueViolation : string := "23505".
Definition ForeignKeyViolation : string := "23503".
Definition CheckViolation : string := "23514".
Definition NumericValueOutOfRange : string := "22003".

Definition raise (code what : string) : error :=
  ErrPg (mkPgError code ("ERROR: " ++ what ++ " (SQLSTATE " ++ code ++ ")")).

(** The result of [Exec]: an error, or the rows affected and the tables
    after the statement. *)
Inductive ExecResult :=
| ExecErr (e : error)
| ExecOk (rowsAffected : Z) (db' : DB).

Definition count {A} (f : A -> bool) (l : list A) : Z :=
  Z.of_nat (List.length (filter f l)).

(** CHECK (type IN ('credentials', 'text', 'binary', 'card')). *)
Definition type_check (t : DataType) : bool :=
  String.eqb t "credentials" || String.eqb t "text" ||
  String.eqb t "binary" || String.eqb t "card".

Definition user_exists (db : DB) (u : UUID) : bool :=
  existsb (fun r => uuid.eqb (u_ID r) u) (users db).

(** A TIMESTAMP WITH TIME ZONE column counts microseconds: a [time.Time]
    bound to a parameter of that type is sent as whole microseconds since
    the epoch, the nanoseconds below the microsecond dropped. *)
Definition timestamptz (t : Time) : Time := Time_Truncate t Microsecond.

(** The row an INSERT stores for the values bound to its parameters. *)
Definition user_row (u : User) : User :=
  mkUser (u_ID u) (Username u) (PasswordHash u)
         (timestamptz (u_CreatedAt u)) (timestamptz (u_UpdatedAt u)).

Definition data_entry_row (e : DataEntry) : DataEntry :=
  mkDataEntry (ID e) (UserID e) (Type_ e) (Name e) (Description e)
              (EncryptedData e) (Metadata e)
              (timestamptz (CreatedAt e)) (timestamptz (UpdatedAt e))
              (Version e).

(** INSERT INTO users (id, username, password_hash, created_at, updated_at):
    the primary key and UNIQUE (username). *)
Definition insert_user (fault : option error) (db : DB) (u : User)
  : ExecResult :=
  match fault with
  | Some e => ExecErr e
  | None =>
      if existsb (fun r => uuid.eqb (u_ID r) (u_ID u)) (users db)
      then ExecErr (raise UniqueViolation "duplicate key value violates unique constraint users_pkey")
      else if existsb (fun r => String.eqb (Username r) (Username u)) (users db)
      then ExecErr (raise UniqueViolation "duplicate key value violates unique constraint users_username_key")
      else ExecOk 1 (with_users db (users db ++ [user_row u])%list)
  end.

(** INSERT INTO data_entries (...) VALUES ($1 .. $10): the CHECK on type,
    the primary key, UNIQUE (user_id, name) and the reference to users. *)
Definition insert_data_entry (fault : option error) (db : DB) (e : DataEntry)
  : ExecResult :=
  match fault with
  | Some err => ExecErr err
  | None =>
      if negb (type_check (Type_ e))
      then ExecErr (raise CheckViolation "new row violates check constraint data_entries_type_check")
      else if existsb (fun r => uuid.eqb (ID r) (ID e)) (data_entries db)
      then ExecErr (raise UniqueViolation "duplicate key value violates unique constraint data_entries_pkey")
      else if existsb (fun r => uuid.eqb (UserID r) (UserID e) &&
                                String.eqb (Name r) (Name e)) (data_entries db)
      then ExecErr (raise UniqueViolation "duplicate key value violates unique constraint unique_user_name")
      else if negb (user_exists db (UserID e))
      then ExecErr (raise ForeignKeyViolation "insert on data_entries violates foreign key constraint")
      else ExecOk 1 (with_data_entries db (data_entries db ++ [data_entry_row e])%list)
  end.

(** The WHERE clause [id = $5 AND user_id = $6 AND version = $7]. *)
Definition update_where (id user : UUID) (version : Z) (r : DataEntry) : bool :=
  uuid.eqb (ID r) id && uuid.eqb (UserID r) user && (Version r =? version).

(** The SET clause [name = $1, description = $2, encrypted_data = $3,
    metadata = $4, version = version + 1], followed by the BEFORE UPDATE
    trigger [update_updated_at_column]: NEW.updated_at = NOW(). *)
Definition update_set (now : Time) (name description : string)
    (data : list byte) (metadata : string) (r : DataEntry) : DataEntry :=
  mkDataEntry (ID r) (UserID r) (Type_ r) name description data metadata
              (CreatedAt r) now (Version r + 1).

(** UPDATE data_entries SET ... WHERE ...: version is a BIGINT, so
    [version + 1] beyond its range is an error; UNIQUE (user_id, name) is
    checked for the rows written. *)
Definition update_data_entry (fault : option error) (now : Time) (db : DB)
    (name description : string) (data : list byte) (metadata : string)
    (id user : UUID) (version : Z) : ExecResult :=
  match fault with
  | Some err => ExecErr err
  | None =>
      let hit := update_where id user version in
      if negb (existsb hit (data_entries db)) then ExecOk 0 db
      else if int64_max <? version + 1
      then ExecErr (raise NumericValueOutOfRange "bigint out of range")
      else if existsb (fun o => negb (uuid.eqb (ID o) id) &&
                                uuid.eqb (UserID o) user &&
                                String.eqb (Name o) name) (data_entries db)
      then ExecErr (raise UniqueViolation "duplicate key value violates unique constraint unique_user_name")
      else ExecOk (count hit (data_entries db))
             (with_data_entries db
                (map (fun r => if hit r
                               then update_set now name description data metadata r
                               else r) (data_entries db)))
  end.

(** The WHERE clause [id = $1 AND user_id = $2]. *)
Definition owned_by (id user : UUID) (r : DataEntry) : bool :=
  uuid.eqb (ID r) id && uuid.eqb (UserID r) user.

(** DELETE FROM data_entries WHERE id = $1 AND user_id = $2. *)
Definition delete_data_entry (fault : option error) (db : DB) (id user : UUID)
  : ExecResult :=
  match fault with
  | Some err => ExecErr err
  | None =>
      ExecOk (count (owned_by id user) (data_entries db))
             (with_data_entries db
                (filter (fun r => negb (owned_by id user r)) (data_entries db)))
  end.

(** INSERT INTO deleted_entries (id, user_id, deleted_at)
    VALUES ($1, $2, NOW()): the primary key and the reference to users. *)
Definition insert_deleted_entry (fault : option error) (now : Time) (db : DB)
    (id user : UUID) : ExecResult :=
  match fault with
  | Some err => ExecErr err
  | None =>
      if existsb (fun d => uuid.eqb (d_ID d) id) (deleted_entries db)
      then ExecErr (raise UniqueViolation "duplicate key value violates unique constraint deleted_entries_pkey")
      else if negb (user_exists db user)
      then ExecErr (raise ForeignKeyViolation "insert on deleted_entries violates foreign key constraint")
      else ExecOk 1 (with_deleted_entries db
                       (deleted_entries db ++ [mkDeletedEntry id user now]))
  end.

(** ORDER BY on a timestamp column, ascending.  PostgreSQL leaves the
    order of rows with equal keys open; this one keeps them in table
    order. *)
Fixpoint insert_by {A} (key : A -> Z) (x : A) (l : list A) : list A :=
  match l with
  | [] => [x]
  | y :: l' => if key x <=? key y then x :: l else y :: insert_by key x l'
  end.

Definition order_by_asc {A} (key : A -> Z) (l : list A) : list A :=
  fold_right (insert_by key) [] l.

Definition order_by_desc {A} (key : A -> Z) (l : list A) : list A :=
  order_by_asc (fun x => - key x) l.

(** The result of [Query]: an error, or the rows. *)
Inductive Rows (A : Type) :=
| QueryErr (e : error)
| QueryOk (rows : list A).
Arguments QueryErr {A} e.
Arguments QueryOk {A} rows.

(** [QueryRow(...).Scan(...)]: the first row, or [pgx.ErrNoRows]. *)
Definition query_row {A} (fault : option error) (rows : list A) : A + error :=
  match fault with
  | Some err => inr err
  | None => match rows with
            | r :: _ => inl r
            | [] => inr ErrNoRows
            end
  end.

Definition query {A} (fault : option error) (rows : list A) : Rows A :=
  match fault with
  | Some err => QueryErr err
  | None => QueryOk rows
  end.

End pg.

(* ================================================================= *)
(** ** internal/storage/postgres.go *)

Module storage.
Import pg.

(** [prepareNewEntity]: [uuid.New()] and [time.Now()], read once. *)
Definition prepareNewEntity (id : UUID) (now : Time) : UUID * Time * Time :=
  (id, now, now).

(** [prepareNewDataEntry]. *)
Definition prepareNewDataEntry (id : UUID) (now : Time)
  : UUID * Time * Time * Z :=
  (id, now, now, 1).

(** [handleQueryRowError]; [err == pgx.ErrNoRows] compares with the
    sentinel itself. *)
Definition handleQueryRowError (err : option error)
    (notFoundMsg operationMsg : string) : option error :=
  match err with
  | None => None
  | Some ErrNoRows => Some (ErrWrap notFoundMsg ErrNoRows)
  | Some e => Some (ErrWrap operationMsg e)
  end.

(** [handleQueryError], [handleScanError] and [handleRowsError] have the
    same body. *)
Definition handleQueryError (err : option error) (operationMsg : string)
  : option error :=
  match err with
  | None => None
  | Some e => Some (ErrWrap operationMsg e)
  end.

Definition handleRowsError := handleQueryError.

(** [handleExecError]. *)
Definition handleExecError (err : option error)
    (uniqueViolationMsg operationMsg : string) : option error :=
  match err with
  | None => None
  | Some e =>
      match As_PgError e with
      | Some p =>
          if String.eqb (pg_Code p) UniqueViolation
          then Some (ErrWrap uniqueViolationMsg e)
          else Some (ErrWrap operationMsg e)
      | None => Some (ErrWrap operationMsg e)
      end
  end.

(** [CreateUser]: the user with the fields the call assigned, the error
    and the tables. *)
Definition CreateUser (fault : option error) (id : UUID) (now : Time)
    (db : DB) (user : User) : User * option error * DB :=
  let '(i, c, u) := prepareNewEntity id now in
  let user' := mkUser i (Username user) (PasswordHash user) c u in
  match insert_user fault db user' with
  | ExecErr e =>
      (user', handleExecError (Some e) "username already exists"
                "failed to create user", db)
  | ExecOk _ db' => (user', None, db')
  end.

(** [GetUserByUsername]. *)
Definition GetUserByUsername (fault : option error) (db : DB)
    (username : string) : User + error :=
  match query_row fault
          (filter (fun r => String.eqb (Username r) username) (users db)) with
  | inl user => inl user
  | inr e =>
      match handleQueryRowError (Some e) "user not found" "failed to get user" with
      | Some e' => inr e'
      | None => inr e
      end
  end.

(** [GetUserByID]. *)
Definition GetUserByID (fault : option error) (db : DB) (userID : UUID)
  : User + error :=
  match query_row fault
          (filter (fun r => uuid.eqb (u_ID r) userID) (users db)) with
  | inl user => inl user
  | inr e =>
      match handleQueryRowError (Some e) "user not found" "failed to get user" with
      | Some e' => inr e'
      | None => inr e
      end
  end.

(** [CreateDataEntry]: the entry is written to before the INSERT runs, so
    the caller sees the assigned fields whether the INSERT succeeds or not. *)
Definition CreateDataEntry (fault : option error) (id : UUID) (now : Time)
    (db : DB) (entry : DataEntry) : DataEntry * option error * DB :=
  let '(i, c, u, v) := prepareNewDataEntry id now in
  let entry' :=
    mkDataEntry i (UserID entry) (Type_ entry) (Name entry)
                (Description entry) (EncryptedData entry) (Metadata entry)
                c u v in
  match insert_data_entry fault db entry' with
  | ExecErr e =>
      (entry', handleExecError (Some e) "entry with this name already exists"
                 "failed to create data entry", db)
  | ExecOk _ db' => (entry', None, db')
  end.

(** [GetDataEntry]: WHERE id = $1 AND user_id = $2. *)
Definition GetDataEntry (fault : option error) (db : DB)
    (userID entryID : UUID) : DataEntry + error :=
  match query_row fault (filter (owned_by entryID userID) (data_entries db)) with
  | inl entry => inl entry
  | inr e =>
      match handleQueryRowError (Some e) "data entry not found"
              "failed to get data entry" with
      | Some e' => inr e'
      | None => inr e
      end
  end.

(** [GetDataEntries]: WHERE user_id = $1 [AND type = $2]
    ORDER BY created_at DESC.  [rows_fault] is what [rows.Err()] reports
    after the iteration. *)
Definition GetDataEntries (fault rows_fault : option error) (db : DB)
    (userID : UUID) (dataType : option DataType) : list DataEntry + error :=
  let sel r :=
    match dataType with
    | Some t => uuid.eqb (UserID r) userID && String.eqb (Type_ r) t
    | None => uuid.eqb (UserID r) userID
    end in
  match query fault (order_by_desc CreatedAt (filter sel (data_entries db))) with
  | QueryErr e => inr (ErrWrap "failed to query data entries" e)
  | QueryOk rows =>
      match handleRowsError rows_fault "error during rows iteration" with
      | Some e => inr e
      | None => inl rows
      end
  end.

(** [UpdateDataEntry]: [db_now] is the NOW() of the statement, [now] the
    [time.Now()] read after it. *)
Definition UpdateDataEntry (fault : option error) (db_now now : Time)
    (db : DB) (entry : DataEntry) : DataEntry * option error * DB :=
  match update_data_entry fault db_now db (Name entry) (Description entry)
          (EncryptedData entry) (Metadata entry)
          (ID entry) (UserID entry) (Version entry) with
  | ExecErr e =>
      (entry, handleExecError (Some e) "entry with this name already exists"
                "failed to update data entry", db)
  | ExecOk rowsAffected db' =>
      if rowsAffected =? 0
      then (entry, Some (ErrNew "data entry not found or version mismatch"), db')
      else
        (mkDataEntry (ID entry) (UserID entry) (Type_ entry) (Name entry)
                     (Description entry) (EncryptedData entry) (Metadata entry)
                     (CreatedAt entry) now (wrap64 (Version entry + 1)),
         None, db')
  end.

(** The round trips of [DeleteDataEntry] that can fail. *)
Record DeleteFaults := mkDeleteFaults {
  f_begin : option error;
  f_delete : option error;
  f_insert : option error;
  f_commit : option error
}.

Definition no_faults : DeleteFaults := mkDeleteFaults None None None None.

(** [DeleteDataEntry].  The statements run on the tables of the
    transaction; [tx.Commit] makes them the tables of the database, and
    every return before it leaves the database as it was (the deferred
    [tx.Rollback]). *)
Definition DeleteDataEntry (f : DeleteFaults) (db_now : Time) (db : DB)
    (userID entryID : UUID) : option error * DB :=
  match f_begin f with
  | Some e => (Some (ErrWrap "failed to begin transaction" e), db)
  | None =>
      match delete_data_entry (f_delete f) db entryID userID with
      | ExecErr e =>
          (handleExecError (Some e) "" "failed to delete data entry", db)
      | ExecOk rowsAffected tx1 =>
          if rowsAffected =? 0
          then (Some (ErrNew "data entry not found"), db)
          else
            match insert_deleted_entry (f_insert f) db_now tx1 entryID userID with
            | ExecErr e =>
                (handleExecError (Some e) "" "failed to insert deleted entry", db)
            | ExecOk _ tx2 =>
                match f_commit f with
                | Some e => (Some (ErrWrap "failed to commit transaction" e), db)
                | None => (None, tx2)
                end
            end
      end
  end.

(** [GetDataEntriesAfter]: WHERE user_id = $1 AND updated_at > $2
    ORDER BY updated_at ASC.  [after] is compared as it is: against a
    column value, a whole number of microseconds, the time and the
    microsecond it is sent as compare alike ([tables.timestamptz_after]). *)
Definition GetDataEntriesAfter (fault rows_fault : option error) (db : DB)
    (userID : UUID) (after : Time) : list DataEntry + error :=
  match query fault
          (order_by_asc UpdatedAt
             (filter (fun r => uuid.eqb (UserID r) userID && (after <? UpdatedAt r))
                     (data_entries db))) with
  | QueryErr e => inr (ErrWrap "failed to query data entries" e)
  | QueryOk rows =>
      match handleRowsError rows_fault "error during rows iteration" with
      | Some e => inr e
      | None => inl rows
      end
  end.

(** [GetDeletedEntriesAfter]: SELECT id ... WHERE user_id = $1 AND
    deleted_at > $2 ORDER BY deleted_at ASC. *)
Definition GetDeletedEntriesAfter (fault rows_fault : option error) (db : DB)
    (userID : UUID) (after : Time) : list UUID + error :=
  match query fault
          (map d_ID
             (order_by_asc DeletedAt
                (filter (fun d => uuid.eqb (d_UserID d) userID && (after <? DeletedAt d))
                        (deleted_entries db)))) with
  | QueryErr e => inr (ErrWrap "failed to query deleted entries" e)
  | QueryOk rows =>
      match handleRowsError rows_fault "error during rows iteration" with
      | Some e => inr e
      | None => inl rows
      end
  end.

End storage.

(* ================================================================= *)
(** ** github.com/golang-jwt/jwt/v5, as far as internal/auth uses it *)

Module jwt.

(** The [alg] header of a token. *)
Inductive SigningMethod :=
| HS256 | HS384 | HS512      (* the HMAC family *)
| RS256 | ES256 | PS256      (* asymmetric methods *)
| NoneAlg                    (* "none" *)
| UnknownAlg (name : string).

(** [jwt.GetSigningMethod(alg) != nil]. *)
Definition registered (m : SigningMethod) : bool :=
  match m with UnknownAlg _ => false | _ => true end.

(** The type assertion of [token.Method] to the HMAC family. *)
Definition isHMAC (m : SigningMethod) : bool :=
  match m with HS256 | HS384 | HS512 => true | _ => false end.

Definition method_eqb (a b : SigningMethod) : bool :=
  match a, b with
  | HS256, HS256 | HS384, HS384 | HS512, HS512 | RS256, RS256
  | ES256, ES256 | PS256, PS256 | NoneAlg, NoneAlg => true
  | UnknownAlg x, UnknownAlg y => String.eqb x y
  | _, _ => false
  end.

(** [auth.Claims]: the two private claims and the registered claims the
    service sets.  A [*jwt.NumericDate] that is nil is [None]. *)
Record Claims := mkClaims {
  c_UserID : UUID;
  c_Username : string;
  ExpiresAt : option Time;
  IssuedAt : option Time;
  NotBefore : option Time;
  Issuer : string;
  Subject : string
}.

Definition otime_eqb (a b : option Time) : bool :=
  match a, b with
  | Some x, Some y => x =? y
  | None, None => true
  | _, _ => false
  end.

Definition claims_eqb (a b : Claims) : bool :=
  uuid.eqb (c_UserID a) (c_UserID b) &&
  String.eqb (c_Username a) (c_Username b) &&
  otime_eqb (ExpiresAt a) (ExpiresAt b) &&
  otime_eqb (IssuedAt a) (IssuedAt b) &&
  otime_eqb (NotBefore a) (NotBefore b) &&
  String.eqb (Issuer a) (Issuer b) &&
  String.eqb (Subject a) (Subject b).

(** A signature is the MAC of a header and a claim set under a key; it
    verifies for exactly that header, claim set and key. *)
Record Signature := mkSignature {
  sig_key : string;
  sig_alg : SigningMethod;
  sig_claims : Claims
}.

(** What a client can present as a token: a string that does not parse
    as three base64url segments of JSON, or a header, a claim set and a
    signature. *)
Inductive TokenString :=
| Malformed (raw : string)
| Compact (alg : SigningMethod) (claims : Claims) (sig : Signature).

(** [jwt.NewNumericDate]: truncation to [jwt.TimePrecision], a second. *)
Definition NewNumericDate (t : Time) : Time := Time_Truncate t Second.

(** [token.SignedString(key)] for an HMAC method. *)
Definition SignedString (alg : SigningMethod) (claims : Claims) (key : string)
  : TokenString :=
  Compact alg claims (mkSignature key alg claims).

(** [method.Verify(signingString, sig, key)] for an HMAC method. *)
Definition Verify (alg : SigningMethod) (claims : Claims) (sig : Signature)
    (key : string) : bool :=
  String.eqb (sig_key sig) key && method_eqb (sig_alg sig) alg &&
  claims_eqb (sig_claims sig) claims.

(** [Validator.Validate] with the default options: [exp] and [nbf] are
    checked when present, without leeway; [iat] is not checked. *)
Definition verifyExpiresAt (c : Claims) (now : Time) : bool :=
  match ExpiresAt c with
  | None => true
  | Some exp => Time_Before now exp
  end.

Definition verifyNotBefore (c : Claims) (now : Time) : bool :=
  match NotBefore c with
  | None => true
  | Some nbf => negb (Time_Before now nbf)
  end.

Definition ErrTokenExpired : error := ErrNew "token is expired".
Definition ErrTokenNotValidYet : error := ErrNew "token is not valid yet".

Definition Validate (c : Claims) (now : Time) : option error :=
  if negb (verifyExpiresAt c now) then Some ErrTokenExpired
  else if negb (verifyNotBefore c now) then Some ErrTokenNotValidYet
  else None.

(** [jwt.ParseWithClaims(tokenString, &Claims{}, keyFunc)] without parser
    options: parse, look the method up, ask [keyFunc] for the key, verify
    the signature, validate the claims at [now]. *)
Definition ParseWithClaims (t : TokenString)
    (keyFunc : SigningMethod -> string + error) (now : Time) : Claims + error :=
  match t with
  | Malformed _ =>
      inr (ErrWrap "token is malformed"
             (ErrNew "token contains an invalid number of segments"))
  | Compact alg claims sig =>
      if negb (registered alg)
      then inr (ErrWrap "token is unverifiable"
                  (ErrNew "signing method (alg) is unavailable"))
      else
        match keyFunc alg with
        | inr e =>
            inr (ErrWrap "token is unverifiable"
                   (ErrWrap "error while executing keyfunc" e))
        | inl key =>
            if negb (Verify alg claims sig key)
            then inr (ErrWrap "token signature is invalid"
                        (ErrNew "signature is invalid"))
            else
              match Validate claims now with
              | Some e => inr (ErrWrap "token has invalid claims" e)
              | None => inl claims
              end
        end
  end.

End jwt.

(* ================================================================= *)
(** ** internal/auth/auth.go *)

Module auth.
Import jwt.

Record Service := mkService { jwtSecret : string }.

Definition NewService (secret : string) : Service := mkService secret.

(** The three [time.Now()] of [GenerateToken], in the order they are
    read. *)
Record GenClock := mkGenClock {
  now_exp : Time;
  now_iat : Time;
  now_nbf : Time
}.

(** [GenerateToken]; signing with an HMAC method and a byte-slice key
    does not fail. *)
Definition GenerateToken (s : Service) (clk : GenClock) (userID : UUID)
    (username : string) : TokenString * Time :=
  let expirationTime := Time_Add (now_exp clk) (24 * Hour) in
  let claims :=
    mkClaims userID username
             (Some (NewNumericDate expirationTime))
             (Some (NewNumericDate (now_iat clk)))
             (Some (NewNumericDate (now_nbf clk)))
             "gophkeeper" (uuid.String_ userID) in
  (SignedString HS256 claims (jwtSecret s), expirationTime).

(** [ValidateToken]; [now] is the clock the parser reads. *)
Definition ValidateToken (s : Service) (now : Time) (tokenString : TokenString)
  : Claims + error :=
  match ParseWithClaims tokenString
          (fun alg =>
             if negb (isHMAC alg)
             then inr (ErrNew "unexpected signing method")
             else inl (jwtSecret s))
          now with
  | inr e => inr (ErrWrap "failed to parse token" e)
  | inl claims => inl claims
  end.

(** A call returns, or it panics. *)
Inductive outcome (A : Type) :=
| Return (a : A)
| Panic (reason : string).
Arguments Return {A} a.
Arguments Panic {A} reason.

(** [RefreshToken]: [now_validate] is read by [ValidateToken],
    [now_since] by [time.Since]; [claims.ExpiresAt.Time] dereferences a
    nil pointer when the token carries no [exp]. *)
Definition RefreshToken (s : Service) (now_validate now_since : Time)
    (clk : GenClock) (oldTokenString : TokenString)
  : outcome ((TokenString * Time) + error) :=
  match ValidateToken s now_validate oldTokenString with
  | inr e => Return (inr (ErrWrap "invalid token for refresh" e))
  | inl claims =>
      match ExpiresAt claims with
      | None => Panic "invalid memory address or nil pointer dereference"
      | Some exp =>
          if Hour <? Time_Sub now_since exp
          then Return (inr (ErrNew "token too old to refresh"))
          else Return (inl (GenerateToken s clk (c_UserID claims)
                              (c_Username claims)))
      end
  end.

(** [CheckPassword]: [bcrypt.CompareHashAndPassword(hash, password)]
    returned nil.  bcrypt is taken as given. *)
Definition CheckPassword (bcrypt_CompareHashAndPassword : string -> string -> bool)
    (password hash : string) : bool :=
  bcrypt_CompareHashAndPassword hash password.

(** [HashPassword]: [bcrypt.GenerateFromPassword] at the default cost,
    which draws its salt from the random source (a tape of bytes).
    bcrypt is taken as given. *)
Definition HashPassword
    (bcrypt_GenerateFromPassword :
       list byte -> string -> (string + error) * list byte)
    (tape : list byte) (password : string) : (string + error) * list byte :=
  match bcrypt_GenerateFromPassword tape password with
  | (inr e, tape') => (inr (ErrWrap "failed to hash password" e), tape')
  | (inl hash, tape') => (inl hash, tape')
  end.

End auth.

(* ================================================================= *)
(** ** crypto/rand and encoding/base32 *)

Module rand.

(** The random source is a tape of bytes; [rand.Read(buf)] fills [buf]
    from it and fails when the tape is exhausted. *)
Definition Tape := list byte.

Definition Read (n : nat) (tape : Tape) : option (list byte * Tape) :=
  if (List.length tape <? n)%nat then None
  else Some (firstn n tape, skipn n tape).

End rand.

Module base32.

Definition encodeStd : string := "ABCDEFGHIJKLMNOPQRSTUVWXYZ234567".

(** [enc.encode[i]]. *)
Definition encode (i : Z) : ascii := uuid.char_at encodeStd (Z.to_nat i).

Definition u8 (b : byte) : Z := Z.of_N (Byte.to_N b).

(** One full quantum: five bytes give eight characters. *)
Definition quantum (b0 b1 b2 b3 b4 : byte) : list ascii :=
  let hi := Z.lor (Z.shiftl (u8 b0) 24)
           (Z.lor (Z.shiftl (u8 b1) 16)
           (Z.lor (Z.shiftl (u8 b2) 8) (u8 b3))) in
  let lo := Z.lor (Z.shiftl hi 8 mod 2 ^ 32) (u8 b4) in
  [ encode (Z.land (Z.shiftr hi 27) 31);
    encode (Z.land (Z.shiftr hi 22) 31);
    encode (Z.land (Z.shiftr hi 17) 31);
    encode (Z.land (Z.shiftr hi 12) 31);
    encode (Z.land (Z.shiftr hi 7) 31);
    encode (Z.land (Z.shiftr hi 2) 31);
    encode (Z.land (Z.shiftr lo 5) 31);
    encode (Z.land lo 31) ].

(** [Encode] without padding: full quanta, then the final fragment, whose
    missing bits are zero and whose length is 2, 4, 5 or 7 characters. *)
Fixpoint encode_nopad (src : list byte) : list ascii :=
  match src with
  | [] => []
  | b0 :: b1 :: b2 :: b3 :: b4 :: rest => (quantum b0 b1 b2 b3 b4 ++ encode_nopad rest)%list
  | [b0; b1; b2; b3] => firstn 7 (quantum b0 b1 b2 b3 x00)
  | [b0; b1; b2] => firstn 5 (quantum b0 b1 b2 x00 x00)
  | [b0; b1] => firstn 4 (quantum b0 b1 x00 x00 x00)
  | [b0] => firstn 2 (quantum b0 x00 x00 x00 x00)
  end.

(** [base32.StdEncoding.WithPadding(base32.NoPadding).EncodeToString]. *)
Definition EncodeToString_NoPadding (src : list byte) : string :=
  string_of_list_ascii (encode_nopad src).

(** Membership in the alphabet of the standard encoding. *)
Definition in_alphabet (c : ascii) : bool :=
  existsb (Ascii.eqb c) (list_ascii_of_string encodeStd).

(** [base32.StdEncoding.EncodeToString]: the last quantum is filled up
    with [=] to eight characters. *)
Definition EncodedLen (n : nat) : nat := ((n + 4) / 5 * 8)%nat.

Definition EncodeToString (src : list byte) : string :=
  let body := encode_nopad src in
  string_of_list_ascii
    (body ++ repeat "="%char (EncodedLen (List.length src) - List.length body))%list.

End base32.

(* ================================================================= *)
(** ** strconv, as far as the server uses it *)

Module strconv.

Definition digit (c : ascii) : option Z :=
  let n := Z.of_N (N_of_ascii c) in
  if (48 <=? n) && (n <=? 57) then Some (n - 48) else None.

Fixpoint digits (s : string) (acc : Z) : option Z :=
  match s with
  | EmptyString => Some acc
  | String c r =>
      match digit c with
      | Some d => digits r (10 * acc + d)
      | None => None
      end
  end.

(** [strconv.Atoi] for an [int] of 64 bits: an optional sign and decimal
    digits; [None] stands for its syntax and range errors. *)
Definition Atoi (s : string) : option Z :=
  let '(neg, body) :=
    match s with
    | String "-" r => (true, r)
    | String "+" r => (false, r)
    | _ => (false, s)
    end in
  match body with
  | EmptyString => None
  | _ =>
      match digits body 0 with
      | None => None
      | Some n =>
          let v := if neg then - n else n in
          if (int64_min <=? v) && (v <=? int64_max) then Some v else None
      end
  end.

(** [strconv.ParseBool]. *)
Definition ParseBool (str : string) : option bool :=
  if existsb (String.eqb str) ["1"; "t"; "T"; "TRUE"; "true"; "True"]
  then Some true
  else if existsb (String.eqb str) ["0"; "f"; "F"; "FALSE"; "false"; "False"]
  then Some false
  else None.

End strconv.

(* ================================================================= *)
(** ** internal/otp/otp.go: backup codes *)

Module otp.

(** [strings.Repeat]. *)
Fixpoint Repeat (s : string) (n : nat) : string :=
  match n with
  | O => ""
  | S n' => s ++ Repeat s n'
  end.

Definition itoa (i : Z) : string := NilZero.string_of_int (Z.to_int i).

(** [generateBackupCode]: five random bytes, their base-32 text, the text
    filled up to ten characters with the character 0, cut in two. *)
Definition generateBackupCode (tape : rand.Tape) : (string + error) * rand.Tape :=
  match rand.Read 5 tape with
  | None =>
      (inr (ErrWrap "failed to generate random bytes"
              (ErrNew "entropy source exhausted")), tape)
  | Some (bytes, tape') =>
      let code := base32.EncodeToString_NoPadding bytes in
      let code :=
        if (String.length code <? 10)%nat
        then code ++ Repeat "0" (10 - String.length code)
        else code in
      (inl (substring 0 5 code ++ "-" ++ substring 5 5 code), tape')
  end.

(** The loop [for i := 0; i < count; i++] of [GenerateBackupCodes], with
    [n] iterations left. *)
Fixpoint backupCodes_loop (n : nat) (i : Z) (tape : rand.Tape)
    (codes : list string) : (list string + error) * rand.Tape :=
  match n with
  | O => (inl codes, tape)
  | S n' =>
      match generateBackupCode tape with
      | (inr e, tape') =>
          (inr (ErrWrap ("failed to generate backup code " ++ itoa i) e), tape')
      | (inl code, tape') => backupCodes_loop n' (i + 1) tape' (codes ++ [code])%list
      end
  end.

(** [GenerateBackupCodes]. *)
Definition GenerateBackupCodes (count : Z) (tape : rand.Tape)
  : (list string + error) * rand.Tape :=
  let count := if count <=? 0 then 10 else count in
  backupCodes_loop (Z.to_nat count) 0 tape [].

(** [GenerateSecret]: 20 random bytes in base 32. *)
Definition GenerateSecret (tape : rand.Tape) : (string + error) * rand.Tape :=
  match rand.Read 20 tape with
  | None =>
      (inr (ErrWrap "failed to generate random secret"
              (ErrNew "entropy source exhausted")), tape)
  | Some (secret, tape') => (inl (base32.EncodeToString secret), tape')
  end.

(** [t.Unix()]: whole seconds since the epoch, rounded down. *)
Definition Unix (t : Time) : Z := t / Second.

(** [GetTimeRemaining]; [%] truncates towards zero. *)
Definition GetTimeRemaining (now : Time) : Z :=
  let period := 30 in
  period - Z.rem (Unix now) period.

End otp.

(* ================================================================= *)
(** ** internal/config/config.go: the server configuration *)

Module config.

Record ServerConfig := mkServerConfig {
  ServerAddress : string;
  GRPCAddress : string;
  EnableTLS : bool;
  CertFile : string;
  KeyFile : string;
  DatabaseURI : string;
  MigrationsPath : string;
  JWTSecret : string;
  EncryptionKey : string;
  LogLevel : string;
  ReadTimeout : Duration;
  WriteTimeout : Duration;
  IdleTimeout : Duration;
  ShutdownTimeout : Duration
}.

(** [os.Getenv]: the value of a variable, empty when it is not set. *)
Definition Env := string -> string.

(** The command line as [flag.Parse] reads it: for every flag of
    [LoadServerConfig] the value given, if the flag is given. *)
Record Flags := mkFlags {
  flag_a : option string;
  flag_g : option string;
  flag_s : option bool;
  flag_cert : option string;
  flag_key : option string;
  flag_d : option string;
  flag_m : option string;
  flag_jwt : option string;
  flag_enc : option string;
  flag_l : option string
}.

Definition loadEnvString (getenv : Env)
    (currentValue defaultValue envVar : string) : string :=
  if String.eqb currentValue defaultValue then
    let value := getenv envVar in
    if negb (String.eqb value "") then value else currentValue
  else currentValue.

Definition loadEnvBool (getenv : Env) (currentValue : bool) (envVar : string)
  : bool :=
  if negb currentValue then
    let value := getenv envVar in
    if negb (String.eqb value "") then
      match strconv.ParseBool value with
      | Some val => val
      | None => currentValue
      end
    else currentValue
  else currentValue.

Definition loadEnvStringIfEmpty (getenv : Env) (currentValue envVar : string)
  : string :=
  if String.eqb currentValue "" then
    let value := getenv envVar in
    if negb (String.eqb value "") then value else currentValue
  else currentValue.

(** [NewServerConfig]. *)
Definition NewServerConfig : ServerConfig :=
  mkServerConfig ":8080" ":8081" false "" "" "" "./migrations" "" "" "info"
                 (10 * Second) (10 * Second) (60 * Second) (30 * Second).

(** [Validate]. *)
Definition Validate (c : ServerConfig) : option error :=
  if String.eqb (DatabaseURI c) "" then
    Some (ErrNew "database URI is required")
  else if String.eqb (JWTSecret c) "" then
    Some (ErrNew "JWT secret is required")
  else if String.eqb (EncryptionKey c) "" then
    Some (ErrNew "encryption key is required")
  else if EnableTLS c then
    if String.eqb (CertFile c) "" then
      Some (ErrNew "TLS certificate file is required when TLS is enabled")
    else if String.eqb (KeyFile c) "" then
      Some (ErrNew "TLS private key file is required when TLS is enabled")
    else None
  else None.

(** A flag variable after [flag.Parse]: the value given, or the default
    the flag was registered with. *)
Definition parsed {A} (given : option A) (default : A) : A :=
  match given with
  | Some v => v
  | None => default
  end.

(** [LoadServerConfig], for a command line that [flag.Parse] accepts. *)
Definition LoadServerConfig (flags : Flags) (getenv : Env)
  : ServerConfig + error :=
  let d := NewServerConfig in
  let cfg :=
    mkServerConfig
      (loadEnvString getenv (parsed (flag_a flags) (ServerAddress d))
         ":8080" "SERVER_ADDRESS")
      (loadEnvString getenv (parsed (flag_g flags) (GRPCAddress d))
         ":8081" "GRPC_ADDRESS")
      (loadEnvBool getenv (parsed (flag_s flags) (EnableTLS d)) "ENABLE_TLS")
      (loadEnvStringIfEmpty getenv (parsed (flag_cert flags) (CertFile d))
         "CERT_FILE")
      (loadEnvStringIfEmpty getenv (parsed (flag_key flags) (KeyFile d))
         "KEY_FILE")
      (loadEnvStringIfEmpty getenv (parsed (flag_d flags) (DatabaseURI d))
         "DATABASE_URI")
      (parsed (flag_m flags) (MigrationsPath d))
      (loadEnvStringIfEmpty getenv (parsed (flag_jwt flags) (JWTSecret d))
         "JWT_SECRET")
      (loadEnvStringIfEmpty getenv (parsed (flag_enc flags) (EncryptionKey d))
         "ENCRYPTION_KEY")
      (loadEnvString getenv (parsed (flag_l flags) (LogLevel d))
         "info" "LOG_LEVEL")
      (ReadTimeout d) (WriteTimeout d) (IdleTimeout d) (ShutdownTimeout d) in
  match Validate cfg with
  | Some err => inr (ErrWrap "invalid configuration" err)
  | None => inl cfg
  end.

End config.

(* ================================================================= *)
(** ** internal/crypto/crypto.go: EncryptLargeData *)

Module crypto.

Definition AESKeySize : nat := 32.
Definition MaxRSABlockSize : nat := 190.

(** [rsa.PublicKey]; [Size] is the length of the modulus in bytes. *)
Record PublicKey := mkPublicKey { modulus : N; exponent : Z }.

Definition Size (pub : PublicKey) : nat :=
  N.to_nat ((N.size (modulus pub) + 7) / 8).

(** crypto/rsa and crypto/cipher are taken as given: [rsa.EncryptOAEP]
    with SHA-256 over a random source, and [gcm.Seal] without its
    destination prefix. *)
Record Primitives := mkPrimitives {
  rsa_EncryptOAEP :
    PublicKey -> rand.Tape -> list byte -> (list byte + error) * rand.Tape;
  gcm_Seal : list byte -> list byte -> list byte -> list byte
}.

(** The two facts about lengths that RSA-OAEP over SHA-256 and AES-GCM
    guarantee: a ciphertext is as long as the modulus and carries a
    message of at most [Size - 66] bytes; a sealed message is 16 bytes
    longer than the plaintext. *)
Definition lawful (P : Primitives) : Prop :=
  (forall pub tape msg c tape',
      rsa_EncryptOAEP P pub tape msg = (inl c, tape') ->
      List.length c = Size pub /\ (List.length msg + 66 <= Size pub)%nat) /\
  (forall key nonce plaintext,
      List.length (gcm_Seal P key nonce plaintext)
      = (List.length plaintext + 16)%nat).

Record Service := mkService { publicKey : PublicKey }.

Section WithPrimitives.
Variable P : Primitives.

(** [GenerateAESKey]. *)
Definition GenerateAESKey (tape : rand.Tape) : (list byte + error) * rand.Tape :=
  match rand.Read AESKeySize tape with
  | None => (inr (ErrWrap "failed to generate AES key"
                    (ErrNew "entropy source exhausted")), tape)
  | Some (key, tape') => (inl key, tape')
  end.

(** [EncryptAES]: a 12-byte nonce, then [gcm.Seal(nonce, nonce, data, nil)],
    which appends to the nonce.  The key has a valid AES size here. *)
Definition EncryptAES (tape : rand.Tape) (data key : list byte)
  : (list byte + error) * rand.Tape :=
  match rand.Read 12 tape with
  | None => (inr (ErrWrap "failed to generate nonce"
                    (ErrNew "entropy source exhausted")), tape)
  | Some (nonce, tape') => (inl (nonce ++ gcm_Seal P key nonce data)%list, tape')
  end.

(** [EncryptRSA]. *)
Definition EncryptRSA (s : Service) (tape : rand.Tape) (data : list byte)
  : (list byte + error) * rand.Tape :=
  match rsa_EncryptOAEP P (publicKey s) tape data with
  | (inr e, tape') => (inr (ErrWrap "failed to encrypt with RSA" e), tape')
  | (inl c, tape') => (inl c, tape')
  end.

(** [byte(n >> k)]. *)
Definition byte_shr (n : nat) (k : N) : byte :=
  match Byte.of_N (N.shiftr (N.of_nat n) k mod 256) with
  | Some b => b
  | None => x00
  end.

(** [EncryptLargeData]. *)
Definition EncryptLargeData (s : Service) (tape : rand.Tape) (data : list byte)
  : (list byte + error) * rand.Tape :=
  if (List.length data <=? MaxRSABlockSize)%nat then EncryptRSA s tape data
  else
    match GenerateAESKey tape with
    | (inr e, t1) => (inr (ErrWrap "failed to generate AES key" e), t1)
    | (inl aesKey, t1) =>
        match EncryptAES t1 data aesKey with
        | (inr e, t2) => (inr (ErrWrap "failed to encrypt data with AES" e), t2)
        | (inl encryptedData, t2) =>
            match EncryptRSA s t2 aesKey with
            | (inr e, t3) => (inr (ErrWrap "failed to encrypt AES key" e), t3)
            | (inl encryptedKey, t3) =>
                let n := List.length encryptedKey in
                (inl ([byte_shr n 24; byte_shr n 16; byte_shr n 8; byte_shr n 0]
                      ++ encryptedKey ++ encryptedData)%list, t3)
            end
        end
    end.

End WithPrimitives.

(* ----------------------------------------------------------------- *)
(** *** The decrypting half of crypto.go *)

(** [rsa.PrivateKey]: a key pair as [x509.ParsePKCS1PrivateKey] returns
    it, validated; it embeds its public key. *)
Record PrivateKey := mkPrivateKey { priv_PublicKey : PublicKey; D : N }.

(** [rsa.DecryptOAEP] with SHA-256 and [gcm.Open] without destination and
    additional data, taken as given like their counterparts. *)
Record Openers := mkOpeners {
  rsa_DecryptOAEP : PrivateKey -> list byte -> list byte + error;
  gcm_Open : list byte -> list byte -> list byte -> list byte + error
}.

(** What decryption guarantees about encryption: a ciphertext made for
    the public key of a pair opens under the pair, and a message sealed
    under a key and a 12-byte nonce opens under the same key and nonce. *)
Definition opens (P : Primitives) (O : Openers) : Prop :=
  (forall priv tape msg c tape',
      rsa_EncryptOAEP P (priv_PublicKey priv) tape msg = (inl c, tape') ->
      rsa_DecryptOAEP O priv c = inl msg) /\
  (forall key nonce plaintext,
      List.length nonce = 12%nat ->
      gcm_Open O key nonce (gcm_Seal P key nonce plaintext) = inl plaintext).

(** [aes.NewCipher(key)] accepts keys of 16, 24 and 32 bytes. *)
Definition aes_key_ok (key : list byte) : bool :=
  let k := List.length key in
  ((k =? 16) || (k =? 24) || (k =? 32))%nat.

Definition KeySizeError (key : list byte) : error :=
  ErrNew ("crypto/aes: invalid key size " ++
          otp.itoa (Z.of_nat (List.length key))).

(** The value of a byte, and [int(b0)<<24 | int(b1)<<16 | int(b2)<<8 |
    int(b3)] for an [int] of 64 bits. *)
Definition byte_int (b : byte) : Z := Z.of_N (Byte.to_N b).

Definition keySize_of (ciphertext : list byte) : Z :=
  Z.lor (Z.shiftl (byte_int (nth 0 ciphertext x00)) 24)
 (Z.lor (Z.shiftl (byte_int (nth 1 ciphertext x00)) 16)
 (Z.lor (Z.shiftl (byte_int (nth 2 ciphertext x00)) 8)
        (byte_int (nth 3 ciphertext x00)))).

Section WithOpeners.
Variable O : Openers.

(** [DecryptAES]: the nonce is the first 12 bytes of the ciphertext. *)
Definition DecryptAES (ciphertext key : list byte) : list byte + error :=
  if negb (aes_key_ok key)
  then inr (ErrWrap "failed to create cipher" (KeySizeError key))
  else
    let nonceSize := 12%nat in
    if (List.length ciphertext <? nonceSize)%nat
    then inr (ErrNew "ciphertext too short")
    else
      let nonce := firstn nonceSize ciphertext in
      let ciphertext := skipn nonceSize ciphertext in
      match gcm_Open O key nonce ciphertext with
      | inr e => inr (ErrWrap "failed to decrypt" e)
      | inl plaintext => inl plaintext
      end.

(** [DecryptRSA]; [privateKey] is the field of the receiver. *)
Definition DecryptRSA (privateKey : PrivateKey) (ciphertext : list byte)
  : list byte + error :=
  match rsa_DecryptOAEP O privateKey ciphertext with
  | inr e => inr (ErrWrap "failed to decrypt with RSA" e)
  | inl plaintext => inl plaintext
  end.

(** [DecryptLargeData]. *)
Definition DecryptLargeData (privateKey : PrivateKey) (ciphertext : list byte)
  : list byte + error :=
  if (List.length ciphertext <? 4)%nat then DecryptRSA privateKey ciphertext
  else
    let keySize := keySize_of ciphertext in
    if Z.of_nat (List.length ciphertext) <? 4 + keySize
    then DecryptRSA privateKey ciphertext
    else
      let encryptedKey :=
        firstn (Z.to_nat keySize) (skipn 4 ciphertext) in
      let encryptedData := skipn (4 + Z.to_nat keySize) ciphertext in
      match DecryptRSA privateKey encryptedKey with
      | inr e => inr (ErrWrap "failed to decrypt AES key" e)
      | inl aesKey =>
          match DecryptAES encryptedData aesKey with
          | inr e => inr (ErrWrap "failed to decrypt data" e)
          | inl data => inl data
          end
      end.

End WithOpeners.

End crypto.

(* ================================================================= *)
(** ** google.golang.org/grpc/codes, timestamppb, and proto/gophkeeper.proto *)

Module codes.

Inductive Code :=
| OK | InvalidArgument | NotFound | AlreadyExists | FailedPrecondition
| Unauthenticated | Internal.

End codes.

Module timestamppb.

Record Timestamp := mkTimestamp { Seconds : Z; Nanos : Z }.

(** [timestamppb.New(t)]. *)
Definition New (t : Time) : Timestamp := mkTimestamp (t / Second) (t mod Second).

(** [ts.AsTime()]; the getters of a nil message return zero. *)
Definition AsTime (ts : option Timestamp) : Time :=
  match ts with
  | None => 0
  | Some x => Seconds x * Second + Nanos x
  end.

End timestamppb.

Module pb.
Import timestamppb.

Inductive DataType :=
| DATA_TYPE_UNSPECIFIED
| DATA_TYPE_CREDENTIALS
| DATA_TYPE_TEXT
| DATA_TYPE_BINARY
| DATA_TYPE_CARD
| DATA_TYPE_other (n : Z).   (* an enum value the schema does not name *)

Record LoginRequest := mkLoginRequest {
  l_Username : string;
  l_Password : string
}.

Record User := mkUser {
  u_Id : string;
  u_Username : string;
  u_CreatedAt : Timestamp;
  u_UpdatedAt : Timestamp
}.

Record AuthResponse := mkAuthResponse {
  Token : jwt.TokenString;
  ExpiresAt : Timestamp;
  User_ : User
}.

Record CreateDataRequest := mkCreateDataRequest {
  c_Type : DataType;
  c_Name : string;
  c_Description : string;
  c_EncryptedData : list byte;
  c_Metadata : string
}.

Record GetDataRequest := mkGetDataRequest { g_Id : string }.

Record ListDataRequest := mkListDataRequest {
  ls_Type : option DataType;
  ls_Limit : Z;
  ls_Offset : Z
}.

Record UpdateDataRequest := mkUpdateDataRequest {
  up_Id : string;
  up_Name : string;
  up_Description : string;
  up_EncryptedData : list byte;
  up_Metadata : string;
  up_Version : Z
}.

Record DeleteDataRequest := mkDeleteDataRequest { d_Id : string }.

Record SyncDataRequest := mkSyncDataRequest {
  LastSyncTime : option Timestamp
}.

Record DataEntry := mkDataEntry {
  Id : string;
  Type_ : DataType;
  Name : string;
  Description : string;
  EncryptedData : list byte;
  Metadata : string;
  CreatedAt : Timestamp;
  UpdatedAt : Timestamp;
  Version : Z
}.

Record DataEntryResponse := mkDataEntryResponse { DataEntry_ : DataEntry }.

Record ListDataResponse := mkListDataResponse {
  DataEntries : list DataEntry;
  Total : Z
}.

Record DeleteDataResponse := mkDeleteDataResponse { Success : bool }.

Record SyncDataResponse := mkSyncDataResponse {
  s_DataEntries : list DataEntry;
  DeletedIds : list string;
  s_LastSyncTime : Timestamp
}.

Record RegisterRequest := mkRegisterRequest {
  rg_Username : string;
  rg_Password : string
}.

Record RefreshTokenRequest := mkRefreshTokenRequest {
  rt_Token : jwt.TokenString
}.

End pb.

(* ================================================================= *)
(** ** github.com/go-playground/validator/v10 *)

Module govalidator.

(** [validate.Struct(req) == nil] for the three request types the HTTP
    handlers check; the verdicts follow the [validate] tags and are taken
    as given. *)
Record Validate := mkValidate {
  Struct_AuthRequest : models.AuthRequest -> bool;
  Struct_CreateDataRequest : models.CreateDataRequest -> bool;
  Struct_UpdateDataRequest : models.UpdateDataRequest -> bool
}.

End govalidator.

(* ================================================================= *)
(** ** context, and internal/middleware/auth.go *)

Module context.

(** The values a request context can hold under the two keys the server
    uses: [grpc.UserIDKey] (the string-typed key "user_id" of package
    grpc) and [middleware.UserIDKey{}] (the struct-typed key of the HTTP
    middleware).  A value under the first key need not be a UUID. *)
Inductive ctxValue :=
| CtxUUID (u : UUID)
| CtxOther.

Record Context := mkContext {
  UserIDKey : option ctxValue;
  middleware_UserIDKey : option UUID
}.

(** [context.Background()]. *)
Definition Background : Context := mkContext None None.

End context.
Export context.

Module middleware.

(** The Authorization header as [strings.SplitN(h, " ", 2)] sees it. *)
Inductive AuthorizationHeader :=
| NoAuthorization
| OneWord (w : string)
| TwoParts (scheme : string) (token : jwt.TokenString).

(** What a middleware does with a request: answer it, or pass it on
    with a context. *)
Inductive step :=
| Answer (status : Z) (body : string)
| Next (ctx : Context).

(** [AuthMiddleware]. *)
Definition AuthMiddleware (authService : auth.Service) (now : Time)
    (authHeader : AuthorizationHeader) (ctx : Context) : step :=
  match authHeader with
  | NoAuthorization => Answer 401 "Authorization header required"
  | OneWord _ => Answer 401 "Invalid authorization header format"
  | TwoParts scheme token =>
      if negb (String.eqb scheme "Bearer")
      then Answer 401 "Invalid authorization header format"
      else
        match auth.ValidateToken authService now token with
        | inr _ => Answer 401 "Invalid token"
        | inl claims =>
            Next (mkContext (UserIDKey ctx) (Some (jwt.c_UserID claims)))
        end
  end.

(** [GetUserIDFromContext] of the middleware package. *)
Definition GetUserIDFromContext (ctx : Context) : UUID * bool :=
  match middleware_UserIDKey ctx with
  | Some u => (u, true)
  | None => (uuid.Nil, false)
  end.

End middleware.

(* ================================================================= *)
(** ** internal/grpc/server.go *)

Module grpc.
Import pg storage.

(** What a handler returns: a response, or [status.Error(code, msg)]. *)
Inductive rpc (A : Type) :=
| Reply (a : A)
| Status (c : codes.Code) (msg : string).
Arguments Reply {A} a.
Arguments Status {A} c msg.

(** [getUserIDFromContext]. *)
Definition getUserIDFromContext (ctx : Context) : UUID * bool :=
  match UserIDKey ctx with
  | None => (uuid.Nil, false)
  | Some (CtxUUID u) => (u, true)
  | Some CtxOther => (uuid.Nil, false)
  end.

Record Server := mkServer {
  authService : auth.Service;
  cryptoService : crypto.Service;
  validator : govalidator.Validate
}.

(** [convertProtoDataType]. *)
Definition convertProtoDataType (protoType : pb.DataType) : string :=
  match protoType with
  | pb.DATA_TYPE_CREDENTIALS => DataTypeCredentials
  | pb.DATA_TYPE_TEXT => DataTypeText
  | pb.DATA_TYPE_BINARY => DataTypeBinary
  | pb.DATA_TYPE_CARD => DataTypeCard
  | _ => ""
  end.

(** [convertToProtoDataType]. *)
Definition convertToProtoDataType (dataType : DataType) : pb.DataType :=
  if String.eqb dataType DataTypeCredentials then pb.DATA_TYPE_CREDENTIALS
  else if String.eqb dataType DataTypeText then pb.DATA_TYPE_TEXT
  else if String.eqb dataType DataTypeBinary then pb.DATA_TYPE_BINARY
  else if String.eqb dataType DataTypeCard then pb.DATA_TYPE_CARD
  else pb.DATA_TYPE_UNSPECIFIED.

(** [convertToProtoDataEntry]. *)
Definition convertToProtoDataEntry (entry : models.DataEntry) : pb.DataEntry :=
  pb.mkDataEntry
    (uuid.String_ (ID entry))
    (convertToProtoDataType (Type_ entry))
    (Name entry) (Description entry) (EncryptedData entry) (Metadata entry)
    (timestamppb.New (CreatedAt entry))
    (timestamppb.New (UpdatedAt entry))
    (Version entry).

(** The zero [time.Time], 1 January of year 1. *)
Definition zeroTime : Time := - 62135596800 * Second.

(** [int32(n)]. *)
Definition int32 (n : Z) : Z := (n + 2 ^ 31) mod 2 ^ 32 - 2 ^ 31.

Definition userResponse (user : models.User) : pb.User :=
  pb.mkUser (uuid.String_ (u_ID user)) (Username user)
            (timestamppb.New (models.u_CreatedAt user))
            (timestamppb.New (models.u_UpdatedAt user)).

(** What an HTTP handler writes: [http.Error(w, body, status)], the JSON
    encoding of a response with status 200, or nothing because the
    handler panicked. *)
Inductive HttpResponse (A : Type) :=
| HttpError (status : Z) (body : string)
| HttpJSON (a : A)
| HttpPanic.
Arguments HttpError {A} status body.
Arguments HttpJSON {A} a.
Arguments HttpPanic {A}.

Section Handlers.

(** bcrypt and the primitives of crypto/rsa and crypto/cipher. *)
Variable bcrypt_CompareHashAndPassword : string -> string -> bool.
Variable P : crypto.Primitives.

(** [Login]. *)
Definition Login (s : Server) (fault : option error) (clk : auth.GenClock)
    (db : DB) (req : pb.LoginRequest) : rpc pb.AuthResponse :=
  if String.eqb (pb.l_Username req) "" then
    Status codes.InvalidArgument "username is required"
  else if String.eqb (pb.l_Password req) "" then
    Status codes.InvalidArgument "password is required"
  else
    match GetUserByUsername fault db (pb.l_Username req) with
    | inr _ => Status codes.Unauthenticated "invalid credentials"
    | inl user =>
        if negb (auth.CheckPassword bcrypt_CompareHashAndPassword
                   (pb.l_Password req) (PasswordHash user))
        then Status codes.Unauthenticated "invalid credentials"
        else
          let '(token, expiresAt) :=
            auth.GenerateToken (authService s) clk (u_ID user) (Username user) in
          Reply (pb.mkAuthResponse token (timestamppb.New expiresAt)
                   (userResponse user))
    end.

(** [CreateData]. *)
Definition CreateData (ctx : Context) (fault : option error) (id : UUID)
    (now : Time) (db : DB) (req : pb.CreateDataRequest)
  : rpc pb.DataEntryResponse * DB :=
  let '(userID, ok) := getUserIDFromContext ctx in
  if negb ok then (Status codes.Unauthenticated "user not authenticated", db)
  else if String.eqb (pb.c_Name req) "" then
    (Status codes.InvalidArgument "name is required", db)
  else if (List.length (pb.c_EncryptedData req) =? 0)%nat then
    (Status codes.InvalidArgument "data is required", db)
  else
    let dataType := convertProtoDataType (pb.c_Type req) in
    if String.eqb dataType "" then
      (Status codes.InvalidArgument "invalid data type", db)
    else
      let entry :=
        models.mkDataEntry uuid.Nil userID dataType (pb.c_Name req)
          (pb.c_Description req) (pb.c_EncryptedData req) (pb.c_Metadata req)
          zeroTime zeroTime 0 in
      match CreateDataEntry fault id now db entry with
      | (_, Some err, db') =>
          if String.eqb (Error err) "entry with this name already exists"
          then (Status codes.AlreadyExists "entry with this name already exists", db')
          else (Status codes.Internal "failed to create data entry", db')
      | (entry', None, db') =>
          (Reply (pb.mkDataEntryResponse (convertToProtoDataEntry entry')), db')
      end.

(** [GetData]. *)
Definition GetData (ctx : Context) (fault : option error) (db : DB)
    (req : pb.GetDataRequest) : rpc pb.DataEntryResponse :=
  let '(userID, ok) := getUserIDFromContext ctx in
  if negb ok then Status codes.Unauthenticated "user not authenticated"
  else
    match uuid.Parse (pb.g_Id req) with
    | None => Status codes.InvalidArgument "invalid entry ID"
    | Some entryID =>
        match GetDataEntry fault db userID entryID with
        | inr _ => Status codes.NotFound "data entry not found"
        | inl entry =>
            Reply (pb.mkDataEntryResponse (convertToProtoDataEntry entry))
        end
    end.

(** [ListData]. *)
Definition ListData (ctx : Context) (fault rows_fault : option error) (db : DB)
    (req : pb.ListDataRequest) : rpc pb.ListDataResponse :=
  let '(userID, ok) := getUserIDFromContext ctx in
  if negb ok then Status codes.Unauthenticated "user not authenticated"
  else
    let dataType :=
      match pb.ls_Type req with
      | None | Some pb.DATA_TYPE_UNSPECIFIED => None
      | Some t =>
          let dt := convertProtoDataType t in
          if String.eqb dt "" then None else Some dt
      end in
    match GetDataEntries fault rows_fault db userID dataType with
    | inr _ => Status codes.Internal "failed to get data entries"
    | inl entries =>
        Reply (pb.mkListDataResponse
                 (map convertToProtoDataEntry entries)
                 (int32 (Z.of_nat (List.length entries))))
    end.

(** [UpdateData]: [f_get] and [f_update] are the faults of its two round
    trips. *)
Definition UpdateData (ctx : Context) (f_get f_update : option error)
    (db_now now : Time) (db : DB) (req : pb.UpdateDataRequest)
  : rpc pb.DataEntryResponse * DB :=
  let '(userID, ok) := getUserIDFromContext ctx in
  if negb ok then (Status codes.Unauthenticated "user not authenticated", db)
  else
    match uuid.Parse (pb.up_Id req) with
    | None => (Status codes.InvalidArgument "invalid entry ID", db)
    | Some entryID =>
        match GetDataEntry f_get db userID entryID with
        | inr _ => (Status codes.NotFound "data entry not found", db)
        | inl entry =>
            let entry :=
              models.mkDataEntry (ID entry) (UserID entry) (Type_ entry)
                (pb.up_Name req) (pb.up_Description req)
                (pb.up_EncryptedData req) (pb.up_Metadata req)
                (CreatedAt entry) (UpdatedAt entry) (pb.up_Version req) in
            match UpdateDataEntry f_update db_now now db entry with
            | (_, Some _, db') =>
                (Status codes.Internal "failed to update data entry", db')
            | (entry', None, db') =>
                (Reply (pb.mkDataEntryResponse (convertToProtoDataEntry entry')),
                 db')
            end
        end
    end.

(** [DeleteData]. *)
Definition DeleteData (ctx : Context) (f : DeleteFaults) (db_now : Time)
    (db : DB) (req : pb.DeleteDataRequest) : rpc pb.DeleteDataResponse * DB :=
  let '(userID, ok) := getUserIDFromContext ctx in
  if negb ok then (Status codes.Unauthenticated "user not authenticated", db)
  else
    match uuid.Parse (pb.d_Id req) with
    | None => (Status codes.InvalidArgument "invalid entry ID", db)
    | Some entryID =>
        match DeleteDataEntry f db_now db userID entryID with
        | (Some _, db') =>
            (Status codes.Internal "failed to delete data entry", db')
        | (None, db') => (Reply (pb.mkDeleteDataResponse true), db')
        end
    end.

(** The round trips of [SyncData] that can fail. *)
Record SyncFaults := mkSyncFaults {
  f_entries : option error;
  f_entries_rows : option error;
  f_deleted : option error;
  f_deleted_rows : option error
}.

Definition no_sync_faults : SyncFaults := mkSyncFaults None None None None.

(** [SyncData]: [now] is the [time.Now()] read while the response is
    built, after both queries. *)
Definition SyncData (ctx : Context) (f : SyncFaults) (now : Time) (db : DB)
    (req : pb.SyncDataRequest) : rpc pb.SyncDataResponse :=
  let '(userID, ok) := getUserIDFromContext ctx in
  if negb ok then Status codes.Unauthenticated "user not authenticated"
  else
    let lastSyncTime := timestamppb.AsTime (pb.LastSyncTime req) in
    match GetDataEntriesAfter (f_entries f) (f_entries_rows f) db userID
            lastSyncTime with
    | inr _ => Status codes.Internal "failed to sync data"
    | inl entries =>
        match GetDeletedEntriesAfter (f_deleted f) (f_deleted_rows f) db userID
                lastSyncTime with
        | inr _ => Status codes.Internal "failed to sync data"
        | inl deletedIDs =>
            Reply (pb.mkSyncDataResponse
                     (map convertToProtoDataEntry entries)
                     (map uuid.String_ deletedIDs)
                     (timestamppb.New now))
        end
    end.

(** [isPublicMethod]. *)
Definition isPublicMethod (method : string) : bool :=
  existsb (String.eqb method)
    [ "/gophkeeper.GophKeeper/Register";
      "/gophkeeper.GophKeeper/Login";
      "/gophkeeper.GophKeeper/RefreshToken";
      "/gophkeeper.GophKeeper/GenerateOTP";
      "/gophkeeper.GophKeeper/CreateOTPSecret" ].

(** A value of the [authorization] metadata key: the text after the
    prefix "Bearer ", or a text without that prefix. *)
Inductive MDValue :=
| Bearer (token : jwt.TokenString)
| NotBearer (raw : string).

(** [AuthInterceptor]: the context the handler is called with, or the
    status the interceptor answers. *)
Definition AuthInterceptor (authService : auth.Service) (now : Time)
    (fullMethod : string) (md : option (list MDValue)) (ctx : Context)
  : rpc Context :=
  if isPublicMethod fullMethod then Reply ctx
  else
    match md with
    | None => Status codes.Unauthenticated "user not authenticated"
    | Some [] => Status codes.Unauthenticated "user not authenticated"
    | Some (NotBearer _ :: _) =>
        Status codes.Unauthenticated "user not authenticated"
    | Some (Bearer token :: _) =>
        match auth.ValidateToken authService now token with
        | inr _ => Status codes.Unauthenticated "user not authenticated"
        | inl claims =>
            Reply (mkContext (Some (CtxUUID (jwt.c_UserID claims)))
                     (middleware_UserIDKey ctx))
        end
    end.

(* ----------------------------------------------------------------- *)
(** *** internal/grpc/http_handlers.go *)

(** [HandleLogin]; [body] is [None] when the request body does not
    decode. *)
Definition HandleLogin (s : Server) (fault : option error)
    (clk : auth.GenClock) (db : DB) (body : option models.AuthRequest)
  : HttpResponse pb.AuthResponse :=
  match body with
  | None => HttpError 400 "Invalid request body"
  | Some req =>
      if negb (govalidator.Struct_AuthRequest (validator s) req)
      then HttpError 400 "Validation failed"
      else
        match Login s fault clk db
                (pb.mkLoginRequest (a_Username req) (a_Password req)) with
        | Status _ _ => HttpError 401 "Login failed"
        | Reply resp => HttpJSON resp
        end
  end.

(** [HandleCreateData]: the handler encrypts the [data] of the body and
    hands the result to [CreateData] as the entry's encrypted data. *)
Definition HandleCreateData (s : Server) (ctx : Context) (tape : rand.Tape)
    (fault : option error) (id : UUID) (now : Time) (db : DB)
    (body : option models.CreateDataRequest)
  : HttpResponse pb.DataEntryResponse * DB :=
  match body with
  | None => (HttpError 400 "Invalid request body", db)
  | Some req =>
      if negb (govalidator.Struct_CreateDataRequest (validator s) req)
      then (HttpError 400 "Validation failed", db)
      else if negb (snd (getUserIDFromContext ctx))
      then (HttpError 401 "Unauthorized", db)
      else
        match cr_Data req with
        | JString data =>
            match crypto.EncryptLargeData P (cryptoService s) tape
                    (list_byte_of_string data) with
            | (inr _, _) => (HttpError 500 "Failed to encrypt data", db)
            | (inl encryptedData, _) =>
                let grpcReq :=
                  pb.mkCreateDataRequest (convertToProtoDataType (cr_Type req))
                    (cr_Name req) (cr_Description req) encryptedData
                    (cr_Metadata req) in
                match CreateData ctx fault id now db grpcReq with
                | (Status _ _, db') => (HttpError 500 "Failed to create data", db')
                | (Reply resp, db') => (HttpJSON resp, db')
                end
            end
        | _ => (HttpPanic, db)
        end
  end.

(** [HandleGetData]; [id] is the URL parameter. *)
Definition HandleGetData (ctx : Context) (fault : option error) (db : DB)
    (id : string) : HttpResponse pb.DataEntryResponse :=
  if String.eqb id "" then HttpError 400 "ID is required"
  else
    match GetData ctx fault db (pb.mkGetDataRequest id) with
    | Status _ _ => HttpError 500 "Failed to get data"
    | Reply resp => HttpJSON resp
    end.

(** [HandleUpdateData]. *)
Definition HandleUpdateData (s : Server) (ctx : Context) (tape : rand.Tape)
    (f_get f_update : option error) (db_now now : Time) (db : DB)
    (id : string) (body : option models.UpdateDataRequest)
  : HttpResponse pb.DataEntryResponse * DB :=
  if String.eqb id "" then (HttpError 400 "ID is required", db)
  else
    match body with
    | None => (HttpError 400 "Invalid request body", db)
    | Some req =>
        if negb (govalidator.Struct_UpdateDataRequest (validator s) req)
        then (HttpError 400 "Validation failed", db)
        else
          match ur_Data req with
          | JString data =>
              match crypto.EncryptLargeData P (cryptoService s) tape
                      (list_byte_of_string data) with
              | (inr _, _) => (HttpError 500 "Failed to encrypt data", db)
              | (inl encryptedData, _) =>
                  let grpcReq :=
                    pb.mkUpdateDataRequest id (ur_Name req) (ur_Description req)
                      encryptedData (ur_Metadata req) (ur_Version req) in
                  match UpdateData ctx f_get f_update db_now now db grpcReq with
                  | (Status _ _, db') =>
                      (HttpError 500 "Failed to update data", db')
                  | (Reply resp, db') => (HttpJSON resp, db')
                  end
              end
          | _ => (HttpPanic, db)
          end
    end.

(** POST /data as [setupHTTPRoutes] of cmd/server/main.go wires it:
    [middleware.AuthMiddleware], then [HandleCreateData], on the context
    of a fresh request. *)
Definition route_POST_data (s : Server) (now_mw : Time)
    (authHeader : middleware.AuthorizationHeader) (tape : rand.Tape)
    (fault : option error) (id : UUID) (now : Time) (db : DB)
    (body : option models.CreateDataRequest)
  : HttpResponse pb.DataEntryResponse * DB :=
  match middleware.AuthMiddleware (authService s) now_mw authHeader Background with
  | middleware.Answer status msg => (HttpError status msg, db)
  | middleware.Next ctx => HandleCreateData s ctx tape fault id now db body
  end.

(** PUT /data/{id}, wired the same way. *)
Definition route_PUT_data (s : Server) (now_mw : Time)
    (authHeader : middleware.AuthorizationHeader) (tape : rand.Tape)
    (f_get f_update : option error) (db_now now : Time) (db : DB)
    (id : string) (body : option models.UpdateDataRequest)
  : HttpResponse pb.DataEntryResponse * DB :=
  match middleware.AuthMiddleware (authService s) now_mw authHeader Background with
  | middleware.Answer status msg => (HttpError status msg, db)
  | middleware.Next ctx =>
      HandleUpdateData s ctx tape f_get f_update db_now now db id body
  end.

End Handlers.

(* ----------------------------------------------------------------- *)
(** *** server.go: Register and RefreshToken *)

Section Accounts.

Variable bcrypt_GenerateFromPassword :
  list byte -> string -> (string + error) * list byte.

(** [Register]; [len] counts bytes. *)
Definition Register (s : Server) (tape : rand.Tape) (fault : option error)
    (id : UUID) (now : Time) (clk : auth.GenClock) (db : DB)
    (req : pb.RegisterRequest) : rpc pb.AuthResponse * DB :=
  if String.eqb (pb.rg_Username req) "" ||
     (String.length (pb.rg_Username req) <? 3)%nat then
    (Status codes.InvalidArgument "username must be at least 3 characters", db)
  else if String.eqb (pb.rg_Password req) "" ||
          (String.length (pb.rg_Password req) <? 6)%nat then
    (Status codes.InvalidArgument "password must be at least 6 characters", db)
  else
    match auth.HashPassword bcrypt_GenerateFromPassword tape
            (pb.rg_Password req) with
    | (inr _, _) => (Status codes.Internal "failed to process password", db)
    | (inl hashedPassword, _) =>
        let user :=
          models.mkUser uuid.Nil (pb.rg_Username req) hashedPassword
                        zeroTime zeroTime in
        match CreateUser fault id now db user with
        | (_, Some err, db') =>
            if String.eqb (Error err) "username already exists"
            then (Status codes.AlreadyExists "username already exists", db')
            else (Status codes.Internal "failed to create user", db')
        | (user', None, db') =>
            let '(token, expiresAt) :=
              auth.GenerateToken (authService s) clk (u_ID user')
                                 (Username user') in
            (Reply (pb.mkAuthResponse token (timestamppb.New expiresAt)
                      (userResponse user')), db')
        end
    end.

End Accounts.

(** [RefreshToken] of the server: [now_validate], [now_since] and [clk]
    are the clocks [auth.RefreshToken] reads, [now_check] the one the
    validation of the new token reads.  The empty string is the only
    token that is refused as missing. *)
Definition RefreshToken (s : Server) (now_validate now_since : Time)
    (clk : auth.GenClock) (now_check : Time) (fault : option error) (db : DB)
    (req : pb.RefreshTokenRequest) : auth.outcome (rpc pb.AuthResponse) :=
  match pb.rt_Token req with
  | jwt.Malformed "" =>
      auth.Return (Status codes.InvalidArgument "token is required")
  | oldToken =>
      match auth.RefreshToken (authService s) now_validate now_since clk
              oldToken with
      | auth.Panic reason => auth.Panic reason
      | auth.Return (inr _) =>
          auth.Return (Status codes.Unauthenticated "invalid or expired token")
      | auth.Return (inl (token, expiresAt)) =>
          match auth.ValidateToken (authService s) now_check token with
          | inr _ =>
              auth.Return (Status codes.Internal "failed to validate token")
          | inl claims =>
              match GetUserByID fault db (jwt.c_UserID claims) with
              | inr _ => auth.Return (Status codes.Internal "failed to get user")
              | inl user =>
                  auth.Return
                    (Reply (pb.mkAuthResponse token (timestamppb.New expiresAt)
                              (userResponse user)))
              end
          end
      end
  end.

(* ----------------------------------------------------------------- *)
(** *** http_handlers.go: list, delete and sync *)

(** [HandleListData]; the three strings are the query parameters, empty
    when absent. *)
Definition HandleListData (ctx : Context) (fault rows_fault : option error)
    (db : DB) (limitStr offsetStr typeStr : string)
  : HttpResponse pb.ListDataResponse :=
  let limit :=
    if String.eqb limitStr "" then 0
    else match strconv.Atoi limitStr with
         | Some l => int32 l
         | None => 0
         end in
  let offset :=
    if String.eqb offsetStr "" then 0
    else match strconv.Atoi offsetStr with
         | Some o => int32 o
         | None => 0
         end in
  let type_ :=
    if String.eqb typeStr "" then None
    else Some (convertToProtoDataType typeStr) in
  match ListData ctx fault rows_fault db
          (pb.mkListDataRequest type_ limit offset) with
  | Status _ _ => HttpError 500 "Failed to list data"
  | Reply resp => HttpJSON resp
  end.

(** [HandleDeleteData]; [id] is the URL parameter. *)
Definition HandleDeleteData (ctx : Context) (f : DeleteFaults) (db_now : Time)
    (db : DB) (id : string) : HttpResponse pb.DeleteDataResponse * DB :=
  if String.eqb id "" then (HttpError 400 "ID is required", db)
  else
    match DeleteData ctx f db_now db (pb.mkDeleteDataRequest id) with
    | (Status _ _, db') => (HttpError 500 "Failed to delete data", db')
    | (Reply resp, db') => (HttpJSON resp, db')
    end.

(** [HandleSyncData]; [body] is the [last_sync_time] of the decoded
    request, [None] when the body does not decode. *)
Definition HandleSyncData (ctx : Context) (f : SyncFaults) (now : Time)
    (db : DB) (body : option Time) : HttpResponse pb.SyncDataResponse :=
  match body with
  | None => HttpError 400 "Invalid request body"
  | Some lastSyncTime =>
      match SyncData ctx f now db
              (pb.mkSyncDataRequest (Some (timestamppb.New lastSyncTime))) with
      | Status _ _ => HttpError 500 "Failed to sync data"
      | Reply resp => HttpJSON resp
      end
  end.

(** The other four routes of the protected group of [setupHTTPRoutes]. *)
Definition route_GET_data (s : Server) (now_mw : Time)
    (authHeader : middleware.AuthorizationHeader)
    (fault rows_fault : option error) (db : DB)
    (limitStr offsetStr typeStr : string) : HttpResponse pb.ListDataResponse :=
  match middleware.AuthMiddleware (authService s) now_mw authHeader Background with
  | middleware.Answer status msg => HttpError status msg
  | middleware.Next ctx =>
      HandleListData ctx fault rows_fault db limitStr offsetStr typeStr
  end.

Definition route_GET_data_id (s : Server) (now_mw : Time)
    (authHeader : middleware.AuthorizationHeader) (fault : option error)
    (db : DB) (id : string) : HttpResponse pb.DataEntryResponse :=
  match middleware.AuthMiddleware (authService s) now_mw authHeader Background with
  | middleware.Answer status msg => HttpError status msg
  | middleware.Next ctx => HandleGetData ctx fault db id
  end.

Definition route_DELETE_data_id (s : Server) (now_mw : Time)
    (authHeader : middleware.AuthorizationHeader) (f : DeleteFaults)
    (db_now : Time) (db : DB) (id : string)
  : HttpResponse pb.DeleteDataResponse * DB :=
  match middleware.AuthMiddleware (authService s) now_mw authHeader Background with
  | middleware.Answer status msg => (HttpError status msg, db)
  | middleware.Next ctx => HandleDeleteData ctx f db_now db id
  end.

Definition route_POST_sync (s : Server) (now_mw : Time)
    (authHeader : middleware.AuthorizationHeader) (f : SyncFaults)
    (now : Time) (db : DB) (body : option Time)
  : HttpResponse pb.SyncDataResponse :=
  match middleware.AuthMiddleware (authService s) now_mw authHeader Background with
  | middleware.Answer status msg => HttpError status msg
  | middleware.Next ctx => HandleSyncData ctx f now db body
  end.

End grpc.

(* ================================================================= *)
(** ** Vocabulary of the statements *)

Module spec.
Import pg storage.

(** The row of [data_entries] with a given identifier. *)
Definition stored (db : DB) (id : UUID) : option DataEntry :=
  find (fun r => uuid.eqb (ID r) id) (data_entries db).

(** The tombstone of a given identifier. *)
Definition tombstone (db : DB) (id : UUID) : option DeletedEntry :=
  find (fun d => uuid.eqb (d_ID d) id) (deleted_entries db).

(** The primary keys of the two entry tables. *)
Definition pk_data_entries (db : DB) : Prop := NoDup (map ID (data_entries db)).
Definition pk_deleted_entries (db : DB) : Prop :=
  NoDup (map d_ID (deleted_entries db)).

(** One call of [UpdateDataEntry] with what it reads from its
    environment. *)
Record UpdateCall := mkUpdateCall {
  uc_fault : option error;
  uc_db_now : Time;
  uc_now : Time;
  uc_entry : DataEntry
}.

Definition call_update (db : DB) (c : UpdateCall) : DataEntry * option error * DB :=
  UpdateDataEntry (uc_fault c) (uc_db_now c) (uc_now c) db (uc_entry c).

(** The call addresses entry [id] on behalf of [owner]. *)
Definition addresses (id owner : UUID) (c : UpdateCall) : Prop :=
  ID (uc_entry c) = id /\ UserID (uc_entry c) = owner.

(** A sequence of update calls, each of which succeeds: the tables after
    the last one.  [None] as soon as one call returns an error. *)
Fixpoint run_updates (db : DB) (calls : list UpdateCall) : option DB :=
  match calls with
  | [] => Some db
  | c :: calls' =>
      match call_update db c with
      | (_, None, db') => run_updates db' calls'
      | (_, Some _, _) => None
      end
  end.

(** The rows of [owner] changed after [T], and the tombstones of [owner]
    set after [T]: the WHERE clauses of the two sync queries. *)
Definition changed_rows (db : DB) (owner : UUID) (T : Time) : list DataEntry :=
  filter (fun r => uuid.eqb (UserID r) owner && (T <? UpdatedAt r))
         (data_entries db).

Definition changed_tombstones (db : DB) (owner : UUID) (T : Time)
  : list DeletedEntry :=
  filter (fun d => uuid.eqb (d_UserID d) owner && (T <? DeletedAt d))
         (deleted_entries db).

(** What the two sync queries return. *)
Definition sync_entries (db : DB) (owner : UUID) (T : Time) : list DataEntry :=
  order_by_asc UpdatedAt (changed_rows db owner T).

Definition sync_tombstones (db : DB) (owner : UUID) (T : Time)
  : list DeletedEntry :=
  order_by_asc DeletedAt (changed_tombstones db owner T).


(** The rows of a principal, and the rows of everybody else. *)
Definition own_rows (P : UUID) (db : DB) : list DataEntry :=
  filter (fun r => uuid.eqb (UserID r) P) (data_entries db).

Definition others_rows (P : UUID) (db : DB) : list DataEntry :=
  filter (fun r => negb (uuid.eqb (UserID r) P)) (data_entries db).

(** Two databases that differ only in the entries of principals other
    than [P]. *)
Definition same_view (P : UUID) (db1 db2 : DB) : Prop :=
  own_rows P db1 = own_rows P db2 /\
  deleted_entries db1 = deleted_entries db2 /\
  users db1 = users db2.

(** What principal [P] can reach of a database: the users, the rows of
    [P] and the tombstones. *)
Definition view (P : UUID) (db : DB) : DB :=
  mkDB (users db) (own_rows P db) (deleted_entries db).

(** The private entry operations a principal can request, each with what
    the handler reads from its environment. *)
Inductive Request :=
| Get (fault : option error) (req : pb.GetDataRequest)
| List_ (fault rows_fault : option error) (req : pb.ListDataRequest)
| Update (f_get f_update : option error) (db_now now : Time)
         (req : pb.UpdateDataRequest)
| Delete (f : DeleteFaults) (db_now : Time) (req : pb.DeleteDataRequest)
| Sync (f : grpc.SyncFaults) (now : Time) (req : pb.SyncDataRequest).

Inductive Response :=
| EntryResponse (r : grpc.rpc pb.DataEntryResponse)
| ListResponse (r : grpc.rpc pb.ListDataResponse)
| DeleteResponse (r : grpc.rpc pb.DeleteDataResponse)
| SyncResponse (r : grpc.rpc pb.SyncDataResponse).

(** The server answers one request, and a sequence of requests. *)
Definition serve (ctx : Context) (db : DB) (q : Request) : Response * DB :=
  match q with
  | Get fault req => (EntryResponse (grpc.GetData ctx fault db req), db)
  | List_ fault rows_fault req =>
      (ListResponse (grpc.ListData ctx fault rows_fault db req), db)
  | Update f_get f_update db_now now req =>
      let '(r, db') := grpc.UpdateData ctx f_get f_update db_now now db req in
      (EntryResponse r, db')
  | Delete f db_now req =>
      let '(r, db') := grpc.DeleteData ctx f db_now db req in
      (DeleteResponse r, db')
  | Sync f now req => (SyncResponse (grpc.SyncData ctx f now db req), db)
  end.

Fixpoint serve_all (ctx : Context) (db : DB) (qs : list Request)
  : list Response * DB :=
  match qs with
  | [] => ([], db)
  | q :: qs' =>
      let '(r, db1) := serve ctx db q in
      let '(rs, db2) := serve_all ctx db1 qs' in
      (r :: rs, db2)
  end.

(** The username is not registered. *)
Definition unregistered (db : DB) (username : string) : Prop :=
  forall u, In u (users db) -> Username u <> username.

(** The username is registered, and the password does not match the
    verifier of the user the lookup returns. *)
Definition wrong_password (bcrypt : string -> string -> bool)
    (fault : option error) (db : DB) (req : pb.LoginRequest) : Prop :=
  exists u, GetUserByUsername fault db (pb.l_Username req) = inl u /\
            auth.CheckPassword bcrypt (pb.l_Password req) (PasswordHash u) = false.

(** I6: an identifier with a tombstone has no row. *)
Definition tombstoned_not_live (db : DB) : Prop :=
  forall i, tombstone db i <> None -> stored db i = None.

(** UNIQUE (user_id, name): two rows of one owner under one name are
    rows with one identifier. *)
Definition unique_user_name (db : DB) : Prop :=
  forall r1 r2,
    In r1 (data_entries db) -> In r2 (data_entries db) ->
    UserID r1 = UserID r2 -> Name r1 = Name r2 -> ID r1 = ID r2.



(** A setting of the server is given: by its flag with a value that is
    not empty, or by an environment variable that is not empty. *)
Definition given (flag : option string) (env_value : string) : bool :=
  match flag with
  | Some v => negb (String.eqb v "")
  | None => false
  end || negb (String.eqb env_value "").

(** TLS is asked for: by the flag, or by a variable that reads as true. *)
Definition tls_asked (flags : config.Flags) (getenv : config.Env) : bool :=
  match config.flag_s flags with
  | Some true => true
  | _ =>
      match strconv.ParseBool (getenv "ENABLE_TLS") with
      | Some true => true
      | _ => false
      end
  end.

End spec.

(* ================================================================= *)
(** ** Sample data for the examples *)

Module examples.
Import pg storage spec grpc.

Definition alice : UUID := 1%N.
Definition bob : UUID := 2%N.

Definition alice_user : models.User := models.mkUser alice "alice" "hash-of-hunter22" 1000 1000.
Definition bob_user : models.User := models.mkUser bob "bob" "hash-of-swordfish" 1500 1500.

Definition note_id : UUID := 7%N.

(** Scenario 2 of the specification: a text entry "note-1" of alice. *)
Definition note : DataEntry :=
  models.mkDataEntry note_id alice "text" "note-1" "" [x01; x02] "m" 2000 2000 1.

Definition db0 : DB := mkDB [alice_user; bob_user] [note] [].

Definition ctx_alice : Context := mkContext (Some (CtxUUID alice)) None.
Definition ctx_bob : Context := mkContext (Some (CtxUUID bob)) None.

(** A password check that accepts the one password behind each sample
    hash. *)
Definition sample_bcrypt (hash password : string) : bool :=
  (String.eqb hash "hash-of-hunter22" && String.eqb password "hunter22") ||
  (String.eqb hash "hash-of-swordfish" && String.eqb password "swordfish").

(** Stand-ins for the primitives with the lengths of the real ones: the
    "ciphertext" is the message filled up to the size of the modulus, the
    "sealed" message is the plaintext followed by 16 bytes. *)
Definition sample_primitives : crypto.Primitives :=
  crypto.mkPrimitives
    (fun pub tape msg =>
       if (List.length msg + 66 <=? crypto.Size pub)%nat
       then (inl (msg ++ repeat x00 (crypto.Size pub - List.length msg))%list, tape)
       else (inr (ErrNew "crypto/rsa: message too long for RSA key size"), tape))
    (fun key nonce plaintext => (plaintext ++ repeat x00 16)%list).

(** A 2048-bit modulus. *)
Definition sample_key : crypto.PublicKey := crypto.mkPublicKey (2 ^ 2047)%N 65537.

(** A validator that reads the tags of the three request types, counting
    bytes where the tags count characters. *)
Definition sample_validator : govalidator.Validate :=
  govalidator.mkValidate
    (fun req =>
       (3 <=? String.length (a_Username req))%nat &&
       (String.length (a_Username req) <=? 50)%nat &&
       (6 <=? String.length (a_Password req))%nat)
    (fun req =>
       type_check (cr_Type req) &&
       (1 <=? String.length (cr_Name req))%nat &&
       (String.length (cr_Name req) <=? 100)%nat &&
       match cr_Data req with JNull | JString "" => false | _ => true end)
    (fun req =>
       negb (uuid.eqb (ur_ID req) uuid.Nil) &&
       (1 <=? String.length (ur_Name req))%nat &&
       (String.length (ur_Name req) <=? 100)%nat &&
       match ur_Data req with JNull | JString "" => false | _ => true end &&
       negb (ur_Version req =? 0)).

(** Three update calls for alice's note, expecting versions 1, 2 and 3. *)
Definition update_1 : UpdateCall :=
  mkUpdateCall None 3000 3001
    (models.mkDataEntry note_id alice "text" "note-1" "first edit" [x03] "m" 0 0 1).
Definition update_2 : UpdateCall :=
  mkUpdateCall None 4000 4001
    (models.mkDataEntry note_id alice "text" "note-1" "second edit" [x04] "m" 0 0 2).
Definition update_stale : UpdateCall :=
  mkUpdateCall None 5000 5001
    (models.mkDataEntry note_id alice "text" "note-1" "late edit" [x05] "m" 0 0 3).

Definition sample_server : Server :=
  mkServer (auth.NewService "jwt-secret") (crypto.mkService sample_key)
           sample_validator.

(** Stand-ins that can be undone: the "ciphertext" of a message is its
    length in one byte, the message, and zeros up to the size of the
    modulus; opening reads the length back. *)
Definition framed_primitives : crypto.Primitives :=
  crypto.mkPrimitives
    (fun pub tape msg =>
       match Byte.of_N (N.of_nat (List.length msg)) with
       | Some b =>
           if (List.length msg + 66 <=? crypto.Size pub)%nat
           then (inl (b :: msg ++
                       repeat x00 (crypto.Size pub - 1 - List.length msg))%list,
                 tape)
           else (inr (ErrNew "crypto/rsa: message too long for RSA key size"),
                 tape)
       | None =>
           (inr (ErrNew "crypto/rsa: message too long for RSA key size"), tape)
       end)
    (fun key nonce plaintext => (plaintext ++ repeat x00 16)%list).

Definition framed_openers : crypto.Openers :=
  crypto.mkOpeners
    (fun priv c =>
       if (List.length c =? crypto.Size (crypto.priv_PublicKey priv))%nat then
         match c with
         | b :: rest =>
             let n := N.to_nat (Byte.to_N b) in
             if (n + 66 <=? List.length c)%nat then inl (firstn n rest)
             else inr (ErrNew "crypto/rsa: decryption error")
         | [] => inr (ErrNew "crypto/rsa: decryption error")
         end
       else inr (ErrNew "crypto/rsa: decryption error"))
    (fun key nonce c =>
       if (16 <=? List.length c)%nat
       then inl (firstn (List.length c - 16) c)
       else inr (ErrNew "cipher: message authentication failed")).

Definition sample_private_key : crypto.PrivateKey :=
  crypto.mkPrivateKey sample_key 3.

(** A stand-in for bcrypt that can be checked: the verifier of a
    password is the password behind a fixed prefix. *)
Definition plain_generate (tape : list byte) (password : string)
  : (string + error) * list byte :=
  (inl ("hash-of-" ++ password), tape).

Definition plain_compare (hash password : string) : bool :=
  String.eqb hash ("hash-of-" ++ password).

End examples.

(* ================================================================= *)
(** ** The definitions on small inputs *)

Module unit_checks.
Import pg storage spec grpc examples.

(** The test vectors of RFC 4648 for base 32, without padding. *)
Example base32_f : base32.EncodeToString_NoPadding (list_byte_of_string "f") = "MY".
Proof. reflexivity. Qed.

Example base32_fo : base32.EncodeToString_NoPadding (list_byte_of_string "fo") = "MZXQ".
Proof. reflexivity. Qed.

Example base32_foo : base32.EncodeToString_NoPadding (list_byte_of_string "foo") = "MZXW6".
Proof. reflexivity. Qed.

Example base32_foob : base32.EncodeToString_NoPadding (list_byte_of_string "foob") = "MZXW6YQ".
Proof. reflexivity. Qed.

Example base32_fooba : base32.EncodeToString_NoPadding (list_byte_of_string "fooba") = "MZXW6YTB".
Proof. reflexivity. Qed.

Example base32_foobar : base32.EncodeToString_NoPadding (list_byte_of_string "foobar") = "MZXW6YTBOI".
Proof. reflexivity. Qed.

Example backup_codes_two :
  otp.GenerateBackupCodes 2 [x00; x00; x00; x00; x00; xff; xff; xff; xff; xff; x01]
  = (inl ["AAAAA-AAA00"; "77777-77700"], [x01]).
Proof. reflexivity. Qed.

Example backup_codes_default_count :
  match otp.GenerateBackupCodes 0 (repeat x2a 50) with
  | (inl codes, rest) => (List.length codes, rest)
  | (inr _, rest) => (0%nat, rest)
  end = (10%nat, []).
Proof. vm_compute. reflexivity. Qed.

Example backup_codes_exhausted :
  fst (otp.GenerateBackupCodes 1 [x00; x00; x00; x00])
  = inr (ErrWrap "failed to generate backup code 0"
           (ErrWrap "failed to generate random bytes"
              (ErrNew "entropy source exhausted"))).
Proof. reflexivity. Qed.

Example uuid_String_note : uuid.String_ note_id = "00000000-0000-0000-0000-000000000007".
Proof. reflexivity. Qed.

Example uuid_Parse_forms :
  uuid.Parse "00000000-0000-0000-0000-0000000000FF" = Some 255%N /\
  uuid.Parse "urn:uuid:00000000-0000-0000-0000-0000000000ff" = Some 255%N /\
  uuid.Parse "{00000000-0000-0000-0000-0000000000ff}" = Some 255%N /\
  uuid.Parse "000000000000000000000000000000ff" = Some 255%N /\
  uuid.Parse "invalid-uuid" = None.
Proof. repeat split; reflexivity. Qed.

Example NewNumericDate_truncates :
  jwt.NewNumericDate 1999999999 = 1000000000 /\ jwt.NewNumericDate (-1) = - Second.
Proof. split; reflexivity. Qed.

(** Scenario 2: create, get and list. *)
Example scenario_create_get_list :
  let out :=
    CreateData ctx_bob None 9%N 3000 db0
      (pb.mkCreateDataRequest pb.DATA_TYPE_TEXT "note-1" "" [x01; x02] "m") in
  let e :=
    pb.mkDataEntry "00000000-0000-0000-0000-000000000009" pb.DATA_TYPE_TEXT
      "note-1" "" [x01; x02] "m" (timestamppb.New 3000) (timestamppb.New 3000) 1 in
  fst out = Reply (pb.mkDataEntryResponse e) /\
  GetData ctx_bob None (snd out) (pb.mkGetDataRequest (pb.Id e))
    = Reply (pb.mkDataEntryResponse e) /\
  ListData ctx_bob None None (snd out) (pb.mkListDataRequest None 0 0)
    = Reply (pb.mkListDataResponse [e] 1).
Proof. vm_compute. repeat split. Qed.

(** Scenario 4: after a delete the entry is gone and the sync from the
    epoch reports its identifier. *)
Example scenario_delete_tombstone :
  let out :=
    DeleteData ctx_alice no_faults 5000 db0
      (pb.mkDeleteDataRequest (uuid.String_ note_id)) in
  fst out = Reply (pb.mkDeleteDataResponse true) /\
  GetData ctx_alice None (snd out) (pb.mkGetDataRequest (uuid.String_ note_id))
    = Status codes.NotFound "data entry not found" /\
  SyncData ctx_alice no_sync_faults 9000 (snd out) (pb.mkSyncDataRequest None)
    = Reply (pb.mkSyncDataResponse [] [uuid.String_ note_id]
               (timestamppb.New 9000)).
Proof. vm_compute. repeat split. Qed.

(** A commit that fails leaves the row and adds no tombstone. *)
Example delete_commit_fails :
  DeleteDataEntry (mkDeleteFaults None None None (Some (ErrNew "conn closed")))
    5000 db0 alice note_id
  = (Some (ErrWrap "failed to commit transaction" (ErrNew "conn closed")), db0).
Proof. reflexivity. Qed.

(** Bob cannot delete alice's note. *)
Example delete_foreign_entry :
  DeleteData ctx_bob no_faults 5000 db0
    (pb.mkDeleteDataRequest (uuid.String_ note_id))
  = (Status codes.Internal "failed to delete data entry", db0).
Proof. vm_compute. reflexivity. Qed.

(** A login with the right password succeeds. *)
Example login_succeeds :
  match Login sample_bcrypt sample_server None (auth.mkGenClock 0 0 0) db0
          (pb.mkLoginRequest "alice" "hunter22") with
  | Reply resp => pb.u_Username (pb.User_ resp) = "alice"
  | Status _ _ => False
  end.
Proof. vm_compute. reflexivity. Qed.

(** A login without a password is rejected before the lookup. *)
Example login_without_password :
  Login sample_bcrypt sample_server None (auth.mkGenClock 0 0 0) db0
    (pb.mkLoginRequest "alice" "")
  = Status codes.InvalidArgument "password is required".
Proof. reflexivity. Qed.

(** A token of the service passes the gate of the RPC surface and of the
    HTTP surface; only the former puts the principal where the handlers
    look for it. *)
Example gates_and_context_keys :
  let s := authService sample_server in
  let token := fst (auth.GenerateToken s (auth.mkGenClock 0 0 0) alice "alice") in
  AuthInterceptor s 10 "/gophkeeper.GophKeeper/GetData" (Some [Bearer token])
    Background = Reply ctx_alice /\
  middleware.AuthMiddleware s 10 (middleware.TwoParts "Bearer" token) Background
    = middleware.Next (mkContext None (Some alice)) /\
  getUserIDFromContext (mkContext None (Some alice)) = (uuid.Nil, false).
Proof. vm_compute. repeat split. Qed.

(** A refresh of an unexpired token gives a token for the same
    principal. *)
Example refresh_unexpired :
  let s := authService sample_server in
  let token := fst (auth.GenerateToken s (auth.mkGenClock 0 0 0) alice "alice") in
  match auth.RefreshToken s 10 10 (auth.mkGenClock 10 10 10) token with
  | auth.Return (inl (token', _)) =>
      match auth.ValidateToken s 20 token' with
      | inl claims => jwt.c_UserID claims = alice
      | inr _ => False
      end
  | _ => False
  end.
Proof. vm_compute. reflexivity. Qed.

End unit_checks.

(* ================================================================= *)
(** ** uuid: printing and parsing *)

Module uuid_facts.
Import uuid.








End uuid_facts.

(* ================================================================= *)
(** ** Facts about lists and tables *)

Module tables.
Import pg storage spec.

Lemma uuid_eqb_eq (a b : UUID) : uuid.eqb a b = true <-> a = b.
Proof. apply N.eqb_eq. Qed.

Lemma uuid_eqb_refl (a : UUID) : uuid.eqb a a = true.
Proof. apply N.eqb_refl. Qed.

Lemma uuid_eqb_neq (a b : UUID) : uuid.eqb a b = false <-> a <> b.
Proof. apply N.eqb_neq. Qed.

(** Under a primary key, two rows with the same key are the same row. *)
Lemma pk_unique {A} (key : A -> UUID) (l : list A) (x y : A) :
  NoDup (map key l) -> In x l -> In y l -> key x = key y -> x = y.
Proof.
  induction l as [|a l IH]; simpl; intros Hnd Hx Hy Hk; [contradiction|].
  inversion Hnd as [|? ? Hnotin Hnd']; subst.
  destruct Hx as [->|Hx], Hy as [->|Hy]; auto.
  - exfalso. apply Hnotin. rewrite Hk. now apply in_map.
  - exfalso. apply Hnotin. rewrite <- Hk. now apply in_map.
Qed.

(** [find] by key returns the row of the table with that key. *)
Lemma find_key_In {A} (key : A -> UUID) (l : list A) (id : UUID) (x : A) :
  NoDup (map key l) -> In x l -> key x = id ->
  find (fun r => uuid.eqb (key r) id) l = Some x.
Proof.
  intros Hnd Hin Hk.
  destruct (find (fun r => uuid.eqb (key r) id) l) as [y|] eqn:E.
  - apply find_some in E. destruct E as [Hy Hky].
    apply uuid_eqb_eq in Hky. f_equal.
    apply (pk_unique key l); auto. congruence.
  - exfalso. apply (find_none _ _ E x) in Hin.
    rewrite Hk, uuid_eqb_refl in Hin. discriminate.
Qed.

Lemma find_key_map {A} (key : A -> UUID) (f : A -> A) (l : list A) (id : UUID) :
  (forall r, key (f r) = key r) ->
  find (fun r => uuid.eqb (key r) id) (map f l)
  = option_map f (find (fun r => uuid.eqb (key r) id) l).
Proof.
  intros Hf. induction l as [|a l IH]; simpl; [reflexivity|].
  rewrite Hf. destruct (uuid.eqb (key a) id); [reflexivity|apply IH].
Qed.

Lemma map_key_map {A} (key : A -> UUID) (f : A -> A) (l : list A) :
  (forall r, key (f r) = key r) -> map key (map f l) = map key l.
Proof.
  intros Hf. rewrite map_map. apply map_ext. intros; apply Hf.
Qed.

Lemma NoDup_map_filter {A} (key : A -> UUID) (f : A -> bool) (l : list A) :
  NoDup (map key l) -> NoDup (map key (filter f l)).
Proof.
  induction l as [|a l IH]; simpl; intros Hnd; [constructor|].
  inversion Hnd as [|? ? Hnotin Hnd']; subst.
  destruct (f a); simpl; [|now apply IH].
  constructor; [|now apply IH].
  intros Hin. apply Hnotin. apply in_map_iff in Hin.
  destruct Hin as [x [Hx1 Hx2]]. apply filter_In in Hx2.
  apply in_map_iff. exists x. tauto.
Qed.

Lemma count_pos_existsb {A} (f : A -> bool) (l : list A) :
  existsb f l = true -> 0 < count f l.
Proof.
  unfold count. rewrite existsb_exists. intros [x [Hin Hf]].
  assert (In x (filter f l)) as H by (apply filter_In; auto).
  destruct (filter f l); [contradiction|simpl; lia].
Qed.

Lemma count_zero_existsb {A} (f : A -> bool) (l : list A) :
  existsb f l = false -> count f l = 0.
Proof.
  unfold count. intros H.
  assert (filter f l = []) as ->; [|reflexivity].
  induction l as [|a l IH]; simpl in *; [reflexivity|].
  apply orb_false_iff in H. destruct H as [-> H]. auto.
Qed.

(** A protobuf timestamp keeps a time to the nanosecond. *)
Lemma AsTime_New t : timestamppb.AsTime (Some (timestamppb.New t)) = t.
Proof.
  unfold timestamppb.AsTime, timestamppb.New.
  cbn [timestamppb.Seconds timestamppb.Nanos].
  rewrite Z.mul_comm. symmetry. apply Z.div_mod. discriminate.
Qed.

(** The value of a timestamp column: the whole microsecond at or below
    the time bound to the parameter. *)
Lemma timestamptz_bounds (t : Time) :
  timestamptz t mod Microsecond = 0 /\
  timestamptz t <= t < timestamptz t + Microsecond.
Proof.
  unfold timestamptz, Time_Truncate, Microsecond.
  pose proof (Z.mod_pos_bound t 1000 ltac:(lia)) as B.
  pose proof (Z.div_mod t 1000 ltac:(lia)) as D.
  split; [|lia].
  replace (t - t mod 1000) with (t / 1000 * 1000) by lia.
  apply Z.mod_mul. lia.
Qed.


(** Against a column value, a time and the microsecond it is sent as
    compare alike. *)
Lemma timestamptz_after (after column : Time) :
  column mod Microsecond = 0 ->
  (timestamptz after <? column) = (after <? column).
Proof.
  intros Hc. destruct (timestamptz_bounds after) as [Ha Hb].
  unfold Microsecond in *.
  apply Z.mod_divide in Hc; [|lia]. destruct Hc as [c ->].
  apply Z.mod_divide in Ha; [|lia]. destruct Ha as [a Ha].
  rewrite Ha in *.
  destruct (Z.ltb_spec (a * 1000) (c * 1000)), (Z.ltb_spec after (c * 1000));
    try reflexivity; lia.
Qed.

End tables.

(* ================================================================= *)
(** ** UpdateDataEntry: optimistic concurrency *)

Module update_facts.
Import pg storage spec tables.

Lemma handleExecError_Some e a b :
  exists e', handleExecError (Some e) a b = Some e'.
Proof.
  unfold handleExecError. destruct (As_PgError e) as [p|]; [|eauto].
  destruct (String.eqb (pg_Code p) UniqueViolation); eauto.
Qed.

Ltac exec_error_absurd :=
  cbv beta iota;
  lazymatch goal with
  | |- (_, handleExecError (Some ?e) ?a ?b, _) = (_, None, _) -> _ =>
      let x := fresh in let E := fresh in let H := fresh in
      destruct (handleExecError_Some e a b) as [x E]; rewrite E;
      intros H; inversion H
  | |- _ => let H := fresh in simpl; intros H; inversion H
  end.

(** Every error return of [UpdateDataEntry] leaves the tables and the
    caller's entry as they were. *)
Lemma UpdateDataEntry_error_unchanged f dn n db e e' err db' :
  UpdateDataEntry f dn n db e = (e', Some err, db') -> db' = db /\ e' = e.
Proof.
  unfold UpdateDataEntry, update_data_entry.
  destruct f as [fe|].
  - intros H; inversion H; auto.
  - destruct (existsb (update_where _ _ _) (data_entries db)) eqn:Hhit; simpl.
    + destruct (int64_max <? Version e + 1); [intros H; inversion H; auto|].
      destruct (existsb (fun o => _) (data_entries db)) eqn:Hclash;
        [intros H; inversion H; auto|].
      apply count_pos_existsb in Hhit.
      destruct (Z.eqb_spec (count (update_where (ID e) (UserID e) (Version e))
                                  (data_entries db)) 0) as [E|E]; [lia|].
      intros H; inversion H.
    + intros H; inversion H; auto.
Qed.

(** A successful [UpdateDataEntry] found a row to write and wrote the
    SET clause to the rows of the WHERE clause. *)
Lemma UpdateDataEntry_success f dn n db e e' db' :
  UpdateDataEntry f dn n db e = (e', None, db') ->
  existsb (update_where (ID e) (UserID e) (Version e)) (data_entries db) = true /\
  db' = with_data_entries db
          (map (fun r => if update_where (ID e) (UserID e) (Version e) r
                         then update_set dn (Name e) (Description e)
                                (EncryptedData e) (Metadata e) r
                         else r) (data_entries db)).
Proof.
  unfold UpdateDataEntry, update_data_entry.
  destruct f as [fe|]; [exec_error_absurd|].
  destruct (existsb (update_where _ _ _) (data_entries db)) eqn:Hhit; simpl.
  - destruct (int64_max <? Version e + 1); [exec_error_absurd|].
    destruct (existsb (fun o => _) (data_entries db)) eqn:Hclash;
      [exec_error_absurd|].
    destruct (count _ _ =? 0); intros H; inversion H; auto.
  - intros H; inversion H.
Qed.

Lemma update_keeps_ID dn name d data m (hit : DataEntry -> bool) r :
  ID (if hit r then update_set dn name d data m r else r) = ID r.
Proof. destruct (hit r); reflexivity. Qed.

(** The primary key survives an update. *)
Lemma UpdateDataEntry_pk f dn n db e e' oerr db' :
  UpdateDataEntry f dn n db e = (e', oerr, db') ->
  pk_data_entries db -> pk_data_entries db'.
Proof.
  intros H Hpk. destruct oerr as [err|].
  - apply UpdateDataEntry_error_unchanged in H. destruct H as [-> _]. exact Hpk.
  - apply UpdateDataEntry_success in H. destruct H as [_ ->].
    unfold pk_data_entries; simpl.
    rewrite map_key_map; [exact Hpk|].
    intros r. apply update_keeps_ID.
Qed.

(** One successful update of entry [id] by its owner: the stored version
    was the expected one, the row belongs to the caller, and the row is
    now the SET clause applied to it. *)
Lemma UpdateDataEntry_increments f dn n db e e' db' r :
  pk_data_entries db ->
  stored db (ID e) = Some r ->
  UpdateDataEntry f dn n db e = (e', None, db') ->
  Version r = Version e /\ UserID r = UserID e /\
  stored db' (ID e) =
    Some (update_set dn (Name e) (Description e) (EncryptedData e)
            (Metadata e) r).
Proof.
  intros Hpk Hr H. apply UpdateDataEntry_success in H. destruct H as [Hhit ->].
  apply existsb_exists in Hhit. destruct Hhit as [x [Hx Hw]].
  pose proof Hw as Hw'. unfold update_where in Hw'.
  apply andb_prop in Hw'. destruct Hw' as [Hw' Hv].
  apply andb_prop in Hw'. destruct Hw' as [Hid Hu].
  apply uuid_eqb_eq in Hid. apply uuid_eqb_eq in Hu. apply Z.eqb_eq in Hv.
  assert (stored db (ID e) = Some x) as Hx'
    by (apply (find_key_In ID); auto).
  unfold stored in *. rewrite Hr in Hx'. inversion Hx'; subst x.
  split; [exact Hv|]. split; [exact Hu|].
  simpl. rewrite (find_key_map ID); [|intros; apply update_keeps_ID].
  rewrite Hr. simpl. now rewrite Hw.
Qed.

(** The versions along a run of successful updates. *)
Lemma run_updates_version id owner calls : forall db db' r,
  pk_data_entries db ->
  stored db id = Some r ->
  Forall (addresses id owner) calls ->
  run_updates db calls = Some db' ->
  pk_data_entries db' /\
  exists r', stored db' id = Some r' /\
             Version r' = Version r + Z.of_nat (List.length calls).
Proof.
  induction calls as [|c calls IH]; intros db db' r Hpk Hr Hall Hrun.
  - simpl in Hrun. inversion Hrun; subst. split; [exact Hpk|].
    exists r. split; [exact Hr|]. simpl. lia.
  - inversion Hall as [|? ? [Hid Hown] Hall']; subst.
    simpl in Hrun. unfold call_update in Hrun.
    destruct (UpdateDataEntry _ _ _ db (uc_entry c)) as [[e' oerr] db1] eqn:E.
    destruct oerr as [err|]; [discriminate|].
    pose proof (UpdateDataEntry_pk _ _ _ _ _ _ _ _ E Hpk) as Hpk1.
    destruct (UpdateDataEntry_increments _ _ _ _ _ _ _ r Hpk Hr E)
      as [_ [_ Hr1]].
    destruct (IH db1 db' _ Hpk1 Hr1 Hall' Hrun) as [Hpk' [r' [Hr' Hv']]].
    split; [exact Hpk'|]. exists r'. split; [exact Hr'|].
    rewrite Hv'. simpl Version. simpl List.length. lia.
Qed.

(** An update that expects another version than the stored one fails
    and changes nothing. *)
Lemma UpdateDataEntry_version_mismatch f dn n db e r :
  pk_data_entries db ->
  stored db (ID e) = Some r ->
  Version e <> Version r ->
  exists err, UpdateDataEntry f dn n db e = (e, Some err, db).
Proof.
  intros Hpk Hr Hv.
  destruct (UpdateDataEntry f dn n db e) as [[e' oerr] db'] eqn:E.
  destruct oerr as [err|].
  - destruct (UpdateDataEntry_error_unchanged _ _ _ _ _ _ _ _ E) as [-> ->].
    now exists err.
  - exfalso.
    destruct (UpdateDataEntry_increments _ _ _ _ _ _ _ r Hpk Hr E) as [Hv' _].
    congruence.
Qed.

(** C1.  Let entry [id] be stored with version [v].  After any sequence
    of [k] successful updates of that entry by its owner the stored
    version is [v + k]; and an update whose expected version differs from
    the stored one returns an error and leaves the tables (hence every
    field of the entry) unchanged. *)
Theorem UpdateDataEntry_version_chain :
  forall (db : DB) (id owner : UUID) (r : DataEntry),
    pk_data_entries db ->
    stored db id = Some r ->
    (forall calls db',
        Forall (addresses id owner) calls ->
        run_updates db calls = Some db' ->
        exists r', stored db' id = Some r' /\
                   Version r' = Version r + Z.of_nat (List.length calls)) /\
    (forall c,
        addresses id owner c ->
        Version (uc_entry c) <> Version r ->
        exists err, call_update db c = (uc_entry c, Some err, db) /\
                    stored db id = Some r).
Proof.
  intros db id owner r Hpk Hr. split.
  - intros calls db' Hall Hrun.
    destruct (run_updates_version id owner calls db db' r Hpk Hr Hall Hrun)
      as [_ H]. exact H.
  - intros c [Hid Hown] Hv. subst id.
    destruct (UpdateDataEntry_version_mismatch (uc_fault c) (uc_db_now c)
                (uc_now c) db (uc_entry c) r Hpk Hr Hv) as [err E].
    exists err. split; [exact E|exact Hr].
Qed.

End update_facts.

(* ================================================================= *)
(** ** DeleteDataEntry: the row and its tombstone *)

Module delete_facts.
Import pg storage spec tables update_facts.

Lemma find_app_last {A} (p : A -> bool) (l : list A) (x : A) :
  find p (l ++ [x]) =
  match find p l with
  | Some y => Some y
  | None => if p x then Some x else None
  end.
Proof.
  induction l as [|a l IH]; simpl; [reflexivity|].
  destruct (p a); [reflexivity|exact IH].
Qed.

Lemma find_filter_other (l : list DataEntry) (id user i : UUID) :
  i <> id ->
  find (fun r => uuid.eqb (ID r) i)
       (filter (fun r => negb (owned_by id user r)) l)
  = find (fun r => uuid.eqb (ID r) i) l.
Proof.
  intros Hne. induction l as [|a l IH]; simpl; [reflexivity|].
  unfold owned_by at 1.
  destruct (uuid.eqb (ID a) id) eqn:Ea; simpl.
  - apply uuid_eqb_eq in Ea.
    assert (uuid.eqb (ID a) i = false) as Ei
      by (apply uuid_eqb_neq; congruence).
    destruct (uuid.eqb (UserID a) user); simpl; rewrite Ei; exact IH.
  - destruct (uuid.eqb (ID a) i); [reflexivity|exact IH].
Qed.

Lemma find_filter_deleted (l : list DataEntry) (id user : UUID) :
  NoDup (map ID l) ->
  existsb (owned_by id user) l = true ->
  find (fun r => uuid.eqb (ID r) id)
       (filter (fun r => negb (owned_by id user r)) l) = None.
Proof.
  intros Hnd Hex.
  apply existsb_exists in Hex. destruct Hex as [x [Hx Hown]].
  destruct (find _ (filter _ l)) as [y|] eqn:E; [|reflexivity].
  exfalso. apply find_some in E. destruct E as [Hy Hid].
  apply filter_In in Hy. destruct Hy as [Hy Hnot].
  apply uuid_eqb_eq in Hid.
  pose proof Hown as Hown'. unfold owned_by in Hown'.
  apply andb_prop in Hown'. destruct Hown' as [Hxid _].
  apply uuid_eqb_eq in Hxid.
  assert (x = y) by (apply (pk_unique ID l); auto; congruence).
  subst y. rewrite Hown in Hnot. discriminate.
Qed.

(** [DeleteDataEntry] case by case: an error with the tables as they
    were, or no error with the row gone and the tombstone added. *)
Lemma DeleteDataEntry_cases f db_now db user id :
  (exists err, DeleteDataEntry f db_now db user id = (Some err, db)) \/
  (DeleteDataEntry f db_now db user id =
     (None, mkDB (users db)
              (filter (fun r => negb (owned_by id user r)) (data_entries db))
              (deleted_entries db ++ [mkDeletedEntry id user db_now])) /\
   existsb (owned_by id user) (data_entries db) = true /\
   existsb (fun d => uuid.eqb (d_ID d) id) (deleted_entries db) = false).
Proof.
  unfold DeleteDataEntry.
  destruct (f_begin f) as [e|]; [left; eauto|].
  unfold delete_data_entry.
  destruct (f_delete f) as [e|].
  { left. destruct (handleExecError_Some e "" "failed to delete data entry")
      as [e' ->]. eauto. }
  destruct (existsb (owned_by id user) (data_entries db)) eqn:Hex.
  2:{ rewrite (count_zero_existsb _ _ Hex). simpl. left; eauto. }
  pose proof (count_pos_existsb _ _ Hex) as Hpos.
  destruct (Z.eqb_spec (count (owned_by id user) (data_entries db)) 0) as [E|_];
    [lia|].
  unfold insert_deleted_entry.
  destruct (f_insert f) as [e|].
  { left. destruct (handleExecError_Some e "" "failed to insert deleted entry")
      as [e' ->]. eauto. }
  simpl deleted_entries.
  destruct (existsb (fun d => uuid.eqb (d_ID d) id) (deleted_entries db)) eqn:Hts.
  { left. simpl. eauto. }
  unfold user_exists. simpl users.
  destruct (existsb (fun r => uuid.eqb (u_ID r) user) (users db)).
  2:{ left. simpl. eauto. }
  simpl. destruct (f_commit f) as [e|]; [left; eauto|].
  right. split; [reflexivity|]. split; reflexivity.
Qed.

(** After a successful [DeleteDataEntry] the identifier has its tombstone
    and no row. *)
Lemma DeleteDataEntry_removes_and_marks f db_now db user id db' :
  pk_data_entries db ->
  DeleteDataEntry f db_now db user id = (None, db') ->
  stored db' id = None /\
  tombstone db' id = Some (mkDeletedEntry id user db_now).
Proof.
  intros Hpk H.
  destruct (DeleteDataEntry_cases f db_now db user id)
    as [[err E]|[E [Hex Hts]]]; rewrite E in H; [discriminate|].
  injection H as <-. split.
  - apply find_filter_deleted; assumption.
  - unfold tombstone. simpl. rewrite find_app_last.
    destruct (find _ (deleted_entries db)) as [d|] eqn:Ed.
    + apply find_some in Ed. destruct Ed as [Hd1 Hd2].
      assert (existsb (fun d => uuid.eqb (d_ID d) id) (deleted_entries db) = true)
        by (apply existsb_exists; eauto). congruence.
    + simpl. now rewrite uuid_eqb_refl.
Qed.

(** Both primary keys survive a delete. *)
Lemma DeleteDataEntry_pk f db_now db user id oerr db' :
  DeleteDataEntry f db_now db user id = (oerr, db') ->
  (pk_data_entries db -> pk_data_entries db') /\
  (pk_deleted_entries db -> pk_deleted_entries db').
Proof.
  intros H.
  destruct (DeleteDataEntry_cases f db_now db user id)
    as [[err E]|[E [Hex Hts]]]; rewrite E in H; injection H as <- <-.
  - auto.
  - unfold pk_data_entries, pk_deleted_entries. simpl. split.
    + intros Hpk. now apply NoDup_map_filter.
    + intros Hpk. rewrite map_app. simpl.
      apply Permutation_NoDup with (l := id :: map d_ID (deleted_entries db)).
      * apply Permutation_cons_append.
      * constructor; [|exact Hpk].
        intros Hin. apply in_map_iff in Hin. destruct Hin as [d [Hd1 Hd2]].
        assert (existsb (fun d => uuid.eqb (d_ID d) id) (deleted_entries db) = true).
        { apply existsb_exists. exists d. split; [exact Hd2|].
          now apply uuid_eqb_eq. }
        congruence.
Qed.

(** C2.  [DeleteDataEntry] is all or nothing.  Whatever round trip
    fails, the call returns an error and the tables are unchanged; when
    no entry (id, owner) exists the call fails; when the entry exists,
    nothing fails, the owner is a user and the identifier has no
    tombstone yet, the call succeeds.  A successful call removed the row
    and added the tombstone (id, owner, now) together: afterwards the
    identifier has the tombstone and no row.  Hence the call never
    produces tables where an identifier has both a tombstone and a row. *)
Theorem DeleteDataEntry_atomic :
  forall (f : DeleteFaults) (db_now : Time) (db : DB) (user id : UUID),
    pk_data_entries db ->
    forall oerr db', DeleteDataEntry f db_now db user id = (oerr, db') ->
    (oerr <> None -> db' = db) /\
    (existsb (owned_by id user) (data_entries db) = false -> oerr <> None) /\
    (f = no_faults ->
     existsb (owned_by id user) (data_entries db) = true ->
     user_exists db user = true ->
     tombstone db id = None ->
     oerr = None) /\
    (oerr = None ->
     existsb (owned_by id user) (data_entries db) = true /\
     data_entries db' =
       filter (fun r => negb (owned_by id user r)) (data_entries db) /\
     deleted_entries db' =
       (deleted_entries db ++ [mkDeletedEntry id user db_now])%list /\
     users db' = users db /\
     stored db' id = None /\
     tombstone db' id = Some (mkDeletedEntry id user db_now)) /\
    (tombstoned_not_live db -> tombstoned_not_live db').
Proof.
  intros f db_now db user id Hpk oerr db' H.
  destruct (DeleteDataEntry_cases f db_now db user id)
    as [[err E]|[E [Hex Hts]]]; rewrite E in H; injection H as <- <-.
  - repeat split; try discriminate; auto.
    + intros Hf Hex Hu Hts. exfalso. subst f.
      revert E. unfold DeleteDataEntry, delete_data_entry, insert_deleted_entry.
      simpl. pose proof (count_pos_existsb _ _ Hex) as Hpos.
      destruct (Z.eqb_spec (count (owned_by id user) (data_entries db)) 0);
        [lia|].
      unfold user_exists in *. simpl. rewrite Hu. simpl.
      unfold tombstone in Hts.
      destruct (existsb (fun d => uuid.eqb (d_ID d) id) (deleted_entries db))
        eqn:Hd.
      * apply existsb_exists in Hd. destruct Hd as [d [Hd1 Hd2]].
        apply (find_none _ _ Hts d) in Hd1. congruence.
      * simpl. discriminate.
  - destruct (DeleteDataEntry_removes_and_marks f db_now db user id _ Hpk E)
      as [Hgone Hstone].
    repeat split; auto; try congruence.
    intros HI6 i Hi.
    destruct (N.eq_dec i id) as [->|Hne]; [exact Hgone|].
    unfold stored. simpl. rewrite find_filter_other by exact Hne.
    apply HI6. unfold tombstone in *. simpl in Hi.
    rewrite find_app_last in Hi.
    destruct (find _ (deleted_entries db)); [discriminate|].
    simpl in Hi. apply uuid_eqb_neq in Hne.
    unfold uuid.eqb in *. rewrite N.eqb_sym in Hne. rewrite Hne in Hi.
    congruence.
Qed.

End delete_facts.

(* ================================================================= *)
(** ** SyncData: the changes since a cursor *)

Module sync_facts.
Import pg storage spec tables update_facts delete_facts.

Section OrderBy.
Context {A : Type} (key : A -> Z).





End OrderBy.



Lemma stored_In db id r : stored db id = Some r -> In r (data_entries db) /\ ID r = id.
Proof.
  intros H. apply find_some in H. destruct H as [H1 H2].
  now apply uuid_eqb_eq in H2.
Qed.




End sync_facts.

(* ================================================================= *)
(** ** CreateDataEntry followed by GetDataEntry *)

Module create_facts.
Import pg storage spec tables update_facts.

(** A successful [CreateDataEntry] appended the row of the entry it
    returns; the identifier was not in the table and the owner is a
    user. *)
Lemma CreateDataEntry_success fault id now db entry entry' db' :
  CreateDataEntry fault id now db entry = (entry', None, db') ->
  entry' = mkDataEntry id (UserID entry) (Type_ entry) (Name entry)
             (Description entry) (EncryptedData entry) (Metadata entry)
             now now 1 /\
  db' = with_data_entries db (data_entries db ++ [data_entry_row entry']) /\
  existsb (fun r => uuid.eqb (ID r) id) (data_entries db) = false /\
  existsb (fun r => uuid.eqb (UserID r) (UserID entry) &&
                    String.eqb (Name r) (Name entry)) (data_entries db) = false.
Proof.
  unfold CreateDataEntry, prepareNewDataEntry, insert_data_entry.
  destruct fault as [fe|]; [exec_error_absurd|].
  simpl Type_. simpl ID. simpl UserID. simpl Name.
  destruct (type_check (Type_ entry)); simpl negb; [|exec_error_absurd].
  destruct (existsb (fun r => uuid.eqb (ID r) id) (data_entries db)) eqn:Hid;
    [exec_error_absurd|].
  destruct (existsb (fun r => uuid.eqb (UserID r) (UserID entry) && _)
              (data_entries db)) eqn:Hname; [exec_error_absurd|].
  destruct (user_exists db (UserID entry)); simpl negb; [|exec_error_absurd].
  intros H. inversion H; subst. auto.
Qed.

Lemma CreateDataEntry_error_unchanged fault id now db entry entry' err db' :
  CreateDataEntry fault id now db entry = (entry', Some err, db') -> db' = db.
Proof.
  unfold CreateDataEntry, prepareNewDataEntry, insert_data_entry.
  destruct fault as [fe|]; [intros H; inversion H; auto|].
  repeat match goal with
         | |- context [if ?b then _ else _] => destruct b
         end; intros H; inversion H; auto.
Qed.

Lemma existsb_false_not_In {A} (key : A -> UUID) (l : list A) (id : UUID) :
  existsb (fun r => uuid.eqb (key r) id) l = false -> ~ In id (map key l).
Proof.
  intros H Hin. apply in_map_iff in Hin. destruct Hin as [x [Hk Hx]].
  assert (existsb (fun r => uuid.eqb (key r) id) l = true).
  { apply existsb_exists. exists x. split; [exact Hx|]. now apply uuid_eqb_eq. }
  congruence.
Qed.


(** [CreateDataEntry] followed by [GetDataEntry]: the row that is read
    back is the entry of the call with its two times as the columns hold
    them. *)
Lemma CreateDataEntry_then_GetDataEntry fault id now db entry entry' db' :
  CreateDataEntry fault id now db entry = (entry', None, db') ->
  GetDataEntry None db' (UserID entry) id =
    inl (mkDataEntry id (UserID entry) (Type_ entry) (Name entry)
           (Description entry) (EncryptedData entry) (Metadata entry)
           (timestamptz now) (timestamptz now) 1) /\
  entry' = mkDataEntry id (UserID entry) (Type_ entry) (Name entry)
             (Description entry) (EncryptedData entry) (Metadata entry)
             now now 1 /\
  ~ In id (map ID (data_entries db)).
Proof.
  intros H.
  apply CreateDataEntry_success in H.
  destruct H as [He [-> [Hid _]]].
  pose proof (existsb_false_not_In ID _ _ Hid) as Hfresh.
  split; [|split; assumption].
  unfold GetDataEntry, query_row. simpl data_entries.
  rewrite filter_app.
  assert (filter (owned_by id (UserID entry)) (data_entries db) = []) as ->.
  { clear -Hid. induction (data_entries db) as [|a l IH]; simpl in *;
      [reflexivity|].
    apply orb_false_iff in Hid. destruct Hid as [Ha Hl].
    unfold owned_by at 1. rewrite Ha. simpl. auto. }
  simpl. unfold owned_by. subst entry'. simpl.
  now rewrite !uuid_eqb_refl.
Qed.






End create_facts.

(* ================================================================= *)
(** ** SyncData: the response *)

Module sync_response.
Import pg storage spec tables update_facts delete_facts sync_facts create_facts.
Import grpc.



(** With no failing round trip, [SyncData] answers with the two query
    results and the clock. *)
Lemma SyncData_reply ctx owner now db req :
  UserIDKey ctx = Some (CtxUUID owner) ->
  SyncData ctx no_sync_faults now db req =
  Reply (pb.mkSyncDataResponse
           (map convertToProtoDataEntry
              (sync_entries db owner (timestamppb.AsTime (pb.LastSyncTime req))))
           (map uuid.String_
              (map d_ID
                 (sync_tombstones db owner
                    (timestamppb.AsTime (pb.LastSyncTime req)))))
           (timestamppb.New now)).
Proof.
  intros Hctx. unfold SyncData, getUserIDFromContext. rewrite Hctx. reflexivity.
Qed.




End sync_response.

(* ================================================================= *)
(** ** Owner isolation *)

Module isolation_facts.
Import pg storage spec tables update_facts delete_facts.
Import grpc.

Lemma same_view_iff P db1 db2 : same_view P db1 db2 <-> view P db1 = view P db2.
Proof.
  unfold same_view, view. split.
  - intros [-> [-> ->]]. reflexivity.
  - intros H. injection H as H1 H2 H3. auto.
Qed.

Section Filters.
Context (P : UUID).

Local Abbreviation own := (fun r : DataEntry => uuid.eqb (UserID r) P).
Local Abbreviation other := (fun r : DataEntry => negb (uuid.eqb (UserID r) P)).

Lemma filter_own (f : DataEntry -> bool) (l : list DataEntry) :
  (forall r, f r = true -> uuid.eqb (UserID r) P = true) ->
  filter f (filter own l) = filter f l.
Proof.
  intros Hf. induction l as [|a l IH]; simpl; [reflexivity|].
  destruct (uuid.eqb (UserID a) P) eqn:Ea; simpl.
  - now rewrite IH.
  - destruct (f a) eqn:Efa; [|exact IH].
    apply Hf in Efa. congruence.
Qed.

Lemma existsb_own (f : DataEntry -> bool) (l : list DataEntry) :
  (forall r, f r = true -> uuid.eqb (UserID r) P = true) ->
  existsb f (filter own l) = existsb f l.
Proof.
  intros Hf. induction l as [|a l IH]; simpl; [reflexivity|].
  destruct (uuid.eqb (UserID a) P) eqn:Ea; simpl.
  - now rewrite IH.
  - destruct (f a) eqn:Efa; [|exact IH].
    apply Hf in Efa. congruence.
Qed.

Lemma count_own (f : DataEntry -> bool) (l : list DataEntry) :
  (forall r, f r = true -> uuid.eqb (UserID r) P = true) ->
  count f (filter own l) = count f l.
Proof. intros Hf. unfold count. now rewrite filter_own. Qed.

Lemma own_map (g : DataEntry -> DataEntry) (l : list DataEntry) :
  (forall r, UserID (g r) = UserID r) ->
  filter own (map g l) = map g (filter own l).
Proof.
  intros Hg. induction l as [|a l IH]; simpl; [reflexivity|].
  rewrite Hg.
  destruct (uuid.eqb (UserID a) P); simpl; now rewrite IH.
Qed.

Lemma filter_comm {A} (f g : A -> bool) (l : list A) :
  filter f (filter g l) = filter g (filter f l).
Proof.
  induction l as [|a l IH]; simpl; [reflexivity|].
  destruct (f a) eqn:Ef, (g a) eqn:Eg; simpl; rewrite ?Ef, ?Eg, IH; reflexivity.
Qed.

Lemma own_rows_view db : own_rows P (view P db) = own_rows P db.
Proof.
  unfold own_rows, view. simpl. apply filter_own. auto.
Qed.

(** The rows of the others under a map that changes only rows of [P]
    and keeps the owner. *)
Lemma others_map (g : DataEntry -> DataEntry) (l : list DataEntry) :
  (forall r, UserID (g r) = UserID r) ->
  (forall r, uuid.eqb (UserID r) P = false -> g r = r) ->
  filter other (map g l) = filter other l.
Proof.
  intros Hg Hid. induction l as [|a l IH]; simpl; [reflexivity|].
  rewrite Hg.
  destruct (uuid.eqb (UserID a) P) eqn:Ea; simpl; [exact IH|].
  rewrite (Hid a Ea), IH. reflexivity.
Qed.

Lemma others_filter (f : DataEntry -> bool) (l : list DataEntry) :
  (forall r, uuid.eqb (UserID r) P = false -> f r = true) ->
  filter other (filter f l) = filter other l.
Proof.
  intros Hf. induction l as [|a l IH]; simpl; [reflexivity|].
  destruct (uuid.eqb (UserID a) P) eqn:Ea; simpl.
  - destruct (f a); simpl; rewrite ?Ea; simpl; exact IH.
  - rewrite (Hf a Ea). simpl. rewrite Ea. simpl. now rewrite IH.
Qed.

End Filters.

Lemma owned_by_own id P r : owned_by id P r = true -> uuid.eqb (UserID r) P = true.
Proof. unfold owned_by. intros H. apply andb_prop in H. tauto. Qed.

Lemma update_where_own id P v r :
  update_where id P v r = true -> uuid.eqb (UserID r) P = true.
Proof.
  unfold update_where. intros H. apply andb_prop in H. destruct H as [H _].
  apply andb_prop in H. tauto.
Qed.

(** The storage operations of [P] read and write the view of [P]. *)
Lemma GetDataEntry_view f db P id :
  GetDataEntry f (view P db) P id = GetDataEntry f db P id.
Proof.
  unfold GetDataEntry, view, own_rows. simpl.
  rewrite filter_own; [reflexivity|]. intros r. apply owned_by_own.
Qed.

Lemma GetDataEntries_view f rf db P dt :
  GetDataEntries f rf (view P db) P dt = GetDataEntries f rf db P dt.
Proof.
  unfold GetDataEntries, view, own_rows. simpl.
  rewrite filter_own; [reflexivity|].
  intros r. destruct dt; [|auto]. intros H. apply andb_prop in H. tauto.
Qed.

Lemma GetDataEntriesAfter_view f rf db P T :
  GetDataEntriesAfter f rf (view P db) P T = GetDataEntriesAfter f rf db P T.
Proof.
  unfold GetDataEntriesAfter, view, own_rows. simpl.
  rewrite filter_own; [reflexivity|].
  intros r H. apply andb_prop in H. tauto.
Qed.

Lemma GetDeletedEntriesAfter_view f rf db P T :
  GetDeletedEntriesAfter f rf (view P db) P T = GetDeletedEntriesAfter f rf db P T.
Proof. reflexivity. Qed.

Lemma UpdateDataEntry_view f dn n db e :
  UpdateDataEntry f dn n (view (UserID e) db) e =
  let '(e', oerr, db') := UpdateDataEntry f dn n db e in
  (e', oerr, view (UserID e) db').
Proof.
  unfold UpdateDataEntry, update_data_entry.
  destruct f as [fe|]; [reflexivity|].
  unfold view at 1 2 3 4. simpl data_entries. unfold own_rows.
  rewrite existsb_own by (intros r; apply update_where_own).
  destruct (existsb (update_where _ _ _) (data_entries db)) eqn:Hhit; simpl negb;
    cbv iota.
  2:{ reflexivity. }
  destruct (int64_max <? Version e + 1); [reflexivity|].
  rewrite existsb_own.
  2:{ intros r H. apply andb_prop in H. destruct H as [H _].
      apply andb_prop in H. tauto. }
  destruct (existsb (fun o => _) (data_entries db)); [reflexivity|].
  rewrite count_own by (intros r; apply update_where_own).
  destruct (count _ _ =? 0).
  - unfold view, own_rows, with_data_entries. simpl.
    rewrite own_map; [reflexivity|].
    intros r. destruct (update_where _ _ _ r); reflexivity.
  - unfold view, own_rows, with_data_entries. simpl.
    rewrite own_map; [reflexivity|].
    intros r. destruct (update_where _ _ _ r); reflexivity.
Qed.

Lemma DeleteDataEntry_view f dn db P id :
  DeleteDataEntry f dn (view P db) P id =
  let '(oerr, db') := DeleteDataEntry f dn db P id in (oerr, view P db').
Proof.
  unfold DeleteDataEntry.
  destruct (f_begin f); [reflexivity|].
  unfold delete_data_entry.
  destruct (f_delete f); [reflexivity|].
  unfold view at 1 2. simpl data_entries. unfold own_rows.
  rewrite count_own by (intros r; apply owned_by_own).
  destruct (count _ _ =? 0); [reflexivity|].
  unfold insert_deleted_entry.
  destruct (f_insert f); [reflexivity|].
  unfold with_data_entries, user_exists. simpl.
  destruct (existsb _ (deleted_entries db)); [reflexivity|].
  destruct (existsb _ (users db)); [|reflexivity].
  simpl. destruct (f_commit f); [reflexivity|].
  unfold view, own_rows, with_deleted_entries. simpl.
  rewrite filter_comm. reflexivity.
Qed.

Lemma GetDataEntry_owner f db P id e :
  GetDataEntry f db P id = inl e -> UserID e = P /\ ID e = id /\ In e (data_entries db).
Proof.
  unfold GetDataEntry, query_row. destruct f as [fe|].
  - simpl. destruct fe; discriminate.
  - destruct (filter (owned_by id P) (data_entries db)) as [|a l] eqn:E;
      [discriminate|].
    intros H. injection H as <-.
    assert (In a (filter (owned_by id P) (data_entries db))) as Hin
      by (rewrite E; now left).
    apply filter_In in Hin. destruct Hin as [Hin Hown].
    unfold owned_by in Hown. apply andb_prop in Hown. destruct Hown as [H1 H2].
    apply uuid_eqb_eq in H1. apply uuid_eqb_eq in H2. auto.
Qed.

Lemma order_by_asc_In {A} (key : A -> Z) (l : list A) (x : A) :
  In x (order_by_asc key l) <-> In x l.
Proof.
  assert (forall y m, In x (insert_by key y m) <-> x = y \/ In x m) as Hins.
  { intros y m. induction m as [|z m IH]; simpl.
    - intuition.
    - destruct (key y <=? key z); simpl; [intuition|]. rewrite IH. intuition. }
  induction l as [|a l IH]; simpl; [tauto|].
  rewrite Hins, IH. intuition.
Qed.

Lemma GetDataEntries_owner f rf db P dt es :
  GetDataEntries f rf db P dt = inl es ->
  Forall (fun e => UserID e = P /\ In e (data_entries db)) es.
Proof.
  unfold GetDataEntries, query. destruct f; [discriminate|].
  destruct rf; [discriminate|]. simpl. intros H. injection H as <-.
  apply Forall_forall. intros e He.
  apply order_by_asc_In in He. apply filter_In in He. destruct He as [He1 He2].
  split; [|exact He1].
  destruct dt; [apply andb_prop in He2; destruct He2 as [He2 _]|];
    now apply uuid_eqb_eq.
Qed.

Lemma GetDataEntriesAfter_owner f rf db P T es :
  GetDataEntriesAfter f rf db P T = inl es ->
  Forall (fun e => UserID e = P /\ In e (data_entries db)) es.
Proof.
  unfold GetDataEntriesAfter, query. destruct f; [discriminate|].
  destruct rf; [discriminate|]. simpl. intros H. injection H as <-.
  apply Forall_forall. intros e He.
  apply order_by_asc_In in He. apply filter_In in He. destruct He as [He1 He2].
  split; [|exact He1].
  apply andb_prop in He2; destruct He2 as [He2 _]. now apply uuid_eqb_eq.
Qed.

(** The handlers, run for [P], read and write the view of [P]. *)
Lemma serve_view ctx P db q :
  UserIDKey ctx = Some (CtxUUID P) ->
  serve ctx (view P db) q =
  let '(r, db') := serve ctx db q in (r, view P db').
Proof.
  intros Hctx. destruct q as [f req|f rf req|fg fu dn n req|f dn req|f n req];
    simpl.
  - unfold GetData, getUserIDFromContext. rewrite Hctx. simpl.
    destruct (uuid.Parse (pb.g_Id req)); [|reflexivity].
    now rewrite GetDataEntry_view.
  - unfold ListData, getUserIDFromContext. rewrite Hctx. simpl.
    now rewrite GetDataEntries_view.
  - unfold UpdateData, getUserIDFromContext. rewrite Hctx. simpl.
    destruct (uuid.Parse (pb.up_Id req)) as [id|]; [|reflexivity].
    rewrite GetDataEntry_view.
    destruct (GetDataEntry fg db P id) as [e|err] eqn:E; [|reflexivity].
    destruct (GetDataEntry_owner _ _ _ _ _ E) as [Hown _].
    rewrite Hown.
    match goal with
    | |- context [UpdateDataEntry fu dn n (view P db) ?e] =>
        pose proof (UpdateDataEntry_view fu dn n db e) as Hv
    end.
    simpl UserID in Hv. rewrite Hv.
    destruct (UpdateDataEntry fu dn n db _) as [[e' [err|]] db']; reflexivity.
  - unfold DeleteData, getUserIDFromContext. rewrite Hctx. simpl.
    destruct (uuid.Parse (pb.d_Id req)) as [id|]; [|reflexivity].
    rewrite DeleteDataEntry_view.
    destruct (DeleteDataEntry f dn db P id) as [[err|] db']; reflexivity.
  - unfold SyncData, getUserIDFromContext. rewrite Hctx. simpl.
    now rewrite GetDataEntriesAfter_view.
Qed.

Lemma serve_all_view ctx P qs : forall db,
  UserIDKey ctx = Some (CtxUUID P) ->
  serve_all ctx (view P db) qs =
  let '(rs, db') := serve_all ctx db qs in (rs, view P db').
Proof.
  induction qs as [|q qs IH]; intros db Hctx; simpl; [reflexivity|].
  rewrite (serve_view ctx P db q Hctx).
  destruct (serve ctx db q) as [r db1].
  rewrite (IH db1 Hctx).
  destruct (serve_all ctx db1 qs) as [rs db2]. reflexivity.
Qed.

(** No request of [P] writes a row of another principal. *)
Lemma serve_others ctx P db q :
  UserIDKey ctx = Some (CtxUUID P) ->
  others_rows P (snd (serve ctx db q)) = others_rows P db.
Proof.
  intros Hctx. destruct q as [f req|f rf req|fg fu dn n req|f dn req|f n req];
    simpl; try reflexivity.
  - unfold UpdateData, getUserIDFromContext. rewrite Hctx. simpl.
    destruct (uuid.Parse (pb.up_Id req)) as [id|]; [|reflexivity].
    destruct (GetDataEntry fg db P id) as [e|err] eqn:E; [|reflexivity].
    destruct (GetDataEntry_owner _ _ _ _ _ E) as [Hown _].
    destruct (UpdateDataEntry fu dn n db _) as [[e' [err|]] db'] eqn:U; simpl.
    + apply UpdateDataEntry_error_unchanged in U. destruct U as [-> _].
      reflexivity.
    + apply UpdateDataEntry_success in U. destruct U as [_ ->].
      simpl. unfold others_rows. simpl. rewrite Hown.
      apply others_map.
      * intros r. destruct (update_where _ _ _ r); reflexivity.
      * intros r Hr. destruct (update_where _ _ _ r) eqn:W; [|reflexivity].
        apply update_where_own in W. congruence.
  - unfold DeleteData, getUserIDFromContext. rewrite Hctx. simpl.
    destruct (uuid.Parse (pb.d_Id req)) as [id|]; [|reflexivity].
    destruct (DeleteDataEntry_cases f dn db P id) as [[err E]|[E _]];
      rewrite E; simpl; [reflexivity|].
    unfold others_rows. simpl. apply others_filter.
    intros r Hr. unfold owned_by. rewrite Hr.
    now rewrite andb_false_r.
Qed.

Lemma serve_all_others ctx P qs : forall db,
  UserIDKey ctx = Some (CtxUUID P) ->
  others_rows P (snd (serve_all ctx db qs)) = others_rows P db.
Proof.
  induction qs as [|q qs IH]; intros db Hctx; simpl; [reflexivity|].
  pose proof (serve_others ctx P db q Hctx) as H1.
  destruct (serve ctx db q) as [r db1]. simpl in H1.
  pose proof (IH db1 Hctx) as H2.
  destruct (serve_all ctx db1 qs) as [rs db2]. simpl in *. congruence.
Qed.

(** A get by [P] of an identifier that [P] owns no row of. *)
Lemma GetData_not_own ctx P fault db req id :
  UserIDKey ctx = Some (CtxUUID P) ->
  uuid.Parse (pb.g_Id req) = Some id ->
  (forall r, In r (data_entries db) -> ID r = id -> UserID r <> P) ->
  GetData ctx fault db req = Status codes.NotFound "data entry not found".
Proof.
  intros Hctx Hid Hnone. unfold GetData, getUserIDFromContext.
  rewrite Hctx. simpl. rewrite Hid.
  destruct (GetDataEntry fault db P id) as [e|err] eqn:E; [|reflexivity].
  exfalso. destruct (GetDataEntry_owner _ _ _ _ _ E) as [H1 [H2 H3]].
  exact (Hnone e H3 H2 H1).
Qed.

(** Over HTTP the same two gets are answered alike as well: the handler
    turns every status of [GetData] into 500. *)
Lemma HandleGetData_not_own ctx P fault db idstr id :
  UserIDKey ctx = Some (CtxUUID P) ->
  uuid.Parse idstr = Some id ->
  (forall r, In r (data_entries db) -> ID r = id -> UserID r <> P) ->
  HandleGetData ctx fault db idstr = HttpError 500 "Failed to get data".
Proof.
  intros Hctx Hid Hnone. unfold HandleGetData.
  assert (idstr <> "") as Hne by (intros ->; discriminate).
  apply String.eqb_neq in Hne. rewrite Hne.
  rewrite (GetData_not_own ctx P fault db (pb.mkGetDataRequest idstr) id);
    auto.
Qed.

(** C4.  Let [P] be the principal of the request context.
    (1) A get of an identifier whose row belongs to another principal
    answers NotFound "data entry not found", the very answer to a get of
    an identifier that has no row.
    (2) Two runs of any sequence of get, list, update, delete and sync
    requests of [P] on databases that differ only in rows of other
    principals give the same responses, and the databases still differ
    only in rows of other principals afterwards.
    (3) No such sequence changes or removes a row of another principal.
    (4) Every entry that a lookup or a listing on behalf of [P] returns
    is a row owned by [P]. *)
Theorem owner_isolation :
  forall (ctx : Context) (P : UUID),
    UserIDKey ctx = Some (CtxUUID P) ->
    (forall fault db req id,
        uuid.Parse (pb.g_Id req) = Some id ->
        pk_data_entries db ->
        (stored db id = None \/
         exists r, stored db id = Some r /\ UserID r <> P) ->
        GetData ctx fault db req =
          Status codes.NotFound "data entry not found") /\
    (forall db1 db2 qs,
        same_view P db1 db2 ->
        fst (serve_all ctx db1 qs) = fst (serve_all ctx db2 qs) /\
        same_view P (snd (serve_all ctx db1 qs)) (snd (serve_all ctx db2 qs))) /\
    (forall db qs,
        others_rows P (snd (serve_all ctx db qs)) = others_rows P db) /\
    (forall f rf db id dt T,
        (forall e, GetDataEntry f db P id = inl e -> UserID e = P) /\
        (forall es, GetDataEntries f rf db P dt = inl es ->
                    Forall (fun e => UserID e = P) es) /\
        (forall es, GetDataEntriesAfter f rf db P T = inl es ->
                    Forall (fun e => UserID e = P) es)).
Proof.
  intros ctx P Hctx. split; [|split; [|split]].
  - intros fault db req id Hid Hpk Hcase.
    apply (GetData_not_own ctx P fault db req id Hctx Hid).
    intros r Hin Hrid Hown.
    assert (stored db id = Some r) as Hst by (apply (find_key_In ID); auto).
    destruct Hcase as [Hnone|[r' [Hr' Hne]]]; congruence.
  - intros db1 db2 qs Hsame. apply same_view_iff in Hsame.
    pose proof (serve_all_view ctx P qs db1 Hctx) as H1.
    pose proof (serve_all_view ctx P qs db2 Hctx) as H2.
    rewrite Hsame in H1. rewrite H1 in H2.
    destruct (serve_all ctx db1 qs) as [rs1 d1].
    destruct (serve_all ctx db2 qs) as [rs2 d2].
    simpl. split; [congruence|].
    apply same_view_iff. congruence.
  - intros db qs. now apply serve_all_others.
  - intros f rf db id dt T. split; [|split].
    + intros e He. now destruct (GetDataEntry_owner _ _ _ _ _ He).
    + intros es Hes. apply GetDataEntries_owner in Hes.
      eapply Forall_impl; [|exact Hes]. simpl. tauto.
    + intros es Hes. apply GetDataEntriesAfter_owner in Hes.
      eapply Forall_impl; [|exact Hes]. simpl. tauto.
Qed.

End isolation_facts.

(* ================================================================= *)
(** ** UpdateData: the status of a lost update *)

Module update_status_facts.
Import pg storage spec tables update_facts isolation_facts.
Import grpc.

Lemma GetDataEntry_found db P id r :
  pk_data_entries db -> stored db id = Some r -> UserID r = P ->
  GetDataEntry None db P id = inl r.
Proof.
  intros Hpk Hr Hown. unfold GetDataEntry, query_row.
  destruct (sync_facts.stored_In _ _ _ Hr) as [Hin Hid].
  assert (In r (filter (owned_by id P) (data_entries db))) as Hf.
  { apply filter_In. split; [exact Hin|]. unfold owned_by.
    apply andb_true_intro. split; now apply uuid_eqb_eq. }
  destruct (filter (owned_by id P) (data_entries db)) as [|a l] eqn:E;
    [contradiction|].
  assert (In a (filter (owned_by id P) (data_entries db))) as Ha
    by (rewrite E; now left).
  apply filter_In in Ha. destruct Ha as [Ha1 Ha2].
  unfold owned_by in Ha2. apply andb_prop in Ha2. destruct Ha2 as [Ha2 _].
  apply uuid_eqb_eq in Ha2. f_equal.
  apply (pk_unique ID (data_entries db)); auto. congruence.
Qed.

(** Whatever fails or not, an update of an existing entry with another
    version than the stored one is answered NotFound (the lookup failed)
    or Internal, and changes nothing. *)
Lemma UpdateData_lost_race ctx P f_get f_update dn n db req id r :
  UserIDKey ctx = Some (CtxUUID P) ->
  uuid.Parse (pb.up_Id req) = Some id ->
  pk_data_entries db -> stored db id = Some r -> UserID r = P ->
  pb.up_Version req <> Version r ->
  UpdateData ctx f_get f_update dn n db req =
    match f_get with
    | None => (Status codes.Internal "failed to update data entry", db)
    | Some _ => (Status codes.NotFound "data entry not found", db)
    end.
Proof.
  intros Hctx Hid Hpk Hr Hown Hv.
  unfold UpdateData, getUserIDFromContext. rewrite Hctx. simpl. rewrite Hid.
  destruct f_get as [fe|].
  - unfold GetDataEntry, query_row. simpl. destruct fe; reflexivity.
  - rewrite (GetDataEntry_found db P id r Hpk Hr Hown).
    match goal with
    | |- context [UpdateDataEntry f_update dn n db ?e] =>
        destruct (UpdateDataEntry_version_mismatch f_update dn n db e r)
          as [err E]
    end; simpl; auto.
    + destruct (sync_facts.stored_In _ _ _ Hr) as [_ Hrid]. now rewrite Hrid.
    + rewrite E. reflexivity.
Qed.

(** The HTTP handler turns every status of [UpdateData] into 500. *)
Lemma HandleUpdateData_lost_race P0 s ctx P tape f_get f_update dn n db idstr body id r :
  UserIDKey ctx = Some (CtxUUID P) ->
  uuid.Parse idstr = Some id ->
  pk_data_entries db -> stored db id = Some r -> UserID r = P ->
  ur_Version body <> Version r ->
  snd (HandleUpdateData P0 s ctx tape f_get f_update dn n db idstr (Some body)) = db /\
  (fst (HandleUpdateData P0 s ctx tape f_get f_update dn n db idstr (Some body))
     = HttpPanic \/
   exists status msg,
     fst (HandleUpdateData P0 s ctx tape f_get f_update dn n db idstr (Some body))
       = HttpError status msg /\ (status = 400 \/ status = 500)) /\
  (forall data c tape',
      govalidator.Struct_UpdateDataRequest (validator s) body = true ->
      ur_Data body = JString data ->
      crypto.EncryptLargeData P0 (cryptoService s) tape
        (list_byte_of_string data) = (inl c, tape') ->
      fst (HandleUpdateData P0 s ctx tape f_get f_update dn n db idstr (Some body))
        = HttpError 500 "Failed to update data").
Proof.
  intros Hctx Hid Hpk Hr Hown Hv.
  assert (idstr <> "") as Hne by (intros ->; discriminate).
  apply String.eqb_neq in Hne.
  unfold HandleUpdateData. rewrite Hne.
  destruct (govalidator.Struct_UpdateDataRequest (validator s) body) eqn:Hval;
    simpl negb; cbv iota.
  2:{ simpl. split; [reflexivity|]. split; [right; eauto|]. discriminate. }
  destruct (ur_Data body) as [|data|] eqn:Hdata.
  1,3: simpl; split; [reflexivity|]; split; [now left|]; discriminate.
  destruct (crypto.EncryptLargeData P0 (cryptoService s) tape
              (list_byte_of_string data)) as [[c|e] tape'] eqn:Henc.
  2:{ simpl. split; [reflexivity|]. split; [right; eauto|].
      intros d c t _ Hd. injection Hd as <-. rewrite Henc. discriminate. }
  rewrite (UpdateData_lost_race ctx P f_get f_update dn n db _ id r);
    try assumption.
  destruct f_get; simpl; (split; [reflexivity|]); (split; [right; eauto|]);
    reflexivity.
Qed.

(** C5 fails on the sample data: alice updates her entry, stored
    at version 1, expecting version 5.  The RPC answers Internal, not
    FailedPrecondition; the HTTP handler answers 500, not 409. *)
Lemma lost_update_is_Internal_not_FailedPrecondition :
  let req := pb.mkUpdateDataRequest (uuid.String_ examples.note_id)
               "note-1" "" [x03] "m" 5 in
  let body := models.mkUpdateDataRequest examples.note_id
               "note-1" "" (JString "secret") "m" 5 in
  stored examples.db0 examples.note_id = Some examples.note /\
  Version examples.note = 1 /\
  UpdateData examples.ctx_alice None None 3000 3001 examples.db0 req
    = (Status codes.Internal "failed to update data entry", examples.db0) /\
  codes.Internal <> codes.FailedPrecondition /\
  HandleUpdateData examples.sample_primitives examples.sample_server
    examples.ctx_alice [] None None 3000 3001 examples.db0
    (uuid.String_ examples.note_id) (Some body)
    = (HttpError 500 "Failed to update data", examples.db0) /\
  500 <> 409.
Proof.
  cbv zeta. split; [reflexivity|]. split; [reflexivity|].
  split; [vm_compute; reflexivity|]. split; [discriminate|].
  split; [vm_compute; reflexivity|]. discriminate.
Qed.

(** C5, amended.  Let entry [id] of [P] be stored with a version that
    differs from the expected version of an update request of [P].  Over
    RPC the update is answered with the status Internal "failed to update
    data entry" (NotFound if the lookup round trip fails), never with
    FailedPrecondition; over HTTP with an [http.Error] of status 400 or
    500 (or the handler panics), 500 "Failed to update data" when the
    body is valid and encrypts, never with 409.  The tables are
    unchanged. *)
Theorem lost_update_status :
  forall (ctx : Context) (P : UUID) (db : DB) (id : UUID) (r : DataEntry),
    UserIDKey ctx = Some (CtxUUID P) ->
    pk_data_entries db -> stored db id = Some r -> UserID r = P ->
    (forall f_get f_update dn n req,
        uuid.Parse (pb.up_Id req) = Some id ->
        pb.up_Version req <> Version r ->
        UpdateData ctx f_get f_update dn n db req =
          match f_get with
          | None => (Status codes.Internal "failed to update data entry", db)
          | Some _ => (Status codes.NotFound "data entry not found", db)
          end /\
        (forall msg, fst (UpdateData ctx f_get f_update dn n db req)
                     <> Status codes.FailedPrecondition msg)) /\
    (forall P0 s tape f_get f_update dn n idstr body,
        uuid.Parse idstr = Some id ->
        ur_Version body <> Version r ->
        let out := HandleUpdateData P0 s ctx tape f_get f_update dn n db idstr
                     (Some body) in
        snd out = db /\
        (forall msg, fst out <> HttpError 409 msg) /\
        (forall data c tape',
            govalidator.Struct_UpdateDataRequest (validator s) body = true ->
            ur_Data body = JString data ->
            crypto.EncryptLargeData P0 (cryptoService s) tape
              (list_byte_of_string data) = (inl c, tape') ->
            fst out = HttpError 500 "Failed to update data")).
Proof.
  intros ctx P db id r Hctx Hpk Hr Hown. split.
  - intros f_get f_update dn n req Hid Hv.
    pose proof (UpdateData_lost_race ctx P f_get f_update dn n db req id r
                  Hctx Hid Hpk Hr Hown Hv) as E.
    split; [exact E|]. intros msg. rewrite E.
    destruct f_get; simpl; discriminate.
  - intros P0 s tape f_get f_update dn n idstr body Hid Hv out.
    destruct (HandleUpdateData_lost_race P0 s ctx P tape f_get f_update dn n db
                idstr body id r Hctx Hid Hpk Hr Hown Hv) as [H1 [H2 H3]].
    split; [exact H1|]. split; [|exact H3].
    intros msg Hout. unfold out in *.
    destruct H2 as [H2|[st [m [H2 Hst]]]]; rewrite H2 in Hout;
      [discriminate|].
    injection Hout as -> _. destruct Hst; discriminate.
Qed.

End update_status_facts.

(* ================================================================= *)
(** ** RefreshToken and the expiry of the presented token *)

Module refresh_facts.
Import jwt auth.

(** [ValidateToken] rejects every token whose [exp] is not in the
    future, whatever its signature. *)
Lemma ValidateToken_rejects_expired s now alg c sig exp :
  jwt.ExpiresAt c = Some exp -> exp <= now ->
  exists e, ValidateToken s now (Compact alg c sig) = inr e.
Proof.
  intros Hexp Hle. unfold ValidateToken, ParseWithClaims.
  destruct (registered alg); simpl negb; cbv iota; [|eauto].
  destruct (isHMAC alg); simpl negb; cbv iota; [|eauto].
  destruct (Verify alg c sig (jwtSecret s)); simpl negb; cbv iota; [|eauto].
  unfold Validate, verifyExpiresAt. rewrite Hexp.
  unfold Time_Before. destruct (Z.ltb_spec now exp); [lia|]. simpl. eauto.
Qed.

(** So does [RefreshToken]: the hour of grace is behind a validation that
    an expired token does not pass. *)
Lemma RefreshToken_rejects_expired s now_validate now_since clk alg c sig exp :
  jwt.ExpiresAt c = Some exp -> exp <= now_validate ->
  exists e,
    RefreshToken s now_validate now_since clk (Compact alg c sig)
    = Return (inr e).
Proof.
  intros Hexp Hle. unfold RefreshToken.
  destruct (ValidateToken_rejects_expired s now_validate alg c sig exp Hexp Hle)
    as [e ->]. eauto.
Qed.

Lemma Time_Sub_grace t u :
  t <= u + Hour -> (Hour <? Time_Sub t u) = false.
Proof.
  intros H. apply Z.ltb_ge.
  unfold Time_Sub, minDuration, maxDuration, Hour, Second in *.
  destruct (Z.ltb_spec (t - u) (- 2 ^ 63)); [lia|].
  destruct (Z.ltb_spec (2 ^ 63 - 1) (t - u)); lia.
Qed.

(** When the two clock readings of [RefreshToken] coincide, the branch
    "token too old to refresh" is never taken. *)
Lemma RefreshToken_never_too_old s now clk tok :
  RefreshToken s now now clk tok
  <> Return (inr (ErrNew "token too old to refresh")).
Proof.
  unfold RefreshToken.
  destruct (ValidateToken s now tok) as [c|e] eqn:E; [|discriminate].
  destruct (jwt.ExpiresAt c) as [exp|] eqn:Hexp; [|discriminate].
  assert (now < exp) as Hlt.
  { destruct tok as [raw|alg c' sig]; [discriminate|].
    destruct (Z.lt_ge_cases now exp) as [H|H]; [exact H|].
    unfold ValidateToken, ParseWithClaims in E.
    destruct (registered alg); simpl in E; [|discriminate].
    destruct (isHMAC alg); simpl in E; [|discriminate].
    destruct (Verify alg c' sig (jwtSecret s)); simpl in E; [|discriminate].
    unfold Validate, verifyExpiresAt in E.
    destruct (jwt.ExpiresAt c') as [exp'|] eqn:Hexp'.
    - unfold Time_Before in E. destruct (Z.ltb_spec now exp'); simpl in E.
      + destruct (negb (verifyNotBefore c' now)); [discriminate|].
        injection E as <-. rewrite Hexp in Hexp'. injection Hexp' as <-. lia.
      + discriminate.
    - simpl in E. destruct (negb (verifyNotBefore c' now)); [discriminate|].
      injection E as <-. congruence. }
  rewrite Time_Sub_grace; [discriminate|].
  unfold Hour, Second. lia.
Qed.

(** A token of this service that has not expired is exchanged for a new
    token with the same principal. *)
Lemma RefreshToken_unexpired s now_validate now_since clk c exp :
  jwt.ExpiresAt c = Some exp ->
  now_validate < exp ->
  verifyNotBefore c now_validate = true ->
  now_since <= exp + Hour ->
  RefreshToken s now_validate now_since clk
    (SignedString HS256 c (jwtSecret s))
  = Return (inl (GenerateToken s clk (c_UserID c) (c_Username c))).
Proof.
  intros Hexp Hlt Hnbf Hsince.
  unfold RefreshToken, ValidateToken, ParseWithClaims, SignedString. simpl.
  assert (Verify HS256 c (mkSignature (jwtSecret s) HS256 c) (jwtSecret s) = true)
    as ->.
  { unfold Verify, claims_eqb, otime_eqb, uuid.eqb. simpl.
    rewrite !String.eqb_refl, N.eqb_refl. simpl.
    destruct (jwt.ExpiresAt c), (jwt.IssuedAt c), (jwt.NotBefore c);
      rewrite ?Z.eqb_refl; reflexivity. }
  simpl. unfold Validate, verifyExpiresAt. rewrite Hexp, Hnbf.
  unfold Time_Before. destruct (Z.ltb_spec now_validate exp); [|lia]. simpl.
  rewrite Hexp.
  now rewrite Time_Sub_grace.
Qed.

(** C6, on the code.  A token issued by the service at second 1 000 000
    expires 24 hours later.  Presented for refresh 30 minutes after its
    expiry, inside the hour of grace, it is rejected: [ValidateToken]
    reports it as expired before the check of the grace window runs. *)
Theorem RefreshToken_rejects_inside_grace_window :
  let s := NewService "jwt-secret" in
  let t0 := 1000000 * Second in
  let issued := GenerateToken s (mkGenClock t0 t0 t0) examples.alice "alice" in
  let now := snd issued + 1800 * Second in
  snd issued = t0 + 24 * Hour /\
  Time_Sub now (snd issued) < Hour /\
  RefreshToken s now now (mkGenClock now now now) (fst issued)
  = Return (inr (ErrWrap "invalid token for refresh"
                   (ErrWrap "failed to parse token"
                      (ErrWrap "token has invalid claims" ErrTokenExpired)))).
Proof.
  cbv zeta. split; [reflexivity|]. split; [vm_compute; reflexivity|].
  vm_compute. reflexivity.
Qed.

End refresh_facts.

(* ================================================================= *)
(** ** GenerateBackupCodes *)

Module backup_code_facts.
Import otp.

Lemma land31_range (x : Z) : 0 <= Z.land x 31 < 32.
Proof.
  change 31 with (Z.ones 5). rewrite Z.land_ones by lia.
  apply Z.mod_pos_bound. reflexivity.
Qed.

(** Every index below 32 selects a character of the alphabet. *)
Lemma encode_in_alphabet (i : Z) :
  0 <= i < 32 -> base32.in_alphabet (base32.encode i) = true.
Proof.
  intros H. unfold base32.encode.
  assert (Z.to_nat i < 32)%nat as Hn by lia.
  generalize dependent (Z.to_nat i). intros n Hn.
  do 32 (destruct n as [|n]; [reflexivity|]). lia.
Qed.

Lemma quantum_in_alphabet b0 b1 b2 b3 b4 :
  forallb base32.in_alphabet (base32.quantum b0 b1 b2 b3 b4) = true.
Proof.
  unfold base32.quantum. cbv zeta. cbn [forallb].
  rewrite !encode_in_alphabet by apply land31_range. reflexivity.
Qed.

Lemma quantum_length b0 b1 b2 b3 b4 :
  List.length (base32.quantum b0 b1 b2 b3 b4) = 8%nat.
Proof. reflexivity. Qed.

(** The text of five bytes has eight characters, so the handler always
    appends two characters 0 to reach ten. *)
Lemma generateBackupCode_five_bytes b0 b1 b2 b3 b4 rest :
  exists c0 c1 c2 c3 c4 c5 c6 c7,
    base32.quantum b0 b1 b2 b3 b4 = [c0; c1; c2; c3; c4; c5; c6; c7] /\
    generateBackupCode (b0 :: b1 :: b2 :: b3 :: b4 :: rest) =
      (inl (String c0 (String c1 (String c2 (String c3 (String c4
           (String "-"
           (String c5 (String c6 (String c7 "00"))))))))), rest).
Proof.
  unfold generateBackupCode, rand.Read.
  cbn [List.length Nat.ltb Nat.leb firstn skipn].
  unfold base32.EncodeToString_NoPadding. cbn [base32.encode_nopad].
  unfold base32.quantum. cbv zeta.
  repeat match goal with
         | |- context [base32.encode ?x] =>
             let c := fresh "c" in
             generalize (base32.encode x); intros c
         end.
  do 8 eexists. split; reflexivity.
Qed.

(** With enough random bytes, the loop appends one code per iteration. *)
Lemma backupCodes_loop_length n : forall i tape codes,
  (5 * n <= List.length tape)%nat ->
  exists out tape',
    backupCodes_loop n i tape codes = (inl out, tape') /\
    List.length out = (List.length codes + n)%nat /\
    List.length tape' = (List.length tape - 5 * n)%nat.
Proof.
  induction n as [|n IH]; intros i tape codes Hlen; simpl backupCodes_loop.
  - exists codes, tape. repeat split; lia.
  - destruct tape as [|b0 [|b1 [|b2 [|b3 [|b4 rest]]]]]; simpl in Hlen; try lia.
    destruct (generateBackupCode_five_bytes b0 b1 b2 b3 b4 rest)
      as (c0 & c1 & c2 & c3 & c4 & c5 & c6 & c7 & _ & ->).
    destruct (IH (i + 1) rest
                (codes ++ [String c0 (String c1 (String c2 (String c3 (String c4
                  (String "-" (String c5 (String c6 (String c7 "00"))))))))])%list)
      as (out & tape' & E & Hout & Htape); [lia|].
    exists out, tape'. split; [exact E|]. rewrite Hout, Htape, length_app.
    cbn [List.length]. split; lia.
Qed.

(** The number of codes is as specified: [n] codes for a
    positive [n], ten otherwise, as long as the random source lasts. *)
Lemma GenerateBackupCodes_count count tape :
  let n := if count <=? 0 then 10%nat else Z.to_nat count in
  (5 * n <= List.length tape)%nat ->
  exists codes tape',
    GenerateBackupCodes count tape = (inl codes, tape') /\
    List.length codes = n.
Proof.
  intros n Hlen. unfold GenerateBackupCodes.
  assert (Z.to_nat (if count <=? 0 then 10 else count) = n) as ->.
  { unfold n. destruct (count <=? 0); reflexivity. }
  destruct (backupCodes_loop_length n 0 tape [] Hlen)
    as (out & tape' & E & Hout & _).
  exists out, tape'. split; [exact E|exact Hout].
Qed.

(** C9, on the code.  With the random bytes 00 00 00 00 00 the one code
    of [GenerateBackupCodes 1] is AAAAA-AAA00; and whatever the five
    random bytes are, the code has the shape of two groups of five joined
    by a dash, its first eight characters are base-32 characters, and its
    last two are the character 0, which is not a base-32 character. *)
Theorem backup_code_padded_with_zeros :
  GenerateBackupCodes 1 [x00; x00; x00; x00; x00] = (inl ["AAAAA-AAA00"], []) /\
  base32.in_alphabet "0" = false /\
  forall b0 b1 b2 b3 b4 rest,
  exists c0 c1 c2 c3 c4 c5 c6 c7,
    generateBackupCode (b0 :: b1 :: b2 :: b3 :: b4 :: rest) =
      (inl (String c0 (String c1 (String c2 (String c3 (String c4
           (String "-"
           (String c5 (String c6 (String c7 "00"))))))))), rest) /\
    forallb base32.in_alphabet [c0; c1; c2; c3; c4; c5; c6; c7] = true.
Proof.
  split; [vm_compute; reflexivity|]. split; [vm_compute; reflexivity|].
  intros b0 b1 b2 b3 b4 rest.
  destruct (generateBackupCode_five_bytes b0 b1 b2 b3 b4 rest)
    as (c0 & c1 & c2 & c3 & c4 & c5 & c6 & c7 & Hq & E).
  exists c0, c1, c2, c3, c4, c5, c6, c7. split; [exact E|].
  rewrite <- Hq. apply quantum_in_alphabet.
Qed.

End backup_code_facts.

(* ================================================================= *)
(** ** Login: the failure does not tell whether a user exists *)

Module login_facts.
Import pg storage spec grpc.

Lemma GetUserByUsername_unregistered fault db username :
  unregistered db username ->
  exists e, GetUserByUsername fault db username = inr e.
Proof.
  intros Hun. unfold GetUserByUsername, query_row.
  destruct fault as [fe|].
  - simpl. destruct fe; eauto.
  - assert (filter (fun r => String.eqb (Username r) username) (users db) = [])
      as ->; [|simpl; eauto].
    unfold unregistered in Hun. revert Hun.
    generalize (users db) as l.
    induction l as [|a l IH]; simpl; intros Hun; [reflexivity|].
    destruct (String.eqb_spec (Username a) username) as [E|E].
    + exfalso. apply (Hun a); [now left|exact E].
    + apply IH. intros u Hu. apply Hun. now right.
Qed.

Section Login.
Variable bcrypt : string -> string -> bool.

(** The two failures of the credential check give one answer. *)
Lemma Login_invalid_credentials s fault clk db req :
  pb.l_Username req <> "" -> pb.l_Password req <> "" ->
  unregistered db (pb.l_Username req) \/ wrong_password bcrypt fault db req ->
  Login bcrypt s fault clk db req
  = Status codes.Unauthenticated "invalid credentials".
Proof.
  intros Hu Hp Hcase. unfold Login.
  apply String.eqb_neq in Hu. apply String.eqb_neq in Hp. rewrite Hu, Hp.
  destruct Hcase as [Hun|[u [Hget Hpw]]].
  - destruct (GetUserByUsername_unregistered fault db _ Hun) as [e ->].
    reflexivity.
  - rewrite Hget, Hpw. reflexivity.
Qed.

(** Whatever the request, a failing login gives the same answer on any
    two user tables: the error depends on the request alone. *)
Lemma Login_error_independent_of_users s fault1 fault2 clk1 clk2 db1 db2 req c1 m1 c2 m2 :
  Login bcrypt s fault1 clk1 db1 req = Status c1 m1 ->
  Login bcrypt s fault2 clk2 db2 req = Status c2 m2 ->
  c1 = c2 /\ m1 = m2.
Proof.
  unfold Login.
  destruct (String.eqb (pb.l_Username req) ""); [intros H1 H2; split; congruence|].
  destruct (String.eqb (pb.l_Password req) ""); [intros H1 H2; split; congruence|].
  destruct (GetUserByUsername fault1 db1 _) as [u1|e1];
  destruct (GetUserByUsername fault2 db2 _) as [u2|e2];
  repeat match goal with
         | |- context [if negb ?b then _ else _] => destruct b; simpl negb; cbv iota
         | |- context [let '(_, _) := ?p in _] => destruct p
         end; intros H1 H2; try discriminate; split; congruence.
Qed.

End Login.

(** C10.  For login requests with a username and a password (the
    requests that reach the credential check), [Login] answers
    Unauthenticated "invalid credentials" both when the username is not
    registered and when it is registered but the password does not
    match; so any two such failing logins get the same response, and so
    they do over HTTP (401 "Login failed").  Moreover the error of a
    failing login never depends on the user table: for one and the same
    request, any two failing runs answer alike. *)
Theorem Login_failure_indistinguishable :
  forall (bcrypt : string -> string -> bool) (s : Server),
    (forall fault clk db req,
        pb.l_Username req <> "" -> pb.l_Password req <> "" ->
        unregistered db (pb.l_Username req) \/ wrong_password bcrypt fault db req ->
        Login bcrypt s fault clk db req
        = Status codes.Unauthenticated "invalid credentials") /\
    (forall fault1 clk1 db1 req1 fault2 clk2 db2 req2,
        pb.l_Username req1 <> "" -> pb.l_Password req1 <> "" ->
        pb.l_Username req2 <> "" -> pb.l_Password req2 <> "" ->
        unregistered db1 (pb.l_Username req1) ->
        wrong_password bcrypt fault2 db2 req2 ->
        Login bcrypt s fault1 clk1 db1 req1 = Login bcrypt s fault2 clk2 db2 req2) /\
    (forall fault clk db body,
        govalidator.Struct_AuthRequest (validator s) body = true ->
        a_Username body <> "" -> a_Password body <> "" ->
        let req := pb.mkLoginRequest (a_Username body) (a_Password body) in
        unregistered db (a_Username body) \/ wrong_password bcrypt fault db req ->
        HandleLogin bcrypt s fault clk db (Some body)
        = HttpError 401 "Login failed") /\
    (forall fault1 fault2 clk1 clk2 db1 db2 req c1 m1 c2 m2,
        Login bcrypt s fault1 clk1 db1 req = Status c1 m1 ->
        Login bcrypt s fault2 clk2 db2 req = Status c2 m2 ->
        c1 = c2 /\ m1 = m2).
Proof.
  intros bcrypt s. split; [|split; [|split]].
  - intros. now apply Login_invalid_credentials.
  - intros fault1 clk1 db1 req1 fault2 clk2 db2 req2 Hu1 Hp1 Hu2 Hp2 H1 H2.
    rewrite !Login_invalid_credentials; auto.
  - intros fault clk db body Hval Hu Hp req Hcase.
    unfold HandleLogin. rewrite Hval. simpl negb. cbv iota.
    fold req. rewrite Login_invalid_credentials; auto.
  - intros. eapply Login_error_independent_of_users; eauto.
Qed.

End login_facts.

(* ================================================================= *)
(** ** The bytes of the secret body *)

Module ciphertext_facts.
Import pg storage spec tables update_facts create_facts isolation_facts.
Import grpc.

(** [EncryptLargeData] never returns its input: the result is longer. *)
Lemma EncryptLargeData_longer P0 s tape data c tape' :
  crypto.lawful P0 ->
  crypto.EncryptLargeData P0 s tape data = (inl c, tape') ->
  (List.length data < List.length c)%nat.
Proof.
  intros [Hrsa Hgcm]. unfold crypto.EncryptLargeData.
  destruct (List.length data <=? crypto.MaxRSABlockSize)%nat.
  - unfold crypto.EncryptRSA.
    destruct (crypto.rsa_EncryptOAEP P0 (crypto.publicKey s) tape data)
      as [[c0|e] t] eqn:E; [|discriminate].
    intros H. injection H as <- <-.
    destruct (Hrsa _ _ _ _ _ E) as [H1 H2]. lia.
  - destruct (crypto.GenerateAESKey tape) as [[aesKey|e] t1]; [|discriminate].
    unfold crypto.EncryptAES.
    destruct (rand.Read 12 t1) as [[nonce t2]|]; [|discriminate].
    destruct (crypto.EncryptRSA P0 s t2 aesKey) as [[encryptedKey|e] t3];
      [|discriminate].
    intros H. injection H as <- <-.
    cbn [List.length]. rewrite !length_app, Hgcm. lia.
Qed.

Lemma EncryptLargeData_differs P0 s tape data c tape' :
  crypto.lawful P0 ->
  crypto.EncryptLargeData P0 s tape data = (inl c, tape') ->
  c <> data.
Proof.
  intros Hlaw H Heq. apply (EncryptLargeData_longer _ _ _ _ _ _ Hlaw) in H.
  subst c. lia.
Qed.

(** An accepted RPC create stored the bytes of the request. *)
Lemma CreateData_stores_request ctx P fault id now db req resp db' :
  UserIDKey ctx = Some (CtxUUID P) ->
  CreateData ctx fault id now db req = (Reply resp, db') ->
  pb.EncryptedData (pb.DataEntry_ resp) = pb.c_EncryptedData req /\
  exists e, GetDataEntry None db' P id = inl e /\
            EncryptedData e = pb.c_EncryptedData req.
Proof.
  intros Hctx. unfold CreateData, getUserIDFromContext. rewrite Hctx. simpl.
  destruct (String.eqb (pb.c_Name req) ""); [discriminate|].
  destruct (List.length (pb.c_EncryptedData req) =? 0)%nat; [discriminate|].
  destruct (String.eqb (convertProtoDataType (pb.c_Type req)) ""); [discriminate|].
  match goal with
  | |- context [CreateDataEntry fault id now db ?e] =>
      destruct (CreateDataEntry fault id now db e) as [[e' oerr] db1] eqn:E
  end.
  destruct oerr as [err|].
  - destruct (String.eqb (Error err) _); discriminate.
  - intros H. injection H as <- <-.
    destruct (CreateDataEntry_then_GetDataEntry _ _ _ _ _ _ _ E) as [Hget [He' _]].
    simpl in Hget, He'. subst e'. simpl. split; [reflexivity|].
    eexists. split; [exact Hget|reflexivity].
Qed.

(** An accepted RPC update stored the bytes of the request. *)
Lemma UpdateData_stores_request ctx P f_get f_update dn n db req id resp db' :
  UserIDKey ctx = Some (CtxUUID P) ->
  uuid.Parse (pb.up_Id req) = Some id ->
  pk_data_entries db ->
  UpdateData ctx f_get f_update dn n db req = (Reply resp, db') ->
  pb.EncryptedData (pb.DataEntry_ resp) = pb.up_EncryptedData req /\
  exists e, stored db' id = Some e /\ UserID e = P /\
            EncryptedData e = pb.up_EncryptedData req.
Proof.
  intros Hctx Hid Hpk. unfold UpdateData, getUserIDFromContext.
  rewrite Hctx. simpl. rewrite Hid.
  destruct (GetDataEntry f_get db P id) as [e0|err] eqn:G; [|discriminate].
  destruct (GetDataEntry_owner _ _ _ _ _ G) as [Hown [Hid0 Hin]].
  match goal with
  | |- context [UpdateDataEntry f_update dn n db ?e] =>
      destruct (UpdateDataEntry f_update dn n db e) as [[e' oerr] db1] eqn:E
  end.
  destruct oerr as [err|]; [discriminate|].
  intros H. injection H as <- <-.
  assert (stored db id = Some e0) as Hst
    by (apply (find_key_In ID); auto).
  pose proof E as E'. unfold UpdateDataEntry in E'.
  destruct (update_data_entry _ _ _ _ _ _ _ _ _ _) as [x|rows dbx];
    [exfalso; revert E'; exec_error_absurd|].
  destruct (rows =? 0); [discriminate|]. injection E' as <- _.
  simpl. split; [reflexivity|].
  assert (stored db (ID e0) = Some e0) as Hst' by (rewrite Hid0; exact Hst).
  pose proof (fun Hs => UpdateDataEntry_increments _ _ _ _ _ _ _ e0 Hpk Hs E)
    as Hinc.
  destruct (Hinc Hst') as [_ [_ Hr]].
  simpl in Hr. rewrite Hid0 in Hr.
  eexists. split; [exact Hr|]. simpl. auto.
Qed.


(** [HandleCreateData] called with a context that holds the principal
    under [grpc.UserIDKey] (no route of the server calls it so, see
    [http_routes_accept_nothing]): a result carries, and the table holds,
    the encryption of the [data] of the body. *)
Lemma HandleCreateData_stores_encryption P0 s ctx P tape fault id now db body resp db' :
  UserIDKey ctx = Some (CtxUUID P) ->
  HandleCreateData P0 s ctx tape fault id now db (Some body) = (HttpJSON resp, db') ->
  exists data c tape',
    cr_Data body = JString data /\
    crypto.EncryptLargeData P0 (cryptoService s) tape (list_byte_of_string data)
      = (inl c, tape') /\
    pb.EncryptedData (pb.DataEntry_ resp) = c /\
    (exists e, GetDataEntry None db' P id = inl e /\ EncryptedData e = c) /\
    (crypto.lawful P0 -> c <> list_byte_of_string data).
Proof.
  intros Hctx. unfold HandleCreateData.
  destruct (govalidator.Struct_CreateDataRequest (validator s) body);
    simpl negb; cbv iota; [|discriminate].
  destruct (snd (getUserIDFromContext ctx)); simpl negb; cbv iota; [|discriminate].
  destruct (cr_Data body) as [|data|]; try discriminate.
  destruct (crypto.EncryptLargeData P0 (cryptoService s) tape
              (list_byte_of_string data)) as [[c|e] tape'] eqn:Henc;
    [|discriminate].
  match goal with
  | |- context [CreateData ctx fault id now db ?r] =>
      destruct (CreateData ctx fault id now db r) as [[resp0|cd m] db1] eqn:E
  end; [|discriminate].
  intros H. injection H as <- <-.
  destruct (CreateData_stores_request _ _ _ _ _ _ _ _ _ Hctx E) as [H1 H2].
  exists data, c, tape'. repeat split; auto.
  intros Hlaw. eapply EncryptLargeData_differs; eauto.
Qed.

(** [HandleUpdateData] called with such a context, likewise. *)
Lemma HandleUpdateData_stores_encryption P0 s ctx P tape f_get f_update dn n db idstr id body resp db' :
  UserIDKey ctx = Some (CtxUUID P) ->
  uuid.Parse idstr = Some id ->
  pk_data_entries db ->
  HandleUpdateData P0 s ctx tape f_get f_update dn n db idstr (Some body)
    = (HttpJSON resp, db') ->
  exists data c tape',
    ur_Data body = JString data /\
    crypto.EncryptLargeData P0 (cryptoService s) tape (list_byte_of_string data)
      = (inl c, tape') /\
    pb.EncryptedData (pb.DataEntry_ resp) = c /\
    (exists e, stored db' id = Some e /\ EncryptedData e = c) /\
    (crypto.lawful P0 -> c <> list_byte_of_string data).
Proof.
  intros Hctx Hid Hpk. unfold HandleUpdateData.
  destruct (String.eqb idstr ""); [discriminate|].
  destruct (govalidator.Struct_UpdateDataRequest (validator s) body);
    simpl negb; cbv iota; [|discriminate].
  destruct (ur_Data body) as [|data|]; try discriminate.
  destruct (crypto.EncryptLargeData P0 (cryptoService s) tape
              (list_byte_of_string data)) as [[c|e] tape'] eqn:Henc;
    [|discriminate].
  remember (pb.mkUpdateDataRequest idstr (ur_Name body) (ur_Description body)
              c (ur_Metadata body) (ur_Version body)) as greq eqn:Hgreq.
  assert (uuid.Parse (pb.up_Id greq) = Some id) as Hid'
    by (subst greq; exact Hid).
  assert (pb.up_EncryptedData greq = c) as Hc by (subst greq; reflexivity).
  clear Hgreq.
  destruct (UpdateData ctx f_get f_update dn n db greq) as [[resp0|cd m] db1] eqn:E;
    [|discriminate].
  intros H. injection H as <- <-.
  destruct (UpdateData_stores_request ctx P f_get f_update dn n db greq id
              resp0 db1 Hctx Hid' Hpk E) as [H1 [e [H2 [_ H3]]]].
  exists data, c, tape'. rewrite Hc in H1, H3. repeat split; eauto.
  intros Hlaw. eapply EncryptLargeData_differs; eauto.
Qed.

(** On the routes of the server, the HTTP handlers for create and update
    accept nothing: the middleware leaves the principal under its own
    context key, where [getUserIDFromContext] does not look. *)
Lemma http_routes_accept_nothing P0 s now_mw hdr tape :
  (forall fault id now db body,
      snd (route_POST_data P0 s now_mw hdr tape fault id now db body) = db /\
      forall resp,
        fst (route_POST_data P0 s now_mw hdr tape fault id now db body)
        <> HttpJSON resp) /\
  (forall f_get f_update dn n db idstr body,
      snd (route_PUT_data P0 s now_mw hdr tape f_get f_update dn n db idstr body)
        = db /\
      forall resp,
        fst (route_PUT_data P0 s now_mw hdr tape f_get f_update dn n db idstr body)
        <> HttpJSON resp).
Proof.
  split.
  - intros fault id now db body. unfold route_POST_data.
    destruct (middleware.AuthMiddleware _ _ _ _) as [st m|ctx] eqn:M;
      [split; [reflexivity|discriminate]|].
    assert (UserIDKey ctx = None) as Hk.
    { revert M. unfold middleware.AuthMiddleware.
      destruct hdr as [|w|scheme token]; try discriminate.
      destruct (negb _); [discriminate|].
      destruct (auth.ValidateToken _ _ _); [|discriminate].
      intros Hnext. injection Hnext as <-. reflexivity. }
    unfold HandleCreateData, getUserIDFromContext. rewrite Hk.
    destruct body as [req|]; [|split; [reflexivity|discriminate]].
    destruct (govalidator.Struct_CreateDataRequest _ _); simpl;
      split; try reflexivity; discriminate.
  - intros f_get f_update dn n db idstr body. unfold route_PUT_data.
    destruct (middleware.AuthMiddleware _ _ _ _) as [st m|ctx] eqn:M;
      [split; [reflexivity|discriminate]|].
    assert (UserIDKey ctx = None) as Hk.
    { revert M. unfold middleware.AuthMiddleware.
      destruct hdr as [|w|scheme token]; try discriminate.
      destruct (negb _); [discriminate|].
      destruct (auth.ValidateToken _ _ _); [|discriminate].
      intros Hnext. injection Hnext as <-. reflexivity. }
    unfold HandleUpdateData.
    destruct (String.eqb idstr ""); [split; [reflexivity|discriminate]|].
    destruct body as [req|]; [|split; [reflexivity|discriminate]].
    destruct (govalidator.Struct_UpdateDataRequest _ _); simpl negb; cbv iota;
      [|split; [reflexivity|discriminate]].
    destruct (ur_Data req); try (split; [reflexivity|discriminate]).
    destruct (crypto.EncryptLargeData _ _ _ _) as [[c|e] t];
      [|split; [reflexivity|discriminate]].
    unfold UpdateData, getUserIDFromContext. rewrite Hk. simpl.
    split; [reflexivity|discriminate].
Qed.

Lemma sample_primitives_lawful : crypto.lawful examples.sample_primitives.
Proof.
  split.
  - intros pub tape msg c tape'. simpl.
    destruct (Nat.leb_spec (List.length msg + 66) (crypto.Size pub)) as [Hle|Hgt];
      [|discriminate].
    intros Hc. injection Hc as <- _.
    rewrite length_app, repeat_length. lia.
  - intros key nonce plaintext. cbn [crypto.gcm_Seal examples.sample_primitives].
    now rewrite length_app, repeat_length.
Qed.


End ciphertext_facts.

(* ================================================================= *)
(** ** The theorems at work on the sample data *)

Module sample_runs.
Import pg storage spec tables grpc examples.

Lemma db0_pk : pk_data_entries db0.
Proof.
  unfold pk_data_entries. simpl.
  constructor; [intros H; exact H|constructor].
Defined.

(** Two updates of alice's note, expecting versions 1 and 2, bring the
    stored version from 1 to 3; an update expecting version 1 is then
    stale. *)
Lemma UpdateDataEntry_version_chain_witness :
  (exists db2 r',
      run_updates db0 [update_1; update_2] = Some db2 /\
      stored db2 note_id = Some r' /\ Version r' = 3) /\
  (exists err, call_update db0 update_stale = (uc_entry update_stale, Some err, db0)).
Proof.
  destruct (update_facts.UpdateDataEntry_version_chain db0 note_id alice note
              db0_pk eq_refl) as [Hrun Hstale].
  split.
  - destruct (run_updates db0 [update_1; update_2]) as [db2|] eqn:E;
      [|vm_compute in E; discriminate].
    destruct (Hrun [update_1; update_2] db2) as [r' [Hr Hv]].
    + repeat constructor.
    + exact E.
    + exists db2, r'. split; [reflexivity|]. split; [exact Hr|exact Hv].
  - destruct (Hstale update_stale) as [err [E _]].
    + split; reflexivity.
    + simpl. discriminate.
    + exists err. exact E.
Defined.

(** Alice deletes her note: the row is gone and the tombstone is there. *)
Lemma DeleteDataEntry_atomic_witness :
  exists db',
    DeleteDataEntry no_faults 5000 db0 alice note_id = (None, db') /\
    stored db' note_id = None /\
    tombstone db' note_id = Some (mkDeletedEntry note_id alice 5000).
Proof.
  destruct (DeleteDataEntry no_faults 5000 db0 alice note_id) as [oerr db'] eqn:E.
  destruct (delete_facts.DeleteDataEntry_atomic no_faults 5000 db0 alice note_id
              db0_pk oerr db' E) as (_ & _ & Hlive & Hok & _).
  assert (oerr = None) as -> by (apply Hlive; reflexivity).
  destruct (Hok eq_refl) as (_ & _ & _ & _ & Hgone & Hstone).
  exists db'. split; [reflexivity|]. split; [exact Hgone|exact Hstone].
Defined.


(** Bob asks for alice's note, and for an identifier nobody has. *)
Lemma owner_isolation_witness :
  GetData ctx_bob None db0 (pb.mkGetDataRequest (uuid.String_ note_id)) =
    Status codes.NotFound "data entry not found" /\
  GetData ctx_bob None db0 (pb.mkGetDataRequest (uuid.String_ 8%N)) =
    Status codes.NotFound "data entry not found".
Proof.
  destruct (isolation_facts.owner_isolation ctx_bob bob eq_refl) as [Hget _].
  split.
  - apply (Hget None db0 _ note_id); [reflexivity|exact db0_pk|].
    right. exists note. split; [reflexivity|discriminate].
  - apply (Hget None db0 _ 8%N); [reflexivity|exact db0_pk|].
    left. reflexivity.
Defined.

(** Alice's stale update over RPC. *)
Lemma lost_update_status_witness :
  UpdateData ctx_alice None None 3000 3001 db0
    (pb.mkUpdateDataRequest (uuid.String_ note_id) "note-1" "" [x03] "m" 5)
  = (Status codes.Internal "failed to update data entry", db0).
Proof.
  destruct (update_status_facts.lost_update_status ctx_alice alice db0 note_id
              note eq_refl db0_pk eq_refl eq_refl) as [Hrpc _].
  destruct (Hrpc None None 3000 3001
              (pb.mkUpdateDataRequest (uuid.String_ note_id) "note-1" "" [x03] "m" 5))
    as [E _].
  - reflexivity.
  - simpl. discriminate.
  - exact E.
Defined.



(** A login of an unknown user and a login of alice with a wrong
    password. *)
Lemma Login_failure_indistinguishable_witness :
  Login sample_bcrypt sample_server None (auth.mkGenClock 0 0 0) db0
    (pb.mkLoginRequest "carol" "hunter22")
  = Status codes.Unauthenticated "invalid credentials" /\
  Login sample_bcrypt sample_server None (auth.mkGenClock 0 0 0) db0
    (pb.mkLoginRequest "alice" "letmein")
  = Status codes.Unauthenticated "invalid credentials".
Proof.
  destruct (login_facts.Login_failure_indistinguishable sample_bcrypt sample_server)
    as [H _].
  split; apply H; try discriminate.
  - left. intros u [<-|[<-|[]]]; discriminate.
  - right. exists alice_user. split; reflexivity.
Defined.

End sample_runs.

(* ================================================================= *)
(** ** More definitions on small inputs *)

Module unit_checks_accounts.
Import pg storage spec grpc examples.

Example Atoi_values :
  strconv.Atoi "42" = Some 42 /\ strconv.Atoi "-7" = Some (-7) /\
  strconv.Atoi "+5" = Some 5 /\ strconv.Atoi "" = None /\
  strconv.Atoi "-" = None /\ strconv.Atoi "1_000" = None /\
  strconv.Atoi "12a" = None /\
  strconv.Atoi "9223372036854775807" = Some int64_max /\
  strconv.Atoi "9223372036854775808" = None /\
  strconv.Atoi "-9223372036854775808" = Some int64_min.
Proof. repeat split; reflexivity. Qed.

Example ParseBool_values :
  strconv.ParseBool "1" = Some true /\ strconv.ParseBool "True" = Some true /\
  strconv.ParseBool "F" = Some false /\ strconv.ParseBool "yes" = None /\
  strconv.ParseBool "" = None.
Proof. repeat split; reflexivity. Qed.

(** The padded encoding on the test vectors of RFC 4648. *)
Example base32_padded :
  base32.EncodeToString (list_byte_of_string "") = "" /\
  base32.EncodeToString (list_byte_of_string "f") = "MY======" /\
  base32.EncodeToString (list_byte_of_string "fo") = "MZXQ====" /\
  base32.EncodeToString (list_byte_of_string "foo") = "MZXW6===" /\
  base32.EncodeToString (list_byte_of_string "foob") = "MZXW6YQ=" /\
  base32.EncodeToString (list_byte_of_string "fooba") = "MZXW6YTB" /\
  base32.EncodeToString (list_byte_of_string "foobar") = "MZXW6YTBOI======".
Proof. repeat split; reflexivity. Qed.

Example GetTimeRemaining_values :
  otp.GetTimeRemaining 0 = 30 /\
  otp.GetTimeRemaining (29 * Second + 999999999) = 1 /\
  otp.GetTimeRemaining (30 * Second) = 30 /\
  otp.GetTimeRemaining (- 1) = 31.
Proof. repeat split; reflexivity. Qed.

(** The four bytes in front of the hybrid format, read back. *)
Example keySize_of_256 :
  crypto.keySize_of [x00; x00; x01; x00; xff] = 256 /\
  crypto.keySize_of
    [crypto.byte_shr 256 24; crypto.byte_shr 256 16; crypto.byte_shr 256 8;
     crypto.byte_shr 256 0] = 256.
Proof. split; reflexivity. Qed.

Example DecryptAES_rejects :
  crypto.DecryptAES framed_openers (repeat x00 11) (repeat x01 32)
  = inr (ErrNew "ciphertext too short") /\
  crypto.DecryptAES framed_openers (repeat x00 40) (repeat x01 31)
  = inr (ErrWrap "failed to create cipher"
           (ErrNew "crypto/aes: invalid key size 31")).
Proof. split; reflexivity. Qed.

(** A registration, a second one under the same name, and a login. *)
Example register_twice_then_login :
  let req := pb.mkRegisterRequest "carol" "correct horse" in
  let clk := auth.mkGenClock 2000 2000 2000 in
  let first := Register plain_generate sample_server [] None 3%N 2000 clk db0 req in
  let second :=
    Register plain_generate sample_server [] None 4%N 2500 clk (snd first) req in
  users (snd first)
  = [alice_user; bob_user;
     models.mkUser 3%N "carol" "hash-of-correct horse" 2000 2000] /\
  second = (Status codes.Internal "failed to create user", snd first) /\
  Login plain_compare sample_server None clk (snd first)
    (pb.mkLoginRequest "carol" "wrong horse")
  = Status codes.Unauthenticated "invalid credentials".
Proof. vm_compute. repeat split. Qed.

Example register_short_name :
  Register plain_generate sample_server [] None 3%N 2000
    (auth.mkGenClock 2000 2000 2000) db0 (pb.mkRegisterRequest "al" "hunter22")
  = (Status codes.InvalidArgument "username must be at least 3 characters", db0).
Proof. reflexivity. Qed.

(** Every request on a protected HTTP route ends in an error, with a
    valid token too. *)
Example http_get_with_valid_token :
  let s := authService sample_server in
  let token := fst (auth.GenerateToken s (auth.mkGenClock 0 0 0) alice "alice") in
  route_GET_data_id sample_server 10 (middleware.TwoParts "Bearer" token) None
    db0 (uuid.String_ note_id)
  = HttpError 500 "Failed to get data" /\
  route_GET_data_id sample_server 10 middleware.NoAuthorization None db0
    (uuid.String_ note_id)
  = HttpError 401 "Authorization header required".
Proof. vm_compute. split; reflexivity. Qed.

Example config_from_environment :
  config.LoadServerConfig
    (config.mkFlags None None None None None None None None None None)
    (fun v => if String.eqb v "DATABASE_URI" then "postgres://db"
              else if String.eqb v "JWT_SECRET" then "s"
              else if String.eqb v "ENCRYPTION_KEY" then "k"
              else if String.eqb v "ENABLE_TLS" then "true"
              else "")
  = inr (ErrWrap "invalid configuration"
           (ErrNew "TLS certificate file is required when TLS is enabled")).
Proof. reflexivity. Qed.

End unit_checks_accounts.

(* ================================================================= *)
(** ** crypto.go: what is encrypted can be decrypted *)

Module decrypt_facts.
Import crypto.

Lemma Read_Some n tape buf tape' :
  rand.Read n tape = Some (buf, tape') ->
  List.length buf = n /\ tape = (buf ++ tape')%list.
Proof.
  unfold rand.Read. destruct (Nat.ltb_spec (List.length tape) n) as [Hlt|Hge];
    [discriminate|].
  intros H. injection H as <- <-. split.
  - apply List.firstn_length_le. exact Hge.
  - symmetry. apply firstn_skipn.
Qed.

Lemma firstn_app_exact {A} (l1 l2 : list A) n :
  List.length l1 = n -> firstn n (l1 ++ l2) = l1.
Proof.
  intros <-. rewrite firstn_app, Nat.sub_diag, firstn_all. simpl.
  apply app_nil_r.
Qed.

Lemma skipn_app_exact {A} (l1 l2 : list A) n :
  List.length l1 = n -> skipn n (l1 ++ l2) = l2.
Proof.
  intros <-. rewrite skipn_app, Nat.sub_diag, skipn_all. reflexivity.
Qed.

(** [DecryptAES] undoes [EncryptAES]. *)
Lemma DecryptAES_inverts P O tape data key c tape' :
  opens P O -> aes_key_ok key = true ->
  EncryptAES P tape data key = (inl c, tape') ->
  DecryptAES O c key = inl data.
Proof.
  intros [_ Hgcm] Hkey. unfold EncryptAES.
  destruct (rand.Read 12 tape) as [[nonce t1]|] eqn:R; [|discriminate].
  intros Hc. injection Hc as <- _.
  apply Read_Some in R as [Hn _].
  unfold DecryptAES. rewrite Hkey. cbn [negb].
  rewrite List.length_app, Hn.
  destruct (Nat.ltb_spec (12 + List.length (gcm_Seal P key nonce data)) 12)
    as [Hlt|_]; [lia|].
  rewrite firstn_app_exact, skipn_app_exact by exact Hn.
  rewrite Hgcm by exact Hn. reflexivity.
Qed.

(** The bytes [byte(n >> k)] that [EncryptLargeData] writes. *)
Lemma byte_int_byte_shr n k :
  byte_int (byte_shr n k)
  = Z.shiftr (Z.of_nat n) (Z.of_N k) mod 2 ^ 8.
Proof.
  unfold byte_int, byte_shr.
  destruct (Byte.of_N (N.shiftr (N.of_nat n) k mod 256)) as [b|] eqn:E.
  - apply Byte.to_of_N in E. rewrite E.
    rewrite N2Z.inj_mod, N2Z.inj_shiftr, nat_N_Z. reflexivity.
  - apply Byte.of_N_None_iff in E.
    pose proof (N.mod_upper_bound (N.shiftr (N.of_nat n) k) 256). lia.
Qed.

Lemma be32_bytes z :
  0 <= z < 2 ^ 32 ->
  Z.lor (Z.shiftl (Z.shiftr z 24 mod 2 ^ 8) 24)
 (Z.lor (Z.shiftl (Z.shiftr z 16 mod 2 ^ 8) 16)
 (Z.lor (Z.shiftl (Z.shiftr z 8 mod 2 ^ 8) 8)
        (Z.shiftr z 0 mod 2 ^ 8))) = z.
Proof.
  intros Hz. apply Z.bits_inj'. intros i Hi.
  rewrite !Z.lor_spec, !Z.shiftl_spec by lia.
  assert (forall k j, 0 <= k ->
             Z.testbit (Z.shiftr z k mod 2 ^ 8) j
             = if (0 <=? j) && (j <? 8) then Z.testbit z (j + k) else false)
    as Hbit.
  { intros k j Hk.
    destruct (Z.leb_spec 0 j) as [H0|H0]; cbn [andb].
    - destruct (Z.ltb_spec j 8) as [H8|H8].
      + rewrite Z.mod_pow2_bits_low by lia. apply Z.shiftr_spec. lia.
      + apply Z.mod_pow2_bits_high. lia.
    - apply Z.testbit_neg_r. lia. }
  rewrite !Hbit by lia.
  assert (32 <= i -> Z.testbit z i = false) as Hhigh.
  { intros H32. destruct (Z.eq_dec z 0) as [->|Hnz]; [apply Z.bits_0|].
    apply Z.bits_above_log2; [lia|].
    assert (Z.log2 z < 32) by (apply Z.log2_lt_pow2; lia). lia. }
  destruct (Z.ltb_spec (i - 24) 8), (Z.leb_spec 0 (i - 24)),
           (Z.ltb_spec (i - 16) 8), (Z.leb_spec 0 (i - 16)),
           (Z.ltb_spec (i - 8) 8), (Z.leb_spec 0 (i - 8)),
           (Z.ltb_spec i 8), (Z.leb_spec 0 i);
    cbn [andb orb]; try lia;
    rewrite ?orb_false_r, ?orb_false_l;
    try (f_equal; lia); try (symmetry; apply Hhigh; lia).
Qed.

Lemma keySize_of_header n rest :
  Z.of_nat n < 2 ^ 32 ->
  keySize_of (byte_shr n 24 :: byte_shr n 16 :: byte_shr n 8 :: byte_shr n 0
              :: rest) = Z.of_nat n.
Proof.
  intros Hn. unfold keySize_of. cbn [nth].
  rewrite !byte_int_byte_shr. apply be32_bytes. lia.
Qed.

(** The stand-ins of the examples obey both sets of laws. *)
Lemma framed_lawful : lawful examples.framed_primitives.
Proof.
  split.
  - intros pub tape msg c tape'. simpl.
    destruct (Byte.of_N (N.of_nat (List.length msg))) as [b|]; [|discriminate].
    destruct (Nat.leb_spec (List.length msg + 66) (Size pub)) as [Hle|Hgt];
      [|discriminate].
    intros Hc. injection Hc as <- _. split; [|exact Hle].
    cbn [List.length]. rewrite List.length_app, repeat_length. lia.
  - intros key nonce plaintext.
    cbn [gcm_Seal examples.framed_primitives].
    rewrite List.length_app, repeat_length. reflexivity.
Defined.

Lemma framed_opens : opens examples.framed_primitives examples.framed_openers.
Proof.
  split.
  - intros priv tape msg c tape'. simpl.
    destruct (Byte.of_N (N.of_nat (List.length msg))) as [b|] eqn:B;
      [|discriminate].
    destruct (Nat.leb_spec (List.length msg + 66) (Size (priv_PublicKey priv)))
      as [Hle|Hgt]; [|discriminate].
    intros Hc. injection Hc as <- _.
    apply Byte.to_of_N in B.
    assert (N.to_nat (Byte.to_N b) = List.length msg) as Hb
      by (rewrite B; apply Nat2N.id).
    cbn [List.length]. rewrite List.length_app, repeat_length.
    replace (S (List.length msg + (Size (priv_PublicKey priv) - 1 - List.length msg)))
      with (Size (priv_PublicKey priv)) by lia.
    rewrite Nat.eqb_refl, Hb.
    destruct (Nat.leb_spec (List.length msg + 66) (Size (priv_PublicKey priv)))
      as [_|Hgt]; [|lia].
    rewrite firstn_app_exact by reflexivity. reflexivity.
  - intros key nonce plaintext _.
    cbn [gcm_Seal gcm_Open examples.framed_primitives examples.framed_openers].
    rewrite List.length_app, repeat_length.
    destruct (Nat.leb_spec 16 (List.length plaintext + 16)) as [_|Hgt]; [|lia].
    replace (List.length plaintext + 16 - 16)%nat with (List.length plaintext)
      by lia.
    rewrite firstn_app_exact by reflexivity. reflexivity.
Defined.

(** X1 ([EncryptAES], [DecryptAES]).  For a key of 16, 24 or 32 bytes,
    what [EncryptAES] returns is the 12 bytes it drew from the random
    source followed by the sealed data, and [DecryptAES] with the same
    key gives the data back. *)
Theorem DecryptAES_EncryptAES P O tape data key c tape' :
  opens P O -> aes_key_ok key = true ->
  EncryptAES P tape data key = (inl c, tape') ->
  DecryptAES O c key = inl data /\
  c = (firstn 12 tape ++ gcm_Seal P key (firstn 12 tape) data)%list /\
  tape' = skipn 12 tape.
Proof.
  intros Hopen Hkey Henc. split.
  - eapply DecryptAES_inverts; eassumption.
  - revert Henc. unfold EncryptAES, rand.Read.
    destruct (List.length tape <? 12)%nat; [discriminate|].
    intros Hc. injection Hc as <- <-. split; reflexivity.
Qed.

Lemma DecryptAES_EncryptAES_witness :
  exists c,
    EncryptAES examples.framed_primitives (repeat x07 12 ++ [x01])%list
               [x68; x69] (repeat x2a 32) = (inl c, [x01]) /\
    DecryptAES examples.framed_openers c (repeat x2a 32) = inl [x68; x69].
Proof.
  destruct (EncryptAES examples.framed_primitives (repeat x07 12 ++ [x01])%list
              [x68; x69] (repeat x2a 32)) as [[c|e] tape'] eqn:E;
    [|vm_compute in E; discriminate].
  destruct (DecryptAES_EncryptAES _ _ _ _ (repeat x2a 32) _ _ framed_opens
              eq_refl E)
    as (Hdec & _ & ->).
  exists c. split; [reflexivity|exact Hdec].
Defined.

(** X2 ([EncryptLargeData], [DecryptLargeData]).  Data of more than 190
    bytes take the hybrid path: a fresh AES key seals the data, RSA wraps
    the key, and the length of the wrapped key goes in front in four
    bytes.  When the service holds the two halves of one key pair,
    [DecryptLargeData] gives the data back. *)
Theorem DecryptLargeData_EncryptLargeData_hybrid P O s priv tape data c tape' :
  lawful P -> opens P O ->
  publicKey s = priv_PublicKey priv ->
  Z.of_nat (Size (publicKey s)) < 2 ^ 32 ->
  (MaxRSABlockSize < List.length data)%nat ->
  EncryptLargeData P s tape data = (inl c, tape') ->
  DecryptLargeData O priv c = inl data.
Proof.
  intros [Hlen _] Hopen Hpub Hsize Hlong. unfold EncryptLargeData.
  destruct (Nat.leb_spec (List.length data) MaxRSABlockSize) as [Hle|_]; [lia|].
  unfold GenerateAESKey.
  destruct (rand.Read AESKeySize tape) as [[aesKey t1]|] eqn:R; [|discriminate].
  apply Read_Some in R as [Hk _].
  destruct (EncryptAES P t1 data aesKey) as [[encryptedData|e] t2] eqn:A;
    [|discriminate].
  unfold EncryptRSA.
  destruct (rsa_EncryptOAEP P (publicKey s) t2 aesKey)
    as [[encryptedKey|e] t3] eqn:E; [|discriminate].
  intros Hc. injection Hc as <- _.
  destruct (Hlen _ _ _ _ _ E) as [Hn _].
  assert (aes_key_ok aesKey = true) as Hkey
    by (unfold aes_key_ok; rewrite Hk; reflexivity).
  pose proof (DecryptAES_inverts _ _ _ _ _ _ _ Hopen Hkey A) as Hdata.
  destruct Hopen as [Hrsa _]. rewrite Hpub in E. apply Hrsa in E.
  unfold DecryptLargeData.
  remember (List.length encryptedKey) as n eqn:Hn'.
  rewrite keySize_of_header by lia.
  cbn [List.length]. rewrite List.length_app, <- Hn'.
  destruct (Nat.ltb_spec (S (S (S (S (n + List.length encryptedData))))) 4)
    as [Hlt|_]; [lia|].
  destruct (Z.ltb_spec
              (Z.of_nat (S (S (S (S (n + List.length encryptedData))))))
              (4 + Z.of_nat n)) as [Hlt|_]; [lia|].
  rewrite Nat2Z.id. change (4 + n)%nat with (S (S (S (S n)))).
  cbn [skipn].
  rewrite firstn_app_exact, skipn_app_exact by (symmetry; exact Hn').
  unfold DecryptRSA. rewrite E, Hdata. reflexivity.
Qed.

Lemma DecryptLargeData_EncryptLargeData_hybrid_witness :
  exists c tape',
    EncryptLargeData examples.framed_primitives
      (mkService examples.sample_key) (repeat x07 44) (repeat x61 191)
    = (inl c, tape') /\
    DecryptLargeData examples.framed_openers examples.sample_private_key c
    = inl (repeat x61 191).
Proof.
  destruct (EncryptLargeData examples.framed_primitives
              (mkService examples.sample_key) (repeat x07 44) (repeat x61 191))
    as [[c|e] tape'] eqn:E; [|vm_compute in E; discriminate].
  exists c, tape'. split; [reflexivity|].
  apply (DecryptLargeData_EncryptLargeData_hybrid
           examples.framed_primitives examples.framed_openers
           (mkService examples.sample_key) examples.sample_private_key
           (repeat x07 44) (repeat x61 191) c tape'
           framed_lawful framed_opens eq_refl);
    [vm_compute; reflexivity|vm_compute; lia|exact E].
Defined.

(** X3 ([EncryptLargeData], [DecryptLargeData]).  Data of at most 190
    bytes become one RSA block.  [DecryptLargeData] opens it as such, and
    gives the data back, when its first four bytes read as a key length
    do not fit into the block, which is the test the code makes
    ([len(ciphertext) < 4+keySize]); a block that passes for the hybrid
    format is not opened as an RSA block. *)
Theorem DecryptLargeData_EncryptLargeData_block P O s priv tape data c tape' :
  opens P O ->
  publicKey s = priv_PublicKey priv ->
  (List.length data <= MaxRSABlockSize)%nat ->
  EncryptLargeData P s tape data = (inl c, tape') ->
  Z.of_nat (List.length c) < 4 + keySize_of c ->
  DecryptLargeData O priv c = inl data.
Proof.
  intros [Hrsa _] Hpub Hshort. unfold EncryptLargeData.
  destruct (Nat.leb_spec (List.length data) MaxRSABlockSize) as [_|Hgt]; [|lia].
  unfold EncryptRSA.
  destruct (rsa_EncryptOAEP P (publicKey s) tape data) as [[c0|e] t1] eqn:E;
    [|discriminate].
  intros Hc Hhdr. injection Hc as <- _.
  rewrite Hpub in E. apply Hrsa in E.
  unfold DecryptLargeData.
  destruct (List.length c0 <? 4)%nat.
  - unfold DecryptRSA. rewrite E. reflexivity.
  - destruct (Z.ltb_spec (Z.of_nat (List.length c0)) (4 + keySize_of c0))
      as [_|Hge]; [|lia].
    unfold DecryptRSA. rewrite E. reflexivity.
Qed.

Lemma DecryptLargeData_EncryptLargeData_block_witness :
  exists c tape',
    EncryptLargeData examples.framed_primitives
      (mkService examples.sample_key) [] [x68; x69]
    = (inl c, tape') /\
    DecryptLargeData examples.framed_openers examples.sample_private_key c
    = inl [x68; x69].
Proof.
  destruct (EncryptLargeData examples.framed_primitives
              (mkService examples.sample_key) [] [x68; x69])
    as [[c|e] tape'] eqn:E; [|vm_compute in E; discriminate].
  exists c, tape'. split; [reflexivity|].
  apply (DecryptLargeData_EncryptLargeData_block
           examples.framed_primitives examples.framed_openers
           (mkService examples.sample_key) examples.sample_private_key
           [] [x68; x69] c tape' framed_opens eq_refl);
    [vm_compute; lia|exact E|].
  vm_compute in E. injection E as <- _. vm_compute. reflexivity.
Defined.

End decrypt_facts.

(* ================================================================= *)
(** ** auth.go: which tokens ValidateToken accepts *)

Module token_facts.
Import jwt auth.

Lemma method_eqb_eq a b : method_eqb a b = true <-> a = b.
Proof.
  split.
  - destruct a, b; simpl; try discriminate; try reflexivity.
    intros H. apply String.eqb_eq in H. subst. reflexivity.
  - intros <-. destruct a; simpl; try reflexivity. apply String.eqb_refl.
Qed.

Lemma otime_eqb_eq a b : otime_eqb a b = true <-> a = b.
Proof.
  split.
  - destruct a as [x|], b as [y|]; simpl; try discriminate; try reflexivity.
    intros H. apply Z.eqb_eq in H. subst. reflexivity.
  - intros <-. destruct a; simpl; [apply Z.eqb_refl|reflexivity].
Qed.

Lemma claims_eqb_eq a b : claims_eqb a b = true <-> a = b.
Proof.
  split.
  - unfold claims_eqb. intros H.
    repeat (apply andb_prop in H as [H ?]).
    destruct a, b; cbn [c_UserID c_Username ExpiresAt IssuedAt NotBefore
                        Issuer Subject] in *.
    repeat match goal with
    | E : uuid.eqb _ _ = true |- _ => apply N.eqb_eq in E
    | E : String.eqb _ _ = true |- _ => apply String.eqb_eq in E
    | E : otime_eqb _ _ = true |- _ => apply otime_eqb_eq in E
    end.
    subst. reflexivity.
  - intros <-. unfold claims_eqb, uuid.eqb.
    rewrite N.eqb_refl, !String.eqb_refl.
    rewrite !(proj2 (otime_eqb_eq _ _) eq_refl). reflexivity.
Qed.

(** A signature verifies for exactly the header, the claims and the key
    it was made with. *)
Lemma Verify_iff alg claims sig key :
  Verify alg claims sig key = true <-> sig = mkSignature key alg claims.
Proof.
  unfold Verify. split.
  - intros H. apply andb_prop in H as [H Hc]. apply andb_prop in H as [Hk Ha].
    apply String.eqb_eq in Hk. apply method_eqb_eq in Ha.
    apply claims_eqb_eq in Hc. destruct sig. simpl in *. subst. reflexivity.
  - intros ->. simpl.
    rewrite String.eqb_refl, (proj2 (method_eqb_eq _ _) eq_refl),
      (proj2 (claims_eqb_eq _ _) eq_refl). reflexivity.
Qed.

Lemma isHMAC_registered alg : isHMAC alg = true -> registered alg = true.
Proof. destruct alg; simpl; intros H; try reflexivity; discriminate. Qed.

(** The tokens [ValidateToken] accepts. *)
Lemma ValidateToken_inl_iff s now t claims :
  ValidateToken s now t = inl claims <->
  exists alg,
    isHMAC alg = true /\
    t = SignedString alg claims (jwtSecret s) /\
    verifyExpiresAt claims now = true /\
    verifyNotBefore claims now = true.
Proof.
  unfold ValidateToken, ParseWithClaims, SignedString. split.
  - destruct t as [raw|alg c sig]; [discriminate|].
    destruct (registered alg); cbn [negb]; [|discriminate].
    destruct (isHMAC alg) eqn:Hh; cbn [negb]; [|discriminate].
    destruct (Verify alg c sig (jwtSecret s)) eqn:Hv; cbn [negb];
      [|discriminate].
    unfold Validate.
    destruct (verifyExpiresAt c now) eqn:He; cbn [negb]; [|discriminate].
    destruct (verifyNotBefore c now) eqn:Hn; cbn [negb]; [|discriminate].
    intros H. injection H as <-.
    apply Verify_iff in Hv. subst sig.
    exists alg. repeat split; assumption.
  - intros (alg & Hh & -> & He & Hn).
    rewrite (isHMAC_registered _ Hh), Hh. cbn [negb].
    rewrite (proj2 (Verify_iff _ _ _ _) eq_refl). cbn [negb].
    unfold Validate. rewrite He, Hn. reflexivity.
Qed.

Lemma ValidateToken_inr s now t :
  (forall claims, ValidateToken s now t <> inl claims) ->
  exists e, ValidateToken s now t = inr e.
Proof.
  intros H. destruct (ValidateToken s now t) as [c|e]; [|eauto].
  exfalso. exact (H c eq_refl).
Qed.

(** X4 ([ValidateToken]).  With signatures taken as ideal MACs,
    [ValidateToken] returns claims for exactly the tokens that consist
    of these claims signed with the secret of the service under a method
    of the HMAC family, presented at a time before [exp] and not before
    [nbf].  So a text that is not a token, a token with another [alg]
    (none, or an asymmetric method) whatever its signature, and a token
    signed with another secret are all refused. *)
Theorem ValidateToken_accepts_iff s now :
  (forall t claims,
      ValidateToken s now t = inl claims <->
      exists alg,
        isHMAC alg = true /\
        t = SignedString alg claims (jwtSecret s) /\
        verifyExpiresAt claims now = true /\
        verifyNotBefore claims now = true) /\
  (forall raw, exists e, ValidateToken s now (Malformed raw) = inr e) /\
  (forall alg claims sig,
      isHMAC alg = false ->
      exists e, ValidateToken s now (Compact alg claims sig) = inr e) /\
  (forall alg claims key,
      key <> jwtSecret s ->
      exists e, ValidateToken s now (SignedString alg claims key) = inr e).
Proof.
  split; [intros t claims; apply ValidateToken_inl_iff|].
  split; [|split].
  - intros raw. apply ValidateToken_inr. intros claims H.
    apply ValidateToken_inl_iff in H as (alg & _ & Ht & _). discriminate.
  - intros alg claims sig Hh. apply ValidateToken_inr. intros c H.
    apply ValidateToken_inl_iff in H as (alg' & Hh' & Ht & _).
    unfold SignedString in Ht. injection Ht as -> _ _. congruence.
  - intros alg claims key Hk. apply ValidateToken_inr. intros c H.
    apply ValidateToken_inl_iff in H as (alg' & _ & Ht & _).
    unfold SignedString in Ht. injection Ht. intros. subst.
    apply Hk. reflexivity.
Qed.

(** A token of [GenerateToken] within its time. *)
Lemma GenerateToken_valid s clk userID username now :
  NewNumericDate (now_nbf clk) <= now
    < NewNumericDate (Time_Add (now_exp clk) (24 * Hour)) ->
  exists claims,
    ValidateToken s now (fst (GenerateToken s clk userID username))
    = inl claims /\
    c_UserID claims = userID /\ c_Username claims = username /\
    Subject claims = uuid.String_ userID /\ Issuer claims = "gophkeeper" /\
    ExpiresAt claims
    = Some (NewNumericDate (Time_Add (now_exp clk) (24 * Hour))).
Proof.
  intros [Hn He]. unfold GenerateToken. cbn [fst].
  set (claims := mkClaims userID username _ _ _ _ _).
  exists claims. split; [|repeat split].
  apply ValidateToken_inl_iff. exists HS256.
  split; [reflexivity|]. split; [reflexivity|].
  unfold verifyExpiresAt, verifyNotBefore, Time_Before. subst claims.
  cbn [ExpiresAt NotBefore].
  destruct (Z.ltb_spec now (NewNumericDate (Time_Add (now_exp clk) (24 * Hour)))),
           (Z.ltb_spec now (NewNumericDate (now_nbf clk))); try lia;
    split; reflexivity.
Qed.

Lemma NewNumericDate_bounds t :
  NewNumericDate t <= t < NewNumericDate t + Second /\
  NewNumericDate t mod Second = 0.
Proof.
  unfold NewNumericDate, Time_Truncate.
  pose proof (Z.mod_pos_bound t Second eq_refl) as Hb. split; [lia|].
  rewrite Zminus_mod_idemp_r, Z.sub_diag. reflexivity.
Qed.

(** X5 ([GenerateToken], [ValidateToken]).  A token that [GenerateToken]
    issues is accepted by the issuing service from the second it was
    issued in until its [exp], and at no other time; when it is accepted,
    the claims name the user it was issued for.  The [exp] of the token
    is the expiry that [GenerateToken] returns, 24 hours after the call,
    cut down to the whole second: the token is refused up to a second
    before the expiry that is announced with it. *)
Theorem GenerateToken_then_ValidateToken s clk userID username now :
  let token := fst (GenerateToken s clk userID username) in
  let expiresAt := snd (GenerateToken s clk userID username) in
  let nbf := NewNumericDate (now_nbf clk) in
  let exp := NewNumericDate expiresAt in
  (nbf <= now < exp ->
     exists claims,
       ValidateToken s now token = inl claims /\
       c_UserID claims = userID /\ c_Username claims = username /\
       Subject claims = uuid.String_ userID /\ Issuer claims = "gophkeeper" /\
       ExpiresAt claims = Some exp) /\
  (now < nbf \/ exp <= now ->
     exists e, ValidateToken s now token = inr e) /\
  expiresAt = Time_Add (now_exp clk) (24 * Hour) /\
  exp <= expiresAt < exp + Second.
Proof.
  intros token expiresAt nbf exp. subst token expiresAt.
  split; [|split; [|split]].
  - intros Hnow. apply GenerateToken_valid. exact Hnow.
  - intros Hout. apply ValidateToken_inr. intros c V.
    apply ValidateToken_inl_iff in V as (alg & _ & Ht & He & Hn).
    unfold GenerateToken, SignedString in Ht. cbn [fst] in Ht.
    injection Ht as _ Hc _. subst c.
    unfold verifyExpiresAt, verifyNotBefore, Time_Before in He, Hn.
    cbn [ExpiresAt NotBefore] in He, Hn.
    apply Z.ltb_lt in He. apply negb_true_iff in Hn. apply Z.ltb_ge in Hn.
    subst nbf exp. unfold GenerateToken in Hout. cbn [snd] in Hout.
    change (24 * Hour) with 86400000000000 in Hout. lia.
  - reflexivity.
  - apply NewNumericDate_bounds.
Qed.

Lemma GenerateToken_then_ValidateToken_witness :
  (exists claims,
      ValidateToken (NewService "jwt-secret") (3600 * Second)
        (fst (GenerateToken (NewService "jwt-secret")
                (mkGenClock 1500000000 1500000001 1500000002)
                examples.alice "alice")) = inl claims /\
      c_UserID claims = examples.alice /\ c_Username claims = "alice") /\
  (exists e,
      ValidateToken (NewService "jwt-secret") (86401 * Second)
        (fst (GenerateToken (NewService "jwt-secret")
                (mkGenClock 1500000000 1500000001 1500000002)
                examples.alice "alice")) = inr e).
Proof.
  split.
  - destruct (proj1 (GenerateToken_then_ValidateToken
                       (NewService "jwt-secret")
                       (mkGenClock 1500000000 1500000001 1500000002)
                       examples.alice "alice" (3600 * Second)))
      as (claims & Hv & Hu & Hn & _).
    + vm_compute. split; [discriminate|reflexivity].
    + exists claims. split; [exact Hv|]. split; [exact Hu|exact Hn].
  - apply (proj1 (proj2 (GenerateToken_then_ValidateToken
                           (NewService "jwt-secret")
                           (mkGenClock 1500000000 1500000001 1500000002)
                           examples.alice "alice" (86401 * Second)))).
    right. vm_compute. discriminate.
Defined.

End token_facts.

(* ================================================================= *)
(** ** Accounts: CreateUser, Register and Login *)

Module account_facts.
Import pg storage spec tables grpc.

Lemma append_neq (p s : string) : s <> "" -> (p ++ s)%string <> p.
Proof.
  intros Hs. induction p as [|c p IH]; simpl.
  - exact Hs.
  - intros H. injection H as H. exact (IH H).
Qed.

(** The message of a wrapped error is never the bare prefix. *)
Lemma Error_wrap_neq prefix e :
  String.eqb (Error (ErrWrap prefix e)) prefix = false.
Proof.
  apply String.eqb_neq. simpl. apply append_neq. discriminate.
Qed.

Lemma create_user_message e :
  String.eqb (Error (ErrWrap "failed to create user" e))
             "username already exists" = false.
Proof. reflexivity. Qed.

Lemma create_entry_message e :
  String.eqb (Error (ErrWrap "failed to create data entry" e))
             "entry with this name already exists" = false.
Proof. reflexivity. Qed.

Lemma handleExecError_wraps e a b :
  handleExecError (Some e) a b = Some (ErrWrap a e) \/
  handleExecError (Some e) a b = Some (ErrWrap b e).
Proof.
  unfold handleExecError. destruct (As_PgError e) as [p|]; [|auto].
  destruct (String.eqb (pg_Code p) UniqueViolation); auto.
Qed.


Lemma existsb_In {A} (f : A -> bool) (l : list A) x :
  In x l -> f x = true -> existsb f l = true.
Proof. intros Hin Hf. apply existsb_exists. eauto. Qed.

(** What [CreateUser] returns: an error and the tables as they were, or
    the tables with the row of the new user appended. *)
Lemma CreateUser_cases fault id now db user :
  let user' := models.mkUser id (Username user) (PasswordHash user) now now in
  (exists e,
      CreateUser fault id now db user
      = (user', Some (ErrWrap "username already exists" e), db) \/
      CreateUser fault id now db user
      = (user', Some (ErrWrap "failed to create user" e), db)) \/
  (fault = None /\
   existsb (fun r => uuid.eqb (u_ID r) id) (users db) = false /\
   existsb (fun r => String.eqb (Username r) (Username user)) (users db) = false /\
   CreateUser fault id now db user
   = (user', None, with_users db (users db ++ [user_row user']))).
Proof.
  intros user'. unfold CreateUser, prepareNewEntity, insert_user.
  fold user'. cbn [u_ID Username].
  destruct fault as [e|].
  - left. exists e.
    destruct (handleExecError_wraps e "username already exists"
                "failed to create user") as [-> | ->]; auto.
  - subst user'. cbn [u_ID Username].
    destruct (existsb (fun r => uuid.eqb (u_ID r) id) (users db)) eqn:Hid.
    + left. eexists.
      match goal with |- context [handleExecError (Some ?e) ?a ?b] =>
        destruct (handleExecError_wraps e a b) as [-> | ->] end; auto.
    + destruct (existsb (fun r => String.eqb (Username r) (Username user))
                  (users db)) eqn:Hname.
      * left. eexists.
        match goal with |- context [handleExecError (Some ?e) ?a ?b] =>
          destruct (handleExecError_wraps e a b) as [-> | ->] end; auto.
      * right. auto.
Qed.




Section Register.

Variable gen : list byte -> string -> (string + error) * list byte.
Variable cmp : string -> string -> bool.

(** What [Register] returns, by the outcome of its steps. *)
Lemma Register_cases s tape fault id now clk db req :
  let out := Register gen s tape fault id now clk db req in
  let user' :=
    models.mkUser id (pb.rg_Username req)
      match fst (gen tape (pb.rg_Password req)) with
      | inl h => h
      | inr _ => ""
      end now now in
  (exists msg, out = (Status codes.InvalidArgument msg, db)) \/
  out = (Status codes.Internal "failed to process password", db) \/
  out = (Status codes.Internal "failed to create user", db) \/
  ((3 <= String.length (pb.rg_Username req))%nat /\
   (6 <= String.length (pb.rg_Password req))%nat /\
   (exists h, fst (gen tape (pb.rg_Password req)) = inl h) /\
   fault = None /\
   existsb (fun r => uuid.eqb (u_ID r) id) (users db) = false /\
   existsb (fun r => String.eqb (Username r) (pb.rg_Username req)) (users db)
     = false /\
   out = (Reply (pb.mkAuthResponse
                   (fst (auth.GenerateToken (authService s) clk id
                           (pb.rg_Username req)))
                   (timestamppb.New (Time_Add (auth.now_exp clk) (24 * Hour)))
                   (userResponse user')),
          with_users db (users db ++ [user_row user']))).
Proof.
  intros out user'. subst out. unfold Register.
  destruct (String.eqb (pb.rg_Username req) "" || _) eqn:Hu;
    [left; eexists; reflexivity|].
  destruct (String.eqb (pb.rg_Password req) "" || _) eqn:Hp;
    [left; eexists; reflexivity|].
  apply orb_false_iff in Hu as [_ Hu]. apply orb_false_iff in Hp as [_ Hp].
  apply Nat.ltb_ge in Hu, Hp.
  unfold auth.HashPassword.
  destruct (gen tape (pb.rg_Password req)) as [[h|e] t'] eqn:G;
    [|right; left; reflexivity].
  cbn [fst] in user'.
  destruct (CreateUser_cases fault id now db
              (models.mkUser uuid.Nil (pb.rg_Username req) h zeroTime zeroTime))
    as [[e [E|E]]|(Hf & Hid & Hname & E)];
    cbn [Username PasswordHash] in *; rewrite E.
  - rewrite Error_wrap_neq. right; right; left; reflexivity.
  - rewrite create_user_message. right; right; left; reflexivity.
  - right; right; right.
    split; [exact Hu|]. split; [exact Hp|].
    split; [exists h; reflexivity|]. split; [exact Hf|].
    split; [exact Hid|]. split; [exact Hname|]. reflexivity.
Qed.

(** X7 ([Register]).  On the PostgreSQL storage [Register] never answers
    AlreadyExists: the storage wraps the database error behind the text
    the handler compares with, so the comparison fails.  A user name that
    is taken is answered with Internal "failed to create user"; whenever
    [Register] answers with a status, the tables are as they were. *)
Theorem Register_taken_name_is_Internal s tape fault id now clk db req :
  (forall msg,
      fst (Register gen s tape fault id now clk db req)
      <> Status codes.AlreadyExists msg) /\
  (forall c msg,
      fst (Register gen s tape fault id now clk db req) = Status c msg ->
      snd (Register gen s tape fault id now clk db req) = db) /\
  (forall u h,
      In u (users db) -> Username u = pb.rg_Username req ->
      (3 <= String.length (pb.rg_Username req))%nat ->
      (6 <= String.length (pb.rg_Password req))%nat ->
      fst (gen tape (pb.rg_Password req)) = inl h ->
      Register gen s tape fault id now clk db req
      = (Status codes.Internal "failed to create user", db)).
Proof.
  destruct (Register_cases s tape fault id now clk db req)
    as [[m E]|[E|[E|(Hu & Hp & Hh & Hf & Hid & Hname & E)]]]; rewrite E;
    cbn [fst snd].
  - split; [discriminate|]. split; [reflexivity|].
    intros u h Hin Hun Hlu Hlp Hg. exfalso.
    revert E. unfold Register.
    destruct (Nat.ltb_spec (String.length (pb.rg_Username req)) 3); [lia|].
    destruct (Nat.ltb_spec (String.length (pb.rg_Password req)) 6); [lia|].
    rewrite !orb_false_r.
    destruct (String.eqb_spec (pb.rg_Username req) "") as [E0|_];
      [rewrite E0 in *; simpl in *; lia|].
    destruct (String.eqb_spec (pb.rg_Password req) "") as [E0|_];
      [rewrite E0 in *; simpl in *; lia|].
    unfold auth.HashPassword.
    destruct (gen tape (pb.rg_Password req)) as [[h'|e] t']; [|discriminate].
    match goal with |- context [CreateUser ?f ?i ?n ?d ?u] =>
      destruct (CreateUser_cases f i n d u) as [[e [E1|E1]]|(_ & _ & _ & E1)];
        rewrite E1 end;
      rewrite ?Error_wrap_neq, ?create_user_message; try discriminate;
      destruct (auth.GenerateToken _ _ _ _); discriminate.
  - split; [discriminate|]. split; [reflexivity|].
    intros u h Hin Hun Hlu Hlp Hg. exfalso.
    revert E. unfold Register.
    destruct (_ || _); [discriminate|]. destruct (_ || _); [discriminate|].
    unfold auth.HashPassword.
    destruct (gen tape (pb.rg_Password req)) as [[h'|e] t']; [|discriminate].
    match goal with |- context [CreateUser ?f ?i ?n ?d ?u] =>
      destruct (CreateUser_cases f i n d u) as [[e [E1|E1]]|(_ & _ & _ & E1)];
        rewrite E1 end;
      rewrite ?Error_wrap_neq, ?create_user_message; try discriminate;
      destruct (auth.GenerateToken _ _ _ _); discriminate.
  - split; [discriminate|]. split; [reflexivity|]. reflexivity.
  - split; [discriminate|]. split; [discriminate|].
    intros u h Hin Hun _ _ _. exfalso.
    assert (existsb (fun r => String.eqb (Username r) (pb.rg_Username req))
              (users db) = true) as Hex
      by (apply (existsb_In _ _ u Hin); apply String.eqb_eq; exact Hun).
    congruence.
Qed.


End Register.

Lemma Register_taken_name_is_Internal_witness :
  Register examples.plain_generate examples.sample_server [] None 3%N 2000
    (auth.mkGenClock 2000 2000 2000) examples.db0
    (pb.mkRegisterRequest "alice" "hunter22")
  = (Status codes.Internal "failed to create user", examples.db0).
Proof.
  apply (proj2 (proj2 (Register_taken_name_is_Internal examples.plain_generate
                         examples.sample_server [] None 3%N 2000
                         (auth.mkGenClock 2000 2000 2000) examples.db0
                         (pb.mkRegisterRequest "alice" "hunter22")))
           examples.alice_user "hash-of-hunter22").
  - left. reflexivity.
  - reflexivity.
  - simpl. lia.
  - simpl. lia.
  - reflexivity.
Defined.


End account_facts.

(* ================================================================= *)
(** ** Entries: error answers, the UNIQUE constraint, lists *)

Module entry_facts.
Import pg storage spec tables update_facts delete_facts create_facts.
Import grpc.

Lemma CreateDataEntry_error_wrapped fault id now db entry entry' err db' :
  CreateDataEntry fault id now db entry = (entry', Some err, db') ->
  exists e,
    err = ErrWrap "entry with this name already exists" e \/
    err = ErrWrap "failed to create data entry" e.
Proof.
  unfold CreateDataEntry, prepareNewDataEntry.
  destruct (insert_data_entry _ _ _) as [e|n dbx]; [|discriminate].
  intros H. exists e.
  destruct (account_facts.handleExecError_wraps e
              "entry with this name already exists"
              "failed to create data entry") as [E|E];
    rewrite E in H; injection H as _ <- _; auto.
Qed.

Lemma type_check_convert t :
  convertProtoDataType t <> "" -> type_check (convertProtoDataType t) = true.
Proof. destruct t; simpl; intros H; try reflexivity; contradiction. Qed.

(** X9 ([CreateData], [CreateDataEntry], [handleExecError]).  On the
    PostgreSQL storage [CreateData] never answers AlreadyExists: the
    storage wraps the database error behind the text the handler compares
    with.  A name the caller already uses is answered with Internal
    "failed to create data entry"; whenever [CreateData] answers with a
    status, the tables are as they were. *)
Theorem CreateData_taken_name_is_Internal ctx fault id now db req :
  (forall msg,
      fst (CreateData ctx fault id now db req)
      <> Status codes.AlreadyExists msg) /\
  (forall c msg,
      fst (CreateData ctx fault id now db req) = Status c msg ->
      snd (CreateData ctx fault id now db req) = db) /\
  (forall P r,
      UserIDKey ctx = Some (CtxUUID P) ->
      In r (data_entries db) -> UserID r = P -> Name r = pb.c_Name req ->
      pb.c_Name req <> "" -> pb.c_EncryptedData req <> [] ->
      convertProtoDataType (pb.c_Type req) <> "" ->
      CreateData ctx fault id now db req
      = (Status codes.Internal "failed to create data entry", db)).
Proof.
  unfold CreateData, getUserIDFromContext.
  destruct (UserIDKey ctx) as [[P0|]|] eqn:Hctx; cbn [negb];
    try (split; [discriminate|]; split; [reflexivity|];
         intros P r HP; discriminate).
  destruct (String.eqb_spec (pb.c_Name req) "") as [Hn|Hn];
    [split; [discriminate|]; split; [reflexivity|]; intros; contradiction|].
  destruct (pb.c_EncryptedData req) as [|b data] eqn:Hd;
    [split; [discriminate|]; split; [reflexivity|]; intros; contradiction|].
  cbn [List.length Nat.eqb].
  destruct (String.eqb_spec (convertProtoDataType (pb.c_Type req)) "")
    as [Ht|Ht];
    [split; [discriminate|]; split; [reflexivity|]; intros; contradiction|].
  match goal with
  | |- context [CreateDataEntry fault id now db ?e] =>
      destruct (CreateDataEntry fault id now db e) as [[e' oerr] db1] eqn:E
  end.
  destruct oerr as [err|].
  - pose proof (CreateDataEntry_error_unchanged _ _ _ _ _ _ _ _ E) as ->.
    destruct (CreateDataEntry_error_wrapped _ _ _ _ _ _ _ _ E) as [e [-> | ->]];
      rewrite ?account_facts.Error_wrap_neq, ?account_facts.create_entry_message;
      cbn [fst snd]; (split; [discriminate|]; split; [reflexivity|]);
      reflexivity.
  - cbn [fst snd]. split; [discriminate|]. split; [discriminate|].
    intros P r HP Hin Hown Hname _ _ _. exfalso.
    injection HP as <-.
    apply CreateDataEntry_success in E as (_ & _ & _ & Hclash).
    cbn [UserID Name] in Hclash.
    assert (existsb (fun r0 => uuid.eqb (UserID r0) P0 &&
                               String.eqb (Name r0) (pb.c_Name req))
              (data_entries db) = true) as Hex.
    { apply (account_facts.existsb_In _ _ r Hin).
      rewrite Hown, Hname, uuid_eqb_refl, String.eqb_refl. reflexivity. }
    congruence.
Qed.

Lemma CreateData_taken_name_is_Internal_witness :
  CreateData examples.ctx_alice None 9%N 3000 examples.db0
    (pb.mkCreateDataRequest pb.DATA_TYPE_CARD "note-1" "" [x01] "")
  = (Status codes.Internal "failed to create data entry", examples.db0).
Proof.
  apply (proj2 (proj2 (CreateData_taken_name_is_Internal examples.ctx_alice
                         None 9%N 3000 examples.db0
                         (pb.mkCreateDataRequest pb.DATA_TYPE_CARD "note-1" ""
                            [x01] "")))
           examples.alice examples.note).
  - reflexivity.
  - left. reflexivity.
  - reflexivity.
  - reflexivity.
  - discriminate.
  - discriminate.
  - discriminate.
Defined.

(** X10 ([DeleteData], [DeleteDataEntry]).  [DeleteData] never answers
    NotFound.  An identifier under which the caller has no entry, be it
    nobody's or another user's, is answered with Internal "failed to
    delete data entry", and whenever [DeleteData] answers with a status
    the tables are as they were. *)
Theorem DeleteData_missing_is_Internal ctx f db_now db req :
  (forall msg,
      fst (DeleteData ctx f db_now db req) <> Status codes.NotFound msg) /\
  (forall c msg,
      fst (DeleteData ctx f db_now db req) = Status c msg ->
      snd (DeleteData ctx f db_now db req) = db) /\
  (forall P id,
      UserIDKey ctx = Some (CtxUUID P) ->
      uuid.Parse (pb.d_Id req) = Some id ->
      (forall r, In r (data_entries db) -> ID r = id -> UserID r <> P) ->
      DeleteData ctx f db_now db req
      = (Status codes.Internal "failed to delete data entry", db)).
Proof.
  unfold DeleteData, getUserIDFromContext.
  destruct (UserIDKey ctx) as [[P0|]|] eqn:Hctx; cbn [negb];
    try (split; [discriminate|]; split; [reflexivity|];
         intros P r HP; discriminate).
  destruct (uuid.Parse (pb.d_Id req)) as [id0|];
    [|split; [discriminate|]; split; [reflexivity|]; intros; discriminate].
  destruct (DeleteDataEntry_cases f db_now db P0 id0)
    as [[err E]|[E [Hex _]]]; rewrite E; cbn [fst snd].
  - split; [discriminate|]. split; reflexivity.
  - split; [discriminate|]. split; [discriminate|].
    intros P id HP Hid Hnone. exfalso.
    injection HP as <-. injection Hid as <-.
    apply existsb_exists in Hex as [r [Hin Hown]].
    unfold owned_by in Hown. apply andb_prop in Hown as [H1 H2].
    apply uuid_eqb_eq in H1, H2. exact (Hnone r Hin H1 H2).
Qed.

Lemma DeleteData_missing_is_Internal_witness :
  DeleteData examples.ctx_bob no_faults 5000 examples.db0
    (pb.mkDeleteDataRequest "00000000-0000-0000-0000-000000000007")
  = (Status codes.Internal "failed to delete data entry", examples.db0).
Proof.
  apply (proj2 (proj2 (DeleteData_missing_is_Internal examples.ctx_bob
                         no_faults 5000 examples.db0
                         (pb.mkDeleteDataRequest
                            "00000000-0000-0000-0000-000000000007")))
           examples.bob examples.note_id).
  - reflexivity.
  - reflexivity.
  - intros r [<-|[]] _. discriminate.
Defined.

(** X11 ([CreateDataEntry], [UpdateDataEntry], [DeleteDataEntry]).  The
    three writing calls of the storage keep the constraint UNIQUE
    (user_id, name) of the schema: if no two entries of one owner shared
    a name before the call, none do after it, whether the call succeeds
    or not. *)
Theorem writes_keep_unique_user_name db :
  unique_user_name db ->
  (forall fault id now entry entry' oerr db',
      CreateDataEntry fault id now db entry = (entry', oerr, db') ->
      unique_user_name db') /\
  (forall fault db_now now entry entry' oerr db',
      UpdateDataEntry fault db_now now db entry = (entry', oerr, db') ->
      unique_user_name db') /\
  (forall f db_now userID entryID oerr db',
      DeleteDataEntry f db_now db userID entryID = (oerr, db') ->
      unique_user_name db').
Proof.
  intros Huniq. split; [|split].
  - intros fault id now entry entry' [err|] db' H.
    { apply CreateDataEntry_error_unchanged in H. subst. exact Huniq. }
    apply CreateDataEntry_success in H as (-> & -> & _ & Hclash).
    assert (forall r, In r (data_entries db) ->
              UserID r = UserID entry -> Name r = Name entry -> False) as Hno.
    { intros r Hin Hu Hn.
      assert (existsb (fun r0 => uuid.eqb (UserID r0) (UserID entry) &&
                                 String.eqb (Name r0) (Name entry))
                (data_entries db) = true) as Hex.
      { apply (account_facts.existsb_In _ _ r Hin).
        rewrite Hu, Hn, uuid_eqb_refl, String.eqb_refl. reflexivity. }
      congruence. }
    intros r1 r2 H1 H2 Hu Hn. cbn [data_entries with_data_entries] in H1, H2.
    apply in_app_or in H1, H2.
    destruct H1 as [H1|[<-|[]]], H2 as [H2|[<-|[]]]; cbn [UserID Name ID] in *.
    + exact (Huniq r1 r2 H1 H2 Hu Hn).
    + exfalso. exact (Hno r1 H1 Hu Hn).
    + exfalso. symmetry in Hu, Hn. exact (Hno r2 H2 Hu Hn).
    + reflexivity.
  - intros fault db_now now entry entry' [err|] db' H.
    { apply UpdateDataEntry_error_unchanged in H as [-> _]. exact Huniq. }
    pose proof H as Hsucc. apply UpdateDataEntry_success in Hsucc as [_ ->].
    assert (existsb (fun o => negb (uuid.eqb (ID o) (ID entry)) &&
                              uuid.eqb (UserID o) (UserID entry) &&
                              String.eqb (Name o) (Name entry))
              (data_entries db) = false) as Hclash.
    { revert H. unfold UpdateDataEntry, update_data_entry.
      destruct fault as [fe|]; [exec_error_absurd|].
      destruct (existsb (update_where _ _ _) (data_entries db)); cbn [negb];
        [|intros H; inversion H].
      destruct (int64_max <? Version entry + 1); [exec_error_absurd|].
      destruct (existsb (fun o => _) (data_entries db)); [exec_error_absurd|].
      reflexivity. }
    set (hit := update_where (ID entry) (UserID entry) (Version entry)).
    set (f := fun r => if hit r then update_set db_now (Name entry)
                            (Description entry) (EncryptedData entry)
                            (Metadata entry) r else r).
    assert (forall o, In o (data_entries db) -> hit o = false ->
              UserID o = UserID entry -> Name o = Name entry ->
              ID o = ID entry) as Hno.
    { intros o Hin Hh Hu Hn.
      destruct (uuid.eqb (ID o) (ID entry)) eqn:Hid;
        [apply uuid_eqb_eq; exact Hid|]. exfalso.
      assert (existsb (fun o => negb (uuid.eqb (ID o) (ID entry)) &&
                                uuid.eqb (UserID o) (UserID entry) &&
                                String.eqb (Name o) (Name entry))
                (data_entries db) = true) as Hex.
      { apply (account_facts.existsb_In _ _ o Hin).
        rewrite Hid, Hu, Hn, uuid_eqb_refl, String.eqb_refl. reflexivity. }
      congruence. }
    assert (forall r, hit r = true ->
              ID r = ID entry /\ UserID r = UserID entry) as Hhit.
    { intros r Hr. unfold hit, update_where in Hr.
      apply andb_prop in Hr as [Hr _]. apply andb_prop in Hr as [H1 H2].
      apply uuid_eqb_eq in H1, H2. auto. }
    intros r1' r2' H1 H2. cbn [data_entries with_data_entries] in H1, H2.
    apply in_map_iff in H1 as [r1 [<- H1]], H2 as [r2 [<- H2]].
    destruct (hit r1) eqn:E1, (hit r2) eqn:E2; unfold f; rewrite E1, E2;
      cbn [UserID Name ID update_set].
    + intros _ _. destruct (Hhit _ E1), (Hhit _ E2). congruence.
    + intros Hu Hn. destruct (Hhit _ E1) as [Hi1 Hu1].
      rewrite Hi1. symmetry. apply Hno; congruence.
    + intros Hu Hn. destruct (Hhit _ E2) as [Hi2 Hu2].
      rewrite Hi2. apply Hno; congruence.
    + apply Huniq; assumption.
  - intros f db_now userID entryID oerr db' H.
    destruct (DeleteDataEntry_cases f db_now db userID entryID)
      as [[err E]|[E _]]; rewrite E in H; injection H as _ <-;
      [exact Huniq|].
    intros r1 r2 H1 H2. cbn [data_entries] in H1, H2.
    apply filter_In in H1 as [H1 _], H2 as [H2 _]. apply Huniq; assumption.
Qed.

Lemma db0_unique_user_name : unique_user_name examples.db0.
Proof. intros r1 r2 [<-|[]] [<-|[]] _ _. reflexivity. Defined.

Lemma writes_keep_unique_user_name_witness :
  unique_user_name
    (snd (CreateDataEntry None 9%N 3000 examples.db0
            (models.mkDataEntry uuid.Nil examples.alice "text" "note-2" ""
               [x01] "" 0 0 0))).
Proof.
  destruct (CreateDataEntry None 9%N 3000 examples.db0
              (models.mkDataEntry uuid.Nil examples.alice "text" "note-2" ""
                 [x01] "" 0 0 0)) as [[entry' oerr] db'] eqn:E.
  exact (proj1 (writes_keep_unique_user_name examples.db0 db0_unique_user_name)
           _ _ _ _ _ _ _ E).
Defined.








(** X14 ([UpdateDataEntry]).  A successful update writes one row: every
    entry with another identifier is stored as before, the number of
    entries is the same, and the users and the tombstones are not
    touched. *)
Theorem UpdateDataEntry_writes_one_row f db_now now db entry entry' db' :
  UpdateDataEntry f db_now now db entry = (entry', None, db') ->
  (forall id, id <> ID entry -> stored db' id = stored db id) /\
  List.length (data_entries db') = List.length (data_entries db) /\
  map ID (data_entries db') = map ID (data_entries db) /\
  users db' = users db /\
  deleted_entries db' = deleted_entries db.
Proof.
  intros H. apply UpdateDataEntry_success in H as [_ ->].
  cbn [data_entries users deleted_entries with_data_entries].
  split; [|split; [|split; [|split; reflexivity]]].
  - intros id Hid. unfold stored. cbn [data_entries with_data_entries].
    rewrite (find_key_map ID) by (intros r; apply update_keeps_ID).
    destruct (find (fun r => uuid.eqb (ID r) id) (data_entries db)) as [r|] eqn:F;
      [|reflexivity].
    apply find_some in F as [_ Hr]. apply uuid_eqb_eq in Hr.
    cbn [option_map]. unfold update_where.
    destruct (uuid.eqb (ID r) (ID entry)) eqn:Hi;
      [apply uuid_eqb_eq in Hi; congruence|reflexivity].
  - apply length_map.
  - apply map_key_map. intros r. apply update_keeps_ID.
Qed.

Lemma UpdateDataEntry_writes_one_row_witness :
  exists entry' db',
    call_update examples.db0 examples.update_1 = (entry', None, db') /\
    stored db' 8%N = stored examples.db0 8%N /\
    users db' = users examples.db0.
Proof.
  destruct (call_update examples.db0 examples.update_1)
    as [[entry' oerr] db'] eqn:E.
  destruct oerr as [err|]; [vm_compute in E; discriminate|].
  destruct (UpdateDataEntry_writes_one_row _ _ _ _ _ _ _ E)
    as (Hother & _ & _ & Husers & _).
  exists entry', db'. split; [reflexivity|].
  split; [apply Hother; discriminate|exact Husers].
Defined.

Lemma DeleteDataEntry_owner_exists f db_now db P id db' :
  DeleteDataEntry f db_now db P id = (None, db') -> user_exists db P = true.
Proof.
  unfold DeleteDataEntry.
  destruct (f_begin f); [discriminate|].
  destruct (delete_data_entry (f_delete f) db id P) as [e|n tx1] eqn:D.
  { destruct (handleExecError_Some e "" "failed to delete data entry")
      as [e' ->]. discriminate. }
  destruct (n =? 0); [discriminate|].
  assert (users tx1 = users db) as Hu.
  { revert D. unfold delete_data_entry. destruct (f_delete f); [discriminate|].
    intros H. injection H as _ <-. reflexivity. }
  unfold insert_deleted_entry.
  destruct (f_insert f) as [e|].
  { destruct (handleExecError_Some e "" "failed to insert deleted entry")
      as [e' ->]. discriminate. }
  destruct (existsb _ (deleted_entries tx1)).
  { match goal with |- context [handleExecError (Some ?e) ?a ?b] =>
      destruct (handleExecError_Some e a b) as [e' ->] end. discriminate. }
  unfold user_exists. rewrite Hu.
  destruct (existsb (fun r => uuid.eqb (u_ID r) P) (users db)); cbn [negb];
    [reflexivity|].
  match goal with |- context [handleExecError (Some ?e) ?a ?b] =>
    destruct (handleExecError_Some e a b) as [e' ->] end. discriminate.
Qed.

(** X15 ([DeleteDataEntry], [CreateDataEntry]).  A delete frees the name
    of the entry: when no two entries of an owner share a name, the
    owner can, after deleting an entry, create an entry of a valid type
    under the same name with any identifier that is not in use; the
    create succeeds, and a get of the new identifier returns the row
    stored for it, under the freed name, with version 1 and with the
    time of the create cut down to the whole microsecond. *)
Theorem DeleteDataEntry_frees_the_name f db_now db P id db' r id2 now entry :
  unique_user_name db ->
  In r (data_entries db) -> ID r = id -> UserID r = P ->
  DeleteDataEntry f db_now db P id = (None, db') ->
  type_check (Type_ entry) = true ->
  UserID entry = P -> Name entry = Name r ->
  (forall o, In o (data_entries db') -> ID o <> id2) ->
  exists entry' db2,
    CreateDataEntry None id2 now db' entry = (entry', None, db2) /\
    Name entry' = Name r /\ Version entry' = 1 /\
    GetDataEntry None db2 P id2 =
      inl (mkDataEntry id2 P (Type_ entry) (Name r) (Description entry)
             (EncryptedData entry) (Metadata entry)
             (timestamptz now) (timestamptz now) 1) /\
    users db2 = users db' /\ deleted_entries db2 = deleted_entries db'.
Proof.
  intros Huniq Hin Hid Hown Hdel Htype Hu Hn Hfresh.
  pose proof (DeleteDataEntry_owner_exists _ _ _ _ _ _ Hdel) as Huser.
  destruct (DeleteDataEntry_cases f db_now db P id)
    as [[err E]|[E _]]; rewrite E in Hdel; [discriminate|].
  injection Hdel as <-.
  set (db' := mkDB (users db)
                (filter (fun r => negb (owned_by id P r)) (data_entries db))
                (deleted_entries db ++ [mkDeletedEntry id P db_now])) in *.
  destruct (CreateDataEntry None id2 now db' entry) as [[entry' oerr] db2] eqn:C.
  assert (oerr = None) as ->.
  { revert C. unfold CreateDataEntry, prepareNewDataEntry, insert_data_entry.
    cbn [Type_ ID UserID Name]. rewrite Htype. cbn [negb].
    destruct (existsb (fun r0 => uuid.eqb (ID r0) id2) (data_entries db'))
      eqn:Hex.
    { exfalso. apply existsb_exists in Hex as [o [Ho He]].
      apply uuid_eqb_eq in He. exact (Hfresh o Ho He). }
    destruct (existsb (fun r0 => uuid.eqb (UserID r0) (UserID entry) &&
                                 String.eqb (Name r0) (Name entry))
                (data_entries db')) eqn:Hclash.
    { exfalso. apply existsb_exists in Hclash as [o [Ho Hc]].
      apply andb_prop in Hc as [H1 H2].
      apply uuid_eqb_eq in H1. apply String.eqb_eq in H2.
      cbn [data_entries db'] in Ho. apply filter_In in Ho as [Ho Hnot].
      assert (ID o = ID r) as Hsame
        by (apply Huniq; [exact Ho|exact Hin|congruence|congruence]).
      unfold owned_by in Hnot.
      rewrite Hsame, Hid, H1, Hu, !uuid_eqb_refl in Hnot. discriminate. }
    unfold user_exists in *. cbn [users db']. rewrite Hu, Huser. cbn [negb].
    intros H. injection H as _ <- _. reflexivity. }
  pose proof C as Hs. apply CreateDataEntry_success in Hs as (He & Hdb & _).
  destruct (CreateDataEntry_then_GetDataEntry _ _ _ _ _ _ _ C) as [Hget _].
  rewrite Hu, Hn in Hget.
  exists entry', db2. split; [reflexivity|].
  split; [rewrite He; exact Hn|]. split; [rewrite He; reflexivity|].
  split; [exact Hget|]. rewrite Hdb. split; reflexivity.
Qed.

Lemma DeleteDataEntry_frees_the_name_witness :
  exists db' entry' db2,
    DeleteDataEntry no_faults 5000 examples.db0 examples.alice examples.note_id
    = (None, db') /\
    CreateDataEntry None 9%N 1700000000123456789 db'
      (models.mkDataEntry uuid.Nil examples.alice "card" "note-1" "" [x09] ""
         0 0 0)
    = (entry', None, db2) /\
    Version entry' = 1 /\
    GetDataEntry None db2 examples.alice 9%N =
      inl (models.mkDataEntry 9%N examples.alice "card" "note-1" "" [x09] ""
             1700000000123456000 1700000000123456000 1).
Proof.
  destruct (DeleteDataEntry no_faults 5000 examples.db0 examples.alice
              examples.note_id) as [oerr db'] eqn:E.
  destruct oerr as [err|]; [vm_compute in E; discriminate|].
  destruct (DeleteDataEntry_frees_the_name no_faults 5000 examples.db0
              examples.alice examples.note_id db' examples.note 9%N
              1700000000123456789
              (models.mkDataEntry uuid.Nil examples.alice "card" "note-1" ""
                 [x09] "" 0 0 0) db0_unique_user_name)
    as (entry' & db2 & Hc & _ & Hv & Hget & _); try reflexivity.
  - left. reflexivity.
  - exact E.
  - vm_compute in E. injection E as <-. intros o [].
  - exists db', entry', db2. split; [reflexivity|]. split; [exact Hc|].
    split; [exact Hv|exact Hget].
Defined.

(** X16 ([GetData], [UpdateData], [Login], [handleQueryRowError]).  A
    database round trip that fails is answered like an entry or a user
    that does not exist: when the lookup of the entry fails, [GetData]
    and [UpdateData] answer NotFound "data entry not found", and when the
    lookup of the user fails, [Login] answers Unauthenticated "invalid
    credentials"; the storage error, which tells the two cases apart, is
    dropped, and nothing is written. *)
Theorem failed_lookup_is_answered_as_missing ctx P e db :
  UserIDKey ctx = Some (CtxUUID P) ->
  (e <> ErrNoRows ->
   forall userID entryID,
     GetDataEntry (Some e) db userID entryID
     = inr (ErrWrap "failed to get data entry" e)) /\
  (forall req id,
      uuid.Parse (pb.g_Id req) = Some id ->
      GetData ctx (Some e) db req
      = Status codes.NotFound "data entry not found") /\
  (forall f_update db_now now req id,
      uuid.Parse (pb.up_Id req) = Some id ->
      UpdateData ctx (Some e) f_update db_now now db req
      = (Status codes.NotFound "data entry not found", db)) /\
  (forall cmp s clk req,
      pb.l_Username req <> "" -> pb.l_Password req <> "" ->
      Login cmp s (Some e) clk db req
      = Status codes.Unauthenticated "invalid credentials").
Proof.
  intros Hctx. split; [|split; [|split]].
  - intros He userID entryID.
    unfold GetDataEntry, query_row, handleQueryRowError.
    destruct e as [p| |m|p i]; try reflexivity. contradiction.
  - intros req id Hid. unfold GetData, getUserIDFromContext.
    rewrite Hctx, Hid. cbn [negb]. unfold GetDataEntry, query_row.
    destruct (handleQueryRowError _ _ _); reflexivity.
  - intros f_update db_now now req id Hid.
    unfold UpdateData, getUserIDFromContext.
    rewrite Hctx, Hid. cbn [negb]. unfold GetDataEntry, query_row.
    destruct (handleQueryRowError _ _ _); reflexivity.
  - intros cmp s clk req Hu Hp. unfold Login.
    destruct (String.eqb_spec (pb.l_Username req) ""); [contradiction|].
    destruct (String.eqb_spec (pb.l_Password req) ""); [contradiction|].
    unfold GetUserByUsername, query_row.
    destruct (handleQueryRowError _ _ _); reflexivity.
Qed.

Lemma failed_lookup_is_answered_as_missing_witness :
  GetData examples.ctx_alice (Some (ErrNew "connection refused")) examples.db0
    (pb.mkGetDataRequest "00000000-0000-0000-0000-000000000007")
  = Status codes.NotFound "data entry not found" /\
  GetData examples.ctx_alice None examples.db0
    (pb.mkGetDataRequest "00000000-0000-0000-0000-000000000008")
  = Status codes.NotFound "data entry not found".
Proof.
  destruct (failed_lookup_is_answered_as_missing examples.ctx_alice
              examples.alice (ErrNew "connection refused") examples.db0
              eq_refl) as (_ & Hget & _).
  split; [apply (Hget _ examples.note_id); reflexivity|reflexivity].
Defined.

End entry_facts.

(* ================================================================= *)
(** ** The two gates: AuthInterceptor and AuthMiddleware *)

Module gate_facts.
Import pg storage spec tables grpc.

(** The HTTP middleware passes a request on with nothing under the
    context key the handlers read. *)
Lemma AuthMiddleware_Next s now hdr ctx :
  middleware.AuthMiddleware s now hdr Background = middleware.Next ctx ->
  UserIDKey ctx = None /\
  exists token claims,
    hdr = middleware.TwoParts "Bearer" token /\
    auth.ValidateToken s now token = inl claims /\
    middleware_UserIDKey ctx = Some (jwt.c_UserID claims).
Proof.
  unfold middleware.AuthMiddleware.
  destruct hdr as [|w|scheme token]; try discriminate.
  destruct (String.eqb_spec scheme "Bearer") as [->|_]; cbn [negb];
    [|discriminate].
  destruct (auth.ValidateToken s now token) as [claims|e] eqn:V;
    [|discriminate].
  intros H. injection H as <-. split; [reflexivity|].
  exists token, claims. auto.
Qed.

(** X17 ([setupHTTPRoutes], [AuthMiddleware], [getUserIDFromContext],
    the six data handlers).  On the protected HTTP routes as the server
    wires them no request ever succeeds: the middleware stores the
    principal under its own context key, the handlers look under the key
    of package grpc, so every request that passes the middleware is
    refused by the handler.  Whatever the header and the body, the answer
    is never the JSON of a result and the tables are as they were. *)
Theorem protected_http_routes_answer_no_result P0 s now_mw hdr :
  (forall ctx,
      middleware.AuthMiddleware (authService s) now_mw hdr Background
      = middleware.Next ctx ->
      exists claims,
        middleware.GetUserIDFromContext ctx = (jwt.c_UserID claims, true) /\
        getUserIDFromContext ctx = (uuid.Nil, false)) /\
  (forall fault rows_fault db limitStr offsetStr typeStr resp,
      route_GET_data s now_mw hdr fault rows_fault db limitStr offsetStr typeStr
      <> HttpJSON resp) /\
  (forall tape fault id now db body,
      snd (route_POST_data P0 s now_mw hdr tape fault id now db body) = db /\
      forall resp,
        fst (route_POST_data P0 s now_mw hdr tape fault id now db body)
        <> HttpJSON resp) /\
  (forall fault db id resp,
      route_GET_data_id s now_mw hdr fault db id <> HttpJSON resp) /\
  (forall tape f_get f_update db_now now db id body,
      snd (route_PUT_data P0 s now_mw hdr tape f_get f_update db_now now db
             id body) = db /\
      forall resp,
        fst (route_PUT_data P0 s now_mw hdr tape f_get f_update db_now now db
               id body) <> HttpJSON resp) /\
  (forall f db_now db id,
      snd (route_DELETE_data_id s now_mw hdr f db_now db id) = db /\
      forall resp,
        fst (route_DELETE_data_id s now_mw hdr f db_now db id)
        <> HttpJSON resp) /\
  (forall f now db body resp,
      route_POST_sync s now_mw hdr f now db body <> HttpJSON resp).
Proof.
  split; [|split; [|split; [|split; [|split; [|split]]]]].
  - intros ctx M.
    apply AuthMiddleware_Next in M as (Hk & token & claims & _ & _ & Hm).
    exists claims. unfold middleware.GetUserIDFromContext, getUserIDFromContext.
    rewrite Hk, Hm. split; reflexivity.
  - intros fault rows_fault db limitStr offsetStr typeStr resp.
    unfold route_GET_data.
    destruct (middleware.AuthMiddleware _ _ _ _) as [st m|ctx] eqn:M;
      [discriminate|].
    apply AuthMiddleware_Next in M as [Hk _].
    unfold HandleListData, ListData, getUserIDFromContext. rewrite Hk.
    discriminate.
  - intros tape.
    apply (proj1 (ciphertext_facts.http_routes_accept_nothing P0 s now_mw hdr
                    tape)).
  - intros fault db id resp. unfold route_GET_data_id.
    destruct (middleware.AuthMiddleware _ _ _ _) as [st m|ctx] eqn:M;
      [discriminate|].
    apply AuthMiddleware_Next in M as [Hk _].
    unfold HandleGetData, GetData, getUserIDFromContext. rewrite Hk.
    destruct (String.eqb id ""); discriminate.
  - intros tape.
    apply (proj2 (ciphertext_facts.http_routes_accept_nothing P0 s now_mw hdr
                    tape)).
  - intros f db_now db id. unfold route_DELETE_data_id.
    destruct (middleware.AuthMiddleware _ _ _ _) as [st m|ctx] eqn:M;
      [split; [reflexivity|discriminate]|].
    apply AuthMiddleware_Next in M as [Hk _].
    unfold HandleDeleteData, DeleteData, getUserIDFromContext. rewrite Hk.
    destruct (String.eqb id ""); split; try reflexivity; discriminate.
  - intros f now db body resp. unfold route_POST_sync.
    destruct (middleware.AuthMiddleware _ _ _ _) as [st m|ctx] eqn:M;
      [discriminate|].
    apply AuthMiddleware_Next in M as [Hk _].
    unfold HandleSyncData, SyncData, getUserIDFromContext. rewrite Hk.
    destruct body; discriminate.
Qed.

(** X18 ([AuthInterceptor], [isPublicMethod]).  For a method outside the
    five public ones the interceptor calls the handler exactly when the
    first value of the authorization metadata is "Bearer " followed by a
    token that [ValidateToken] accepts, and then the handler finds the
    user of the token in its context; every other request is answered
    with Unauthenticated.  For a public method the handler is called with
    the context as it came. *)
Theorem AuthInterceptor_admits_bearer s now method md ctx :
  (isPublicMethod method = true ->
   AuthInterceptor s now method md ctx = Reply ctx) /\
  (isPublicMethod method = false ->
   (forall ctx',
       AuthInterceptor s now method md ctx = Reply ctx' <->
       exists token rest claims,
         md = Some (Bearer token :: rest) /\
         auth.ValidateToken s now token = inl claims /\
         ctx' = mkContext (Some (CtxUUID (jwt.c_UserID claims)))
                          (middleware_UserIDKey ctx)) /\
   (forall ctx',
       AuthInterceptor s now method md ctx = Reply ctx' ->
       exists claims, getUserIDFromContext ctx' = (jwt.c_UserID claims, true)) /\
   (forall c msg,
       AuthInterceptor s now method md ctx = Status c msg ->
       c = codes.Unauthenticated /\ msg = "user not authenticated")).
Proof.
  unfold AuthInterceptor. split; [intros ->; reflexivity|].
  intros ->.
  assert (forall ctx',
             match md with
             | Some (Bearer token :: _) =>
                 match auth.ValidateToken s now token with
                 | inl claims =>
                     Reply (mkContext (Some (CtxUUID (jwt.c_UserID claims)))
                              (middleware_UserIDKey ctx))
                 | inr _ => Status codes.Unauthenticated "user not authenticated"
                 end
             | _ => Status codes.Unauthenticated "user not authenticated"
             end = Reply ctx' <->
             exists token rest claims,
               md = Some (Bearer token :: rest) /\
               auth.ValidateToken s now token = inl claims /\
               ctx' = mkContext (Some (CtxUUID (jwt.c_UserID claims)))
                                (middleware_UserIDKey ctx)) as Hiff.
  { intros ctx'. split.
    - destruct md as [[|[token|raw] rest]|]; try discriminate.
      destruct (auth.ValidateToken s now token) as [claims|e] eqn:V;
        [|discriminate].
      intros H. injection H as <-. exists token, rest, claims. auto.
    - intros (token & rest & claims & -> & V & ->). rewrite V. reflexivity. }
  split; [|split].
  - intros ctx'. rewrite <- Hiff.
    destruct md as [[|[token|raw] rest]|]; reflexivity.
  - intros ctx' H.
    assert (exists token rest claims,
               md = Some (Bearer token :: rest) /\
               auth.ValidateToken s now token = inl claims /\
               ctx' = mkContext (Some (CtxUUID (jwt.c_UserID claims)))
                                (middleware_UserIDKey ctx))
      as (token & rest & claims & _ & _ & ->).
    { apply Hiff. rewrite <- H.
      destruct md as [[|[token|raw] rest]|]; reflexivity. }
    exists claims. reflexivity.
  - intros c msg.
    destruct md as [[|[token|raw] rest]|];
      try (intros H; injection H as <- <-; split; reflexivity).
    destruct (auth.ValidateToken s now token); [discriminate|].
    intros H; injection H as <- <-; split; reflexivity.
Qed.

Lemma AuthInterceptor_admits_bearer_witness :
  AuthInterceptor (auth.NewService "jwt-secret") 10
    "/gophkeeper.GophKeeper/Login" None Background = Reply Background /\
  forall c msg,
    AuthInterceptor (auth.NewService "jwt-secret") 10
      "/gophkeeper.GophKeeper/GetData" (Some [NotBearer "Basic abc"])
      Background = Status c msg ->
    c = codes.Unauthenticated /\ msg = "user not authenticated".
Proof.
  split.
  - apply (proj1 (AuthInterceptor_admits_bearer (auth.NewService "jwt-secret")
                    10 "/gophkeeper.GophKeeper/Login" None Background)).
    reflexivity.
  - apply (proj2 (AuthInterceptor_admits_bearer (auth.NewService "jwt-secret")
                    10 "/gophkeeper.GophKeeper/GetData"
                    (Some [NotBearer "Basic abc"]) Background)).
    reflexivity.
Defined.

Section Login.

Variable cmp : string -> string -> bool.

(** X19 ([Login], [GenerateToken], [AuthInterceptor],
    [getUserIDFromContext]).  The token of a successful [Login] opens
    the interceptor for its user: presented as a Bearer value from the
    second of the login until 24 hours later, it lets any method through
    to its handler, and for a method that needs authentication the
    handler finds the identifier of the user who logged in. *)
Theorem Login_token_passes_interceptor s fault clk db req resp now method rest ctx :
  Login cmp s fault clk db req = Reply resp ->
  jwt.NewNumericDate (auth.now_nbf clk) <= now
    < jwt.NewNumericDate (Time_Add (auth.now_exp clk) (24 * Hour)) ->
  isPublicMethod method = false ->
  exists u ctx',
    GetUserByUsername fault db (pb.l_Username req) = inl u /\
    pb.u_Id (pb.User_ resp) = uuid.String_ (u_ID u) /\
    AuthInterceptor (authService s) now method
      (Some (Bearer (pb.Token resp) :: rest)) ctx = Reply ctx' /\
    getUserIDFromContext ctx' = (u_ID u, true).
Proof.
  unfold Login.
  destruct (String.eqb (pb.l_Username req) ""); [discriminate|].
  destruct (String.eqb (pb.l_Password req) ""); [discriminate|].
  destruct (GetUserByUsername fault db (pb.l_Username req)) as [u|e];
    [|discriminate].
  destruct (negb _); [discriminate|].
  destruct (auth.GenerateToken (authService s) clk (u_ID u) (Username u))
    as [token expiresAt] eqn:G.
  intros H Hnow Hpriv. injection H as <-.
  cbn [pb.Token pb.User_ pb.u_Id userResponse].
  destruct (token_facts.GenerateToken_valid
              (authService s) clk (u_ID u) (Username u) now Hnow)
    as (claims & V & Hid & _).
  rewrite G in V. cbn [fst] in V.
  exists u. eexists. split; [reflexivity|]. split; [reflexivity|].
  unfold AuthInterceptor. rewrite Hpriv, V.
  split; [reflexivity|]. unfold getUserIDFromContext. cbn [UserIDKey].
  rewrite Hid. reflexivity.
Qed.

End Login.

Lemma Login_token_passes_interceptor_witness :
  exists resp ctx',
    Login examples.sample_bcrypt examples.sample_server None
      (auth.mkGenClock 0 0 0) examples.db0
      (pb.mkLoginRequest "alice" "hunter22") = Reply resp /\
    AuthInterceptor (authService examples.sample_server) (3600 * Second)
      "/gophkeeper.GophKeeper/ListData" (Some [Bearer (pb.Token resp)])
      Background = Reply ctx' /\
    getUserIDFromContext ctx' = (examples.alice, true).
Proof.
  destruct (Login examples.sample_bcrypt examples.sample_server None
              (auth.mkGenClock 0 0 0) examples.db0
              (pb.mkLoginRequest "alice" "hunter22")) as [resp|c m] eqn:E;
    [|vm_compute in E; discriminate].
  destruct (Login_token_passes_interceptor examples.sample_bcrypt
              examples.sample_server None (auth.mkGenClock 0 0 0) examples.db0
              (pb.mkLoginRequest "alice" "hunter22") resp (3600 * Second)
              "/gophkeeper.GophKeeper/ListData" [] Background E)
    as (u & ctx' & Hu & _ & Hgate & Hctx).
  - vm_compute. split; [discriminate|reflexivity].
  - reflexivity.
  - exists resp, ctx'. split; [reflexivity|]. split; [exact Hgate|].
    rewrite Hctx. vm_compute in Hu. injection Hu as <-. reflexivity.
Defined.

End gate_facts.

(* ================================================================= *)
(** ** RefreshToken of the server, and the cursor of SyncData *)

Module session_facts.
Import pg storage spec tables grpc.

(** X20 ([Server.RefreshToken], [auth.RefreshToken], [ValidateToken],
    [GetUserByID]).  When the server answers a refresh with a response,
    the old token was valid when it was presented, the new token is valid
    for the same user identifier and user name, it expires 24 hours after
    it was issued, and the user of the response is the stored user with
    that identifier. *)
Theorem RefreshToken_keeps_the_user s now_validate now_since clk now_check
    fault db req resp :
  RefreshToken s now_validate now_since clk now_check fault db req
  = auth.Return (Reply resp) ->
  exists old new user,
    auth.ValidateToken (authService s) now_validate (pb.rt_Token req) = inl old /\
    auth.ValidateToken (authService s) now_check (pb.Token resp) = inl new /\
    jwt.c_UserID new = jwt.c_UserID old /\
    jwt.c_Username new = jwt.c_Username old /\
    pb.ExpiresAt resp
    = timestamppb.New (Time_Add (auth.now_exp clk) (24 * Hour)) /\
    GetUserByID fault db (jwt.c_UserID old) = inl user /\
    pb.User_ resp = userResponse user.
Proof.
  unfold RefreshToken.
  assert (forall oldToken,
             match
               auth.RefreshToken (authService s) now_validate now_since clk
                 oldToken
             with
             | auth.Return (inl (token, expiresAt)) =>
                 match auth.ValidateToken (authService s) now_check token with
                 | inl claims =>
                     match GetUserByID fault db (jwt.c_UserID claims) with
                     | inl user =>
                         auth.Return
                           (Reply (pb.mkAuthResponse token
                                     (timestamppb.New expiresAt)
                                     (userResponse user)))
                     | inr _ =>
                         auth.Return (Status codes.Internal "failed to get user")
                     end
                 | inr _ =>
                     auth.Return
                       (Status codes.Internal "failed to validate token")
                 end
             | auth.Return (inr _) =>
                 auth.Return
                   (Status codes.Unauthenticated "invalid or expired token")
             | auth.Panic reason => auth.Panic reason
             end = auth.Return (Reply resp) ->
             exists old new user,
               auth.ValidateToken (authService s) now_validate oldToken = inl old /\
               auth.ValidateToken (authService s) now_check (pb.Token resp)
               = inl new /\
               jwt.c_UserID new = jwt.c_UserID old /\
               jwt.c_Username new = jwt.c_Username old /\
               pb.ExpiresAt resp
               = timestamppb.New (Time_Add (auth.now_exp clk) (24 * Hour)) /\
               GetUserByID fault db (jwt.c_UserID old) = inl user /\
               pb.User_ resp = userResponse user) as Hmain.
  { intros oldToken. unfold auth.RefreshToken.
    destruct (auth.ValidateToken (authService s) now_validate oldToken)
      as [old|e] eqn:V; [|discriminate].
    destruct (jwt.ExpiresAt old) as [exp|]; [|discriminate].
    destruct (Hour <? Time_Sub now_since exp); [discriminate|].
    destruct (auth.GenerateToken (authService s) clk (jwt.c_UserID old)
                (jwt.c_Username old)) as [token expiresAt] eqn:G.
    destruct (auth.ValidateToken (authService s) now_check token)
      as [new|e] eqn:V'; [|discriminate].
    destruct (GetUserByID fault db (jwt.c_UserID new)) as [user|e] eqn:U;
      [|discriminate].
    intros H. injection H as <-. cbn [pb.Token pb.ExpiresAt pb.User_].
    pose proof V' as Hnew.
    apply token_facts.ValidateToken_inl_iff in Hnew
      as (alg & _ & Ht & _).
    unfold auth.GenerateToken in G. injection G as <- <-.
    unfold jwt.SignedString in Ht. injection Ht as _ Hc _.
    assert (jwt.c_UserID new = jwt.c_UserID old /\
            jwt.c_Username new = jwt.c_Username old) as [Hu Hn]
      by (rewrite <- Hc; split; reflexivity).
    rewrite Hu in U.
    exists old, new, user.
    split; [reflexivity|]. split; [exact V'|]. split; [exact Hu|].
    split; [exact Hn|]. split; [reflexivity|]. split; [exact U|reflexivity]. }
  destruct (pb.rt_Token req) as [raw|alg claims sig].
  - destruct raw as [|c raw]; [discriminate|]. apply Hmain.
  - apply Hmain.
Qed.

Lemma RefreshToken_keeps_the_user_witness :
  exists resp new,
    RefreshToken examples.sample_server 10 10 (auth.mkGenClock 10 10 10) 20
      None examples.db0
      (pb.mkRefreshTokenRequest
         (fst (auth.GenerateToken (authService examples.sample_server)
                 (auth.mkGenClock 0 0 0) examples.alice "alice")))
    = auth.Return (Reply resp) /\
    auth.ValidateToken (authService examples.sample_server) 20 (pb.Token resp)
    = inl new /\
    jwt.c_UserID new = examples.alice /\
    pb.User_ resp = userResponse examples.alice_user.
Proof.
  destruct (RefreshToken examples.sample_server 10 10
              (auth.mkGenClock 10 10 10) 20 None examples.db0
              (pb.mkRefreshTokenRequest
                 (fst (auth.GenerateToken (authService examples.sample_server)
                         (auth.mkGenClock 0 0 0) examples.alice "alice"))))
    as [[resp|c m]|reason] eqn:E; try (vm_compute in E; discriminate).
  destruct (RefreshToken_keeps_the_user _ _ _ _ _ _ _ _ _ E)
    as (old & new & user & Hold & Hnew & Hu & _ & _ & Huser & Hresp).
  exists resp, new. split; [reflexivity|]. split; [exact Hnew|].
  vm_compute in Hold. injection Hold as <-.
  split; [exact Hu|]. rewrite Hresp.
  vm_compute in Huser. injection Huser as <-. reflexivity.
Defined.

(** X21 ([SyncData], [timestamppb.New], [AsTime]).  The cursor that a
    sync returns can be handed back as it is: the timestamp keeps the
    time to the nanosecond, so the next sync answers with exactly the
    entries of the caller changed, and the tombstones of the caller set,
    after the moment the previous sync read the clock. *)
Theorem SyncData_cursor_round_trip ctx P now1 db1 req1 resp1 now2 db2 :
  UserIDKey ctx = Some (CtxUUID P) ->
  SyncData ctx no_sync_faults now1 db1 req1 = Reply resp1 ->
  timestamppb.AsTime (Some (pb.s_LastSyncTime resp1)) = now1 /\
  SyncData ctx no_sync_faults now2 db2
    (pb.mkSyncDataRequest (Some (pb.s_LastSyncTime resp1)))
  = Reply (pb.mkSyncDataResponse
             (map convertToProtoDataEntry (sync_entries db2 P now1))
             (map uuid.String_ (map d_ID (sync_tombstones db2 P now1)))
             (timestamppb.New now2)).
Proof.
  intros Hctx H1.
  rewrite (sync_response.SyncData_reply ctx P now1 db1 req1 Hctx) in H1.
  injection H1 as <-. cbn [pb.s_LastSyncTime].
  split; [apply AsTime_New|].
  rewrite (sync_response.SyncData_reply ctx P now2 db2 _ Hctx).
  cbn [pb.LastSyncTime]. rewrite AsTime_New. reflexivity.
Qed.

Lemma SyncData_cursor_round_trip_witness :
  exists resp1,
    SyncData examples.ctx_alice no_sync_faults 1999999999 examples.db0
      (pb.mkSyncDataRequest None) = Reply resp1 /\
    SyncData examples.ctx_alice no_sync_faults 5000000000 examples.db0
      (pb.mkSyncDataRequest (Some (pb.s_LastSyncTime resp1)))
    = Reply (pb.mkSyncDataResponse [] [] (timestamppb.New 5000000000)).
Proof.
  destruct (SyncData examples.ctx_alice no_sync_faults 1999999999 examples.db0
              (pb.mkSyncDataRequest None)) as [resp1|c m] eqn:E;
    [|vm_compute in E; discriminate].
  exists resp1. split; [reflexivity|].
  exact (proj2 (SyncData_cursor_round_trip examples.ctx_alice examples.alice
                  1999999999 examples.db0 (pb.mkSyncDataRequest None) resp1
                  5000000000 examples.db0 eq_refl E)).
Defined.

End session_facts.

(* ================================================================= *)
(** ** otp.go: secrets, the time left, the use of entropy *)

Module otp_facts.
Import otp.

Lemma length_string_of_list_ascii l :
  String.length (string_of_list_ascii l) = List.length l.
Proof. induction l as [|c l IH]; simpl; [reflexivity|]. now rewrite IH. Qed.

(** A source of [5 * k] bytes is encoded in [8 * k] characters of the
    alphabet. *)
Lemma encode_nopad_full k : forall src,
  List.length src = (5 * k)%nat ->
  List.length (base32.encode_nopad src) = (8 * k)%nat /\
  forallb base32.in_alphabet (base32.encode_nopad src) = true.
Proof.
  induction k as [|k IH]; intros src Hlen.
  - destruct src; [split; reflexivity|simpl in Hlen; lia].
  - destruct src as [|b0 [|b1 [|b2 [|b3 [|b4 rest]]]]]; simpl in Hlen; try lia.
    destruct (IH rest) as [Hl Ha]; [lia|].
    cbn [base32.encode_nopad]. split.
    + rewrite List.length_app, backup_code_facts.quantum_length, Hl. lia.
    + rewrite forallb_app, backup_code_facts.quantum_in_alphabet, Ha.
      reflexivity.
Qed.

(** X22 ([GenerateSecret]).  From a random source with at least 20
    bytes [GenerateSecret] takes exactly 20 and returns 32 characters of
    the base-32 alphabet, without padding; from a shorter source it
    returns an error and takes nothing. *)
Theorem GenerateSecret_is_32_characters tape :
  ((20 <= List.length tape)%nat ->
   exists secret,
     GenerateSecret tape = (inl secret, skipn 20 tape) /\
     String.length secret = 32%nat /\
     forallb base32.in_alphabet (list_ascii_of_string secret) = true) /\
  ((List.length tape < 20)%nat ->
   exists e, GenerateSecret tape = (inr e, tape)).
Proof.
  unfold GenerateSecret, rand.Read. split; intros Hlen.
  - destruct (Nat.ltb_spec (List.length tape) 20) as [Hlt|_]; [lia|].
    eexists. split; [reflexivity|].
    destruct (encode_nopad_full 4 (firstn 20 tape)) as [Hl Ha].
    { rewrite List.firstn_length_le by exact Hlen. reflexivity. }
    unfold base32.EncodeToString.
    rewrite Hl, List.firstn_length_le by exact Hlen.
    change (base32.EncodedLen 20 - 8 * 4)%nat with 0%nat.
    cbn [repeat]. rewrite app_nil_r, length_string_of_list_ascii,
      list_ascii_of_string_of_list_ascii.
    split; [exact Hl|exact Ha].
  - destruct (Nat.ltb_spec (List.length tape) 20) as [_|Hge]; [|lia].
    eexists. reflexivity.
Qed.

Lemma GenerateSecret_is_32_characters_witness :
  GenerateSecret (repeat x00 20 ++ [x07])%list
  = (inl "AAAAAAAAAAAAAAAAAAAAAAAAAAAAAAAA", [x07]) /\
  exists e, GenerateSecret (repeat x00 19) = (inr e, repeat x00 19).
Proof.
  destruct (GenerateSecret_is_32_characters (repeat x00 20 ++ [x07])%list)
    as [Hok _].
  destruct (GenerateSecret_is_32_characters (repeat x00 19)) as [_ Hshort].
  split.
  - destruct Hok as (secret & E & _); [simpl; lia|].
    rewrite E. vm_compute in E. injection E as <-. reflexivity.
  - apply Hshort. simpl. lia.
Defined.

(** X23 ([GetTimeRemaining]).  At or after the Unix epoch the time left
    in the current 30-second period is between 1 and 30 seconds, never 0,
    and the current second plus the time left is the next multiple of 30;
    before the epoch, where the remainder of Go is not positive, the
    result is between 30 and 59. *)
Theorem GetTimeRemaining_range now :
  (0 <= now ->
   1 <= GetTimeRemaining now <= 30 /\
   (Unix now + GetTimeRemaining now) mod 30 = 0 /\
   Unix now < Unix now + GetTimeRemaining now <= Unix now + 30) /\
  (now < 0 -> 30 <= GetTimeRemaining now <= 59).
Proof.
  unfold GetTimeRemaining, Unix. split; intros Hnow.
  - assert (0 <= now / Second) as Hs
      by (apply Z.div_pos; [exact Hnow|reflexivity]).
    rewrite Z.rem_mod_nonneg by lia.
    pose proof (Z.mod_pos_bound (now / Second) 30 eq_refl) as Hb.
    split; [lia|]. split; [|lia].
    replace (now / Second + (30 - (now / Second) mod 30))
      with ((now / Second - (now / Second) mod 30) + 1 * 30) by lia.
    rewrite Z.mod_add by discriminate.
    rewrite Zminus_mod_idemp_r, Z.sub_diag. reflexivity.
  - assert (now / Second <= 0) as Hs.
    { assert (now / Second < 0); [|lia].
      apply Z.div_lt_upper_bound; [reflexivity|lia]. }
    pose proof (Z.rem_bound_pos_neg (now / Second) 30 eq_refl Hs). lia.
Qed.

Lemma GetTimeRemaining_range_witness :
  1 <= GetTimeRemaining (1700000015 * Second) <= 30 /\
  30 <= GetTimeRemaining (-1) <= 59.
Proof.
  split.
  - apply (proj1 (GetTimeRemaining_range (1700000015 * Second))).
    vm_compute. discriminate.
  - apply (proj2 (GetTimeRemaining_range (-1))). reflexivity.
Defined.

(** The loop of [GenerateBackupCodes] on a source that lasts. *)
Lemma backupCodes_loop_takes n : forall i tape codes,
  (5 * n <= List.length tape)%nat ->
  exists out,
    backupCodes_loop n i tape codes = (inl out, skipn (5 * n) tape) /\
    List.length out = (List.length codes + n)%nat.
Proof.
  induction n as [|n IH]; intros i tape codes Hlen; simpl backupCodes_loop.
  - exists codes. split; [reflexivity|lia].
  - destruct tape as [|b0 [|b1 [|b2 [|b3 [|b4 rest]]]]]; simpl in Hlen; try lia.
    destruct (backup_code_facts.generateBackupCode_five_bytes b0 b1 b2 b3 b4 rest)
      as (c0 & c1 & c2 & c3 & c4 & c5 & c6 & c7 & _ & ->).
    match goal with |- context [backupCodes_loop n (i + 1) rest ?cs] =>
      destruct (IH (i + 1) rest cs) as (out & E & Hout); [lia|] end.
    exists out. split.
    + rewrite E. replace (5 * S n)%nat with (5 + 5 * n)%nat by lia.
      reflexivity.
    + rewrite Hout, List.length_app. cbn [List.length]. lia.
Qed.

(** The loop on a source that runs out: the error names the code it was
    making. *)
Lemma backupCodes_loop_fails n : forall i tape codes,
  (List.length tape < 5 * n)%nat ->
  exists e,
    fst (backupCodes_loop n i tape codes)
    = inr (ErrWrap ("failed to generate backup code " ++
                    itoa (i + Z.of_nat (List.length tape / 5))) e).
Proof.
  induction n as [|n IH]; intros i tape codes Hlen; [simpl in Hlen; lia|].
  simpl backupCodes_loop.
  destruct (Nat.lt_ge_cases (List.length tape) 5) as [Hshort|Hlong].
  - unfold generateBackupCode, rand.Read.
    destruct (Nat.ltb_spec (List.length tape) 5) as [_|Hge]; [|lia].
    rewrite Nat.div_small by exact Hshort. rewrite Z.add_0_r.
    eexists. reflexivity.
  - destruct tape as [|b0 [|b1 [|b2 [|b3 [|b4 rest]]]]]; simpl in Hlong;
      try lia.
    destruct (backup_code_facts.generateBackupCode_five_bytes b0 b1 b2 b3 b4 rest)
      as (c0 & c1 & c2 & c3 & c4 & c5 & c6 & c7 & _ & ->).
    match goal with |- context [backupCodes_loop n (i + 1) rest ?cs] =>
      destruct (IH (i + 1) rest cs) as (e & E) end.
    { simpl in Hlen. lia. }
    exists e. rewrite E.
    replace (List.length (b0 :: b1 :: b2 :: b3 :: b4 :: rest))
      with (1 * 5 + List.length rest)%nat by (simpl; lia).
    rewrite Nat.div_add_l by discriminate.
    replace (i + Z.of_nat (1 + List.length rest / 5))
      with (i + 1 + Z.of_nat (List.length rest / 5)) by lia.
    reflexivity.
Qed.

(** X24 ([GenerateBackupCodes], [generateBackupCode]).  For a count of
    [n] codes, ten when the count is not positive, the call takes five
    random bytes per code: from a source of at least [5 * n] bytes it
    returns [n] codes and leaves the rest of the source, and from a
    shorter source it returns an error that names the index of the code
    the source ran out on. *)
Theorem GenerateBackupCodes_takes_five_bytes_a_code count tape :
  let n := if count <=? 0 then 10%nat else Z.to_nat count in
  ((5 * n <= List.length tape)%nat ->
   exists codes,
     GenerateBackupCodes count tape = (inl codes, skipn (5 * n) tape) /\
     List.length codes = n) /\
  ((List.length tape < 5 * n)%nat ->
   exists e,
     fst (GenerateBackupCodes count tape)
     = inr (ErrWrap ("failed to generate backup code " ++
                     itoa (Z.of_nat (List.length tape / 5))) e)).
Proof.
  intros n. unfold GenerateBackupCodes.
  assert (Z.to_nat (if count <=? 0 then 10 else count) = n) as ->.
  { unfold n. destruct (count <=? 0); reflexivity. }
  split; intros Hlen.
  - destruct (backupCodes_loop_takes n 0 tape [] Hlen) as (out & E & Hout).
    exists out. split; [exact E|exact Hout].
  - destruct (backupCodes_loop_fails n 0 tape [] Hlen) as (e & E).
    exists e. exact E.
Qed.

Lemma GenerateBackupCodes_takes_five_bytes_a_code_witness :
  (exists codes,
      GenerateBackupCodes (-3) (repeat x2a 51) = (inl codes, [x2a]) /\
      List.length codes = 10%nat) /\
  (exists e,
      fst (GenerateBackupCodes 3 (repeat x2a 14))
      = inr (ErrWrap "failed to generate backup code 2" e)).
Proof.
  destruct (GenerateBackupCodes_takes_five_bytes_a_code (-3) (repeat x2a 51))
    as [Hok _].
  destruct (GenerateBackupCodes_takes_five_bytes_a_code 3 (repeat x2a 14))
    as [_ Hshort].
  split.
  - apply Hok. simpl. lia.
  - apply Hshort. simpl. lia.
Defined.

End otp_facts.

(* ================================================================= *)
(** ** config.go: flags, environment, validation *)

Module config_facts.
Import config spec.

Lemma loadEnvStringIfEmpty_given getenv flag envVar :
  String.eqb (loadEnvStringIfEmpty getenv (parsed flag "") envVar) ""
  = negb (given flag (getenv envVar)).
Proof.
  unfold loadEnvStringIfEmpty, parsed, given.
  destruct flag as [v|].
  - destruct (String.eqb v "") eqn:Ev; cbn [negb orb].
    + destruct (String.eqb (getenv envVar) "") eqn:Ee; cbn [negb];
        [exact Ev|exact Ee].
    + exact Ev.
  - cbn [String.eqb orb].
    destruct (String.eqb (getenv envVar) "") eqn:Ee; cbn [negb];
      [reflexivity|exact Ee].
Qed.

Lemma loadEnvBool_tls_asked flags getenv :
  loadEnvBool getenv (parsed (flag_s flags) false) "ENABLE_TLS"
  = tls_asked flags getenv.
Proof.
  unfold loadEnvBool, parsed, tls_asked.
  destruct (flag_s flags) as [[|]|]; cbn [negb]; try reflexivity;
    (destruct (String.eqb_spec (getenv "ENABLE_TLS") "") as [->|_];
     cbn [negb]; [reflexivity|];
     destruct (strconv.ParseBool (getenv "ENABLE_TLS")) as [[|]|];
     reflexivity).
Qed.

(** X25 ([LoadServerConfig], [Validate], [loadEnvStringIfEmpty],
    [loadEnvBool]).  [LoadServerConfig] returns a configuration exactly
    when the database URI, the JWT secret and the encryption key are each
    given by a flag or by the environment and, if TLS is asked for by the
    flag or by a variable ENABLE_TLS that reads as true, the certificate
    and the key file are given too.  The configuration it returns has
    these fields non-empty. *)
Theorem LoadServerConfig_succeeds_iff flags getenv :
  ((exists cfg, LoadServerConfig flags getenv = inl cfg) <->
   given (flag_d flags) (getenv "DATABASE_URI") = true /\
   given (flag_jwt flags) (getenv "JWT_SECRET") = true /\
   given (flag_enc flags) (getenv "ENCRYPTION_KEY") = true /\
   (tls_asked flags getenv = true ->
    given (flag_cert flags) (getenv "CERT_FILE") = true /\
    given (flag_key flags) (getenv "KEY_FILE") = true)) /\
  (forall cfg,
      LoadServerConfig flags getenv = inl cfg ->
      DatabaseURI cfg <> "" /\ JWTSecret cfg <> "" /\ EncryptionKey cfg <> "" /\
      EnableTLS cfg = tls_asked flags getenv /\
      (EnableTLS cfg = true -> CertFile cfg <> "" /\ KeyFile cfg <> "")).
Proof.
  unfold LoadServerConfig, Validate.
  cbn [DatabaseURI JWTSecret EncryptionKey EnableTLS CertFile KeyFile
       NewServerConfig].
  rewrite !loadEnvStringIfEmpty_given, loadEnvBool_tls_asked.
  destruct (given (flag_d flags) (getenv "DATABASE_URI")) eqn:Hd; cbn [negb].
  2:{ split; [split; [intros [cfg H]; discriminate|intros [H _]; discriminate]|].
      intros cfg H; discriminate. }
  destruct (given (flag_jwt flags) (getenv "JWT_SECRET")) eqn:Hj; cbn [negb].
  2:{ split; [split; [intros [cfg H]; discriminate
                     |intros (_ & H & _); discriminate]|].
      intros cfg H; discriminate. }
  destruct (given (flag_enc flags) (getenv "ENCRYPTION_KEY")) eqn:He;
    cbn [negb].
  2:{ split; [split; [intros [cfg H]; discriminate
                     |intros (_ & _ & H & _); discriminate]|].
      intros cfg H; discriminate. }
  apply negb_false_iff in Hd, Hj, He.
  rewrite <- loadEnvStringIfEmpty_given in Hd, Hj, He.
  apply String.eqb_neq in Hd, Hj, He.
  destruct (tls_asked flags getenv) eqn:Ht.
  - destruct (given (flag_cert flags) (getenv "CERT_FILE")) eqn:Hc; cbn [negb].
    2:{ split; [split; [intros [cfg H]; discriminate
                       |intros (_ & _ & _ & H);
                        destruct (H eq_refl); discriminate]|].
        intros cfg H; discriminate. }
    destruct (given (flag_key flags) (getenv "KEY_FILE")) eqn:Hk; cbn [negb].
    2:{ split; [split; [intros [cfg H]; discriminate
                       |intros (_ & _ & _ & H);
                        destruct (H eq_refl); discriminate]|].
        intros cfg H; discriminate. }
    apply negb_false_iff in Hc, Hk.
    rewrite <- loadEnvStringIfEmpty_given in Hc, Hk.
    apply String.eqb_neq in Hc, Hk.
    split; [split; [intros _; repeat split; reflexivity
                   |intros _; eexists; reflexivity]|].
    intros cfg H. injection H as <-.
    cbn [DatabaseURI JWTSecret EncryptionKey EnableTLS CertFile KeyFile].
    repeat split; assumption.
  - split; [split; [intros _; repeat split; try reflexivity; discriminate
                   |intros _; eexists; reflexivity]|].
    intros cfg H. injection H as <-.
    cbn [DatabaseURI JWTSecret EncryptionKey EnableTLS CertFile KeyFile].
    repeat split; try assumption; discriminate.
Qed.

(** X26 ([LoadServerConfig], [loadEnvString], [loadEnvStringIfEmpty],
    [loadEnvBool]).  In the configuration that [LoadServerConfig]
    returns, a flag given with a value other than its default (the empty
    string for the settings without one) decides the setting whatever the
    environment says, and the flag -s switches TLS on whatever
    ENABLE_TLS says.  A flag that is absent, or given with its default
    value, leaves the setting to a non-empty environment variable: each
    of the two addresses, the log level, the database URI, the JWT
    secret, the encryption key, the certificate and the key file is then
    the value of its variable, and TLS is what ENABLE_TLS reads as (off
    when it does not read as a boolean).  The migrations path is never
    read from the environment. *)
Theorem LoadServerConfig_precedence flags getenv cfg :
  LoadServerConfig flags getenv = inl cfg ->
  (forall v, flag_a flags = Some v -> v <> ":8080" -> ServerAddress cfg = v) /\
  (forall v, flag_g flags = Some v -> v <> ":8081" -> GRPCAddress cfg = v) /\
  (forall v, flag_l flags = Some v -> v <> "info" -> LogLevel cfg = v) /\
  (forall v, flag_d flags = Some v -> v <> "" -> DatabaseURI cfg = v) /\
  (forall v, flag_jwt flags = Some v -> v <> "" -> JWTSecret cfg = v) /\
  (forall v, flag_enc flags = Some v -> v <> "" -> EncryptionKey cfg = v) /\
  (forall v, flag_cert flags = Some v -> v <> "" -> CertFile cfg = v) /\
  (forall v, flag_key flags = Some v -> v <> "" -> KeyFile cfg = v) /\
  (flag_s flags = Some true -> EnableTLS cfg = true) /\
  (getenv "SERVER_ADDRESS" <> "" ->
   flag_a flags = None \/ flag_a flags = Some ":8080" ->
   ServerAddress cfg = getenv "SERVER_ADDRESS") /\
  (getenv "DATABASE_URI" <> "" ->
   flag_d flags = None \/ flag_d flags = Some "" ->
   DatabaseURI cfg = getenv "DATABASE_URI") /\
  MigrationsPath cfg = parsed (flag_m flags) "./migrations" /\
  (getenv "GRPC_ADDRESS" <> "" ->
   flag_g flags = None \/ flag_g flags = Some ":8081" ->
   GRPCAddress cfg = getenv "GRPC_ADDRESS") /\
  (getenv "LOG_LEVEL" <> "" ->
   flag_l flags = None \/ flag_l flags = Some "info" ->
   LogLevel cfg = getenv "LOG_LEVEL") /\
  (getenv "JWT_SECRET" <> "" ->
   flag_jwt flags = None \/ flag_jwt flags = Some "" ->
   JWTSecret cfg = getenv "JWT_SECRET") /\
  (getenv "ENCRYPTION_KEY" <> "" ->
   flag_enc flags = None \/ flag_enc flags = Some "" ->
   EncryptionKey cfg = getenv "ENCRYPTION_KEY") /\
  (getenv "CERT_FILE" <> "" ->
   flag_cert flags = None \/ flag_cert flags = Some "" ->
   CertFile cfg = getenv "CERT_FILE") /\
  (getenv "KEY_FILE" <> "" ->
   flag_key flags = None \/ flag_key flags = Some "" ->
   KeyFile cfg = getenv "KEY_FILE") /\
  (flag_s flags = None \/ flag_s flags = Some false ->
   EnableTLS cfg =
     match strconv.ParseBool (getenv "ENABLE_TLS") with
     | Some b => b
     | None => false
     end) /\
  (flag_a flags = None -> getenv "SERVER_ADDRESS" = "" ->
   ServerAddress cfg = ":8080") /\
  (flag_g flags = None -> getenv "GRPC_ADDRESS" = "" ->
   GRPCAddress cfg = ":8081") /\
  (flag_l flags = None -> getenv "LOG_LEVEL" = "" -> LogLevel cfg = "info").
Proof.
  unfold LoadServerConfig. destruct (Validate _); [discriminate|].
  intros H. injection H as <-.
  cbn [ServerAddress GRPCAddress LogLevel DatabaseURI JWTSecret EncryptionKey
       CertFile KeyFile EnableTLS MigrationsPath NewServerConfig].
  assert (forall d e v, v <> d -> loadEnvString getenv v d e = v) as Hs.
  { intros d e v Hv. unfold loadEnvString.
    destruct (String.eqb_spec v d); [contradiction|reflexivity]. }
  assert (forall e v, v <> "" -> loadEnvStringIfEmpty getenv v e = v) as Hi.
  { intros e v Hv. unfold loadEnvStringIfEmpty.
    destruct (String.eqb_spec v ""); [contradiction|reflexivity]. }
  assert (forall d e, getenv e <> "" -> loadEnvString getenv d d e = getenv e)
    as Hse.
  { intros d e He. unfold loadEnvString. rewrite String.eqb_refl.
    destruct (String.eqb_spec (getenv e) ""); [contradiction|reflexivity]. }
  assert (forall e, getenv e <> "" ->
                    loadEnvStringIfEmpty getenv "" e = getenv e) as Hie.
  { intros e He. unfold loadEnvStringIfEmpty. cbn [String.eqb].
    destruct (String.eqb_spec (getenv e) ""); [contradiction|reflexivity]. }
  assert (forall d e, getenv e = "" -> loadEnvString getenv d d e = d) as Hsd.
  { intros d e He. unfold loadEnvString. rewrite String.eqb_refl, He.
    reflexivity. }
  repeat match goal with |- _ /\ _ => split end.
  - intros v -> Hv. apply Hs, Hv.
  - intros v -> Hv. apply Hs, Hv.
  - intros v -> Hv. apply Hs, Hv.
  - intros v -> Hv. apply Hi, Hv.
  - intros v -> Hv. apply Hi, Hv.
  - intros v -> Hv. apply Hi, Hv.
  - intros v -> Hv. apply Hi, Hv.
  - intros v -> Hv. apply Hi, Hv.
  - intros ->. reflexivity.
  - intros He [-> | ->]; apply (Hse ":8080"), He.
  - intros He [-> | ->]; apply Hie, He.
  - reflexivity.
  - intros He [-> | ->]; apply (Hse ":8081"), He.
  - intros He [-> | ->]; apply (Hse "info"), He.
  - intros He [-> | ->]; apply Hie, He.
  - intros He [-> | ->]; apply Hie, He.
  - intros He [-> | ->]; apply Hie, He.
  - intros He [-> | ->]; apply Hie, He.
  - intros [-> | ->]; unfold loadEnvBool, parsed; cbn [negb];
      (destruct (String.eqb_spec (getenv "ENABLE_TLS") "") as [->|_];
       cbn [negb]; [reflexivity|];
       destruct (strconv.ParseBool (getenv "ENABLE_TLS")); reflexivity).
  - intros -> He. apply (Hsd ":8080"), He.
  - intros -> He. apply (Hsd ":8081"), He.
  - intros -> He. apply (Hsd "info"), He.
Qed.

Lemma LoadServerConfig_precedence_witness :
  exists cfg,
    LoadServerConfig
      (mkFlags (Some ":9090") None None None None (Some "") None
               (Some "s3cret") (Some "key") None)
      (fun v => if String.eqb v "DATABASE_URI" then "postgres://db"
                else if String.eqb v "SERVER_ADDRESS" then ":7070"
                else if String.eqb v "GRPC_ADDRESS" then ":7071"
                else if String.eqb v "LOG_LEVEL" then "debug"
                else if String.eqb v "JWT_SECRET" then "other"
                else if String.eqb v "ENABLE_TLS" then "0"
                else "") = inl cfg /\
    ServerAddress cfg = ":9090" /\ DatabaseURI cfg = "postgres://db" /\
    GRPCAddress cfg = ":7071" /\ LogLevel cfg = "debug" /\
    JWTSecret cfg = "s3cret" /\ EnableTLS cfg = false.
Proof.
  destruct (LoadServerConfig
              (mkFlags (Some ":9090") None None None None (Some "") None
                       (Some "s3cret") (Some "key") None)
              (fun v => if String.eqb v "DATABASE_URI" then "postgres://db"
                        else if String.eqb v "SERVER_ADDRESS" then ":7070"
                        else if String.eqb v "GRPC_ADDRESS" then ":7071"
                        else if String.eqb v "LOG_LEVEL" then "debug"
                        else if String.eqb v "JWT_SECRET" then "other"
                        else if String.eqb v "ENABLE_TLS" then "0"
                        else "")) as [cfg|e] eqn:E;
    [|vm_compute in E; discriminate].
  destruct (LoadServerConfig_precedence _ _ _ E)
    as (Ha & _ & _ & _ & Hj & _ & _ & _ & _ & _ & Hd & _ & Hg & Hl & _ & _
        & _ & _ & Ht & _).
  exists cfg. split; [reflexivity|].
  split; [apply Ha; [reflexivity|discriminate]|].
  split; [rewrite Hd; [reflexivity|discriminate|right; reflexivity]|].
  split; [rewrite Hg; [reflexivity|discriminate|left; reflexivity]|].
  split; [rewrite Hl; [reflexivity|discriminate|left; reflexivity]|].
  split; [apply Hj; [reflexivity|discriminate]|].
  rewrite Ht; [reflexivity|left; reflexivity].
Defined.

End config_facts.
